(** * Meeko: interaction fingerprints (meeko/analysis/fingerprint_interactions.py)

    A shallow embedding of the hydrogen-bond validator, of the per-pose
    classification loop of [FingerprintInteractions.run] and of the one-hot
    encoder [FingerprintInteractions.to_dataframe], with the properties of
    the specification stated and proved over it.

    Conventions of the embedding:
    - numpy's float64 is Rocq's primitive binary64 [float]; a coordinate
      array of shape (3,) is a [vec3];
    - a Python call that may raise returns a [result]: [Ok v] or [Raise e];
    - a Python [set] of labels is a [gset string]; the order in which a set
      is iterated is a parameter ([set_order]);
    - the objects of the structure provider (receptor, molecule, pose) are
      records whose fields are the queries the source calls. *)

From Stdlib Require Import ZArith Floats Ascii String.
From stdpp Require Import base option list strings pretty gmap sets.

Set Warnings "-inexact-float".

(** ** Exceptions and results *)

Inductive exn : Type :=
| KeyError (key : string)
| IndexError
| TypeError (msg : string)
| UnboundLocalError (name : string).

Inductive result (A : Type) : Type :=
| Ok (a : A)
| Raise (e : exn).
Arguments Ok {A} a.
Arguments Raise {A} e.

Definition rbind {A B : Type} (r : result A) (k : A → result B) : result B :=
  match r with
  | Ok a => k a
  | Raise e => Raise e
  end.

Notation "x ← r ;;; k" := (rbind r (λ x, k))
  (at level 20, r at level 100, k at level 200, right associativity,
   format "x  ←  r ;;;  '/' k").

(** [l[i]] on a Python list. *)
Definition getitem {A : Type} (l : list A) (i : nat) : result A :=
  match l !! i with
  | Some a => Ok a
  | None => Raise IndexError
  end.

(** ** numpy on float64 *)

Module NumPy.
Local Open Scope float_scope.

Record vec3 : Type := Vec3 { vx : float; vy : float; vz : float }.

(** [a - b] on two arrays. *)
Definition vsub (a b : vec3) : vec3 :=
  Vec3 (vx a - vx b) (vy a - vy b) (vz a - vz b).

(** [a + b] on two arrays. *)
Definition vadd (a b : vec3) : vec3 :=
  Vec3 (vx a + vx b) (vy a + vy b) (vz a + vz b).

(** [v / s], an array by a scalar. Under numpy's default error state a
    division by zero gives inf or nan and a RuntimeWarning, no exception. *)
Definition vdiv (v : vec3) (s : float) : vec3 :=
  Vec3 (vx v / s) (vy v / s) (vz v / s).

(** [np.dot] of two arrays of shape (3,), summed left to right. *)
Definition dot (a b : vec3) : float :=
  vx a * vx b + vy a * vy b + vz a * vz b.

(** [np.linalg.norm] of an array of shape (3,): [sqrt(x.dot(x))]. *)
Definition norm (v : vec3) : float := sqrt (dot v v).

Definition pi : float := 0x1.921fb54442d18p+1.

(** [np.degrees]: multiplication by 180/pi. *)
Definition degrees (x : float) : float := x * (180 / pi).

(** [np.mean(xyz, axis=0)] over the rows of an array of shape (n, 3): the
    rows are added up and divided by their number; no row gives 0/0. *)
Definition vsum (rows : list vec3) : vec3 :=
  match rows with
  | [] => Vec3 0 0 0
  | r :: rows => foldl vadd r rows
  end.

Definition mean (rows : list vec3) : vec3 :=
  vdiv (vsum rows) (of_uint63 (Uint63.of_Z (Z.of_nat (length rows)))).

(** [np.arccos] is the platform's libm; the development is parametric in
    it and uses only what IEEE 754 and C99 (Annex F) fix: a NaN or an
    argument outside [-1, 1] gives NaN, without an exception. *)
Class Libm : Type := {
  arccos : float → float;
  arccos_nan : arccos nan = nan;
  arccos_infinity : arccos infinity = nan;
  arccos_neg_infinity : arccos neg_infinity = nan
}.

(** A float is [special] when it is a NaN or an infinity. *)
Definition special (x : float) : bool :=
  match Prim2SF x with
  | S754_nan | S754_infinity _ => true
  | _ => false
  end.

End NumPy.
Import NumPy.

(** ** A reference arccos

    acos x = 2 atan (sqrt ((1 - x) / (1 + x))), the arctangent by three
    argument halvings and its Taylor polynomial. It stands for libm where a
    concrete run is evaluated. *)

Module RefLibm.
Local Open Scope float_scope.

Definition atan_halve (t : float) : float := t / (1 + sqrt (1 + t * t)).

Fixpoint atan_series (n : nat) (k : float) (p t2 acc : float) : float :=
  match n with
  | O => acc
  | S n => atan_series n (k + 2) (- (p * t2)) t2 (acc + p / k)
  end.

(** arctangent of [t] in [0, 1]. *)
Definition atan_unit (t : float) : float :=
  let u := atan_halve (atan_halve (atan_halve t)) in
  8 * atan_series 12 1 u (u * u) 0.

Definition atan_pos (t : float) : float :=
  if t <=? 1 then atan_unit t else pi / 2 - atan_unit (1 / t).

Definition acos (x : float) : float :=
  if is_nan x then nan
  else if 1 <? abs x then nan
  else if x =? -1 then pi
  else 2 * atan_pos (sqrt ((1 - x) / (1 + x))).

End RefLibm.

#[local] Instance ref_libm : Libm.
Proof.
  refine {| arccos := RefLibm.acos |}; reflexivity.
Defined.

(** ** The hydrogen-bond validator *)

Section Validator.
Context `{Libm}.
Local Open Scope float_scope.

(** [_compute_angle], lines 24-29. *)
Definition _compute_angle (v1 v2 : vec3) : result float :=
  let unit_vector_1 := vdiv v1 (norm v1) in
  let unit_vector_2 := vdiv v2 (norm v2) in
  let dot_product := dot unit_vector_1 unit_vector_2 in
  let angle := arccos dot_product in
  Ok angle.

(** The validator is instrumented: next to its result it returns the log of
    the calls it made to [_compute_angle], each with its two arguments. *)
Definition angle_call : Type := vec3 * vec3.
Definition traced (A : Type) : Type := list angle_call * result A.

Definition tret {A : Type} (a : A) : traced A := ([], Ok a).
Definition traise {A : Type} (e : exn) : traced A := ([], Raise e).
Definition tlift {A : Type} (r : result A) : traced A := ([], r).

Definition tbind {A B : Type} (m : traced A) (k : A → traced B) : traced B :=
  match m with
  | (log, Ok a) => let '(log', r) := k a in (log ++ log', r)
  | (log, Raise e) => (log, Raise e)
  end.

(** A logged call of [_compute_angle]. *)
Definition call_compute_angle (v1 v2 : vec3) : traced float :=
  ([(v1, v2)], _compute_angle v1 v2).

(** The return statement, line 70:
    [(angle_1 >= hb_criteria[1]) & (angle_2 >= hb_criteria[2])]. *)
Definition compare_angles (angle_1 angle_2 : float) (hb_criteria : list float)
  : traced bool :=
  tbind (tlift (getitem hb_criteria 1)) (λ c1,
  tbind (tlift (getitem hb_criteria 2)) (λ c2,
  tret ((c1 <=? angle_1) && (c2 <=? angle_2)))).

(** [_is_valid_hydrogen_bond], lines 32-72. [None - array] on line 63
    raises TypeError when both references are missing. *)
Definition _is_valid_hydrogen_bond_traced
    (atom_acc_1 : vec3) (atom_acc_2 : option vec3)
    (atom_don_1 : option vec3) (atom_don_2 : vec3)
    (hb_criteria : list float) : traced bool :=
  let distance := norm (vsub atom_acc_1 atom_don_2) in
  tbind (tlift (getitem hb_criteria 0)) (λ c0,
  if distance <=? c0 then
    match atom_don_1, atom_acc_2 with
    | Some don_1, Some acc_2 =>
        tbind (call_compute_angle (vsub atom_don_2 don_1) (vsub atom_acc_1 don_1)) (λ a1,
        let angle_1 := degrees a1 in
        tbind (call_compute_angle (vsub acc_2 atom_acc_1) (vsub don_1 atom_acc_1)) (λ a2,
        let angle_2 := degrees a2 in
        compare_angles angle_1 angle_2 hb_criteria))
    | None, Some acc_2 =>
        let angle_1 := 180 in
        tbind (call_compute_angle (vsub acc_2 atom_acc_1) (vsub atom_don_2 atom_acc_1)) (λ a2,
        let angle_2 := degrees a2 in
        compare_angles angle_1 angle_2 hb_criteria)
    | None, None =>
        traise (TypeError "unsupported operand type(s) for -: 'NoneType' and 'float'")
    | Some don_1, None =>
        tbind (call_compute_angle (vsub atom_don_2 don_1) (vsub atom_acc_1 don_1)) (λ a1,
        let angle_1 := degrees a1 in
        let angle_2 := 180 in
        compare_angles angle_1 angle_2 hb_criteria)
    end
  else tret false).

Definition _is_valid_hydrogen_bond
    (atom_acc_1 : vec3) (atom_acc_2 : option vec3)
    (atom_don_1 : option vec3) (atom_don_2 : vec3)
    (hb_criteria : list float) : result bool :=
  snd (_is_valid_hydrogen_bond_traced atom_acc_1 atom_acc_2 atom_don_1 atom_don_2
         hb_criteria).

End Validator.


(** ** The structure provider

    Atoms, receptor, molecule and pose are the collaborators of the class;
    each is a record of the fields and queries the source reads. *)

(** An element of the structured atom arrays, with the fields the source
    indexes: [atom['idx']], [atom['name']], ... *)
Record Atom : Type := {
  idx : Z;
  name : string;
  resid : Z;
  chain : string;
  xyz : vec3;
  atom_type : string
}.

(** The bond queries a receptor and a pose share: [neighbor_atoms(idx)]
    gives a list of index lists, [atoms(indices)] the atoms at them. *)
Record BondGraph : Type := {
  neighbor_atoms : Z → list (list Z);
  atoms : list Z → list Atom
}.

Record PDBQTReceptor : Type := {
  receptor_bonds : BondGraph;
  (** [receptor.closest_atoms_from_positions(xyz, max_distance)] *)
  receptor_closest_atoms_from_positions : vec3 → float → list Atom
}.

Record Pose : Type := {
  pose_name : string;
  pose_id : Z;
  pose_bonds : BondGraph;
  atoms_by_properties : list string → list Atom;
  has_water_molecules : bool;
  (** [pose.closest_atoms_from_positions(xyz, max_distance, properties)] *)
  pose_closest_atoms_from_positions : vec3 → float → list string → list Atom
}.

(** Iterating a molecule yields its poses. *)
Record PDBQTMolecule : Type := {
  has_flexible_residues : bool;
  poses : list Pose
}.

(** The argument of [run]: one molecule, or a list or tuple of them. *)
Inductive molecules_arg : Type :=
| OneMolecule (m : PDBQTMolecule)
| Molecules (ms : list PDBQTMolecule).

(** ** Module-level table and the object's state *)

Definition atom_property_definitions : gmap string string :=
  list_to_map
    [("H", "vdw"); ("C", "vdw"); ("A", "vdw"); ("N", "vdw"); ("P", "vdw"); ("S", "vdw");
     ("Br", "vdw"); ("I", "vdw"); ("F", "vdw");
     ("NA", "hb_acc"); ("OA", "hb_acc"); ("SA", "hb_acc"); ("OS", "hb_acc"); ("NS", "hb_acc");
     ("HD", "hb_don"); ("HS", "hb_don");
     ("Cl", "non-metal");
     ("Mg", "metal"); ("Ca", "metal"); ("Fe", "metal"); ("Zn", "metal"); ("Mn", "metal");
     ("W", "water");
     ("G0", "glue"); ("G1", "glue"); ("G2", "glue"); ("G3", "glue");
     ("CG0", "glue"); ("CG1", "glue"); ("CG2", "glue"); ("CG3", "glue")].

(** [d[key]] on a dict with string keys. *)
Definition dict_get {V : Type} (d : gmap string V) (key : string) : result V :=
  match d !! key with
  | Some v => Ok v
  | None => Raise (KeyError key)
  end.

(** [self._unique_interactions]: a dict with the four keys 'hb', 'vdw',
    'water' and 'reactive', in this insertion order, each holding a set. *)
Record vocabulary : Type := {
  hb : gset string;
  vdw : gset string;
  water : gset string;
  reactive : gset string
}.

(** [self._unique_interactions.items()] *)
Definition items (v : vocabulary) : list (string * gset string) :=
  [("hb", hb v); ("vdw", vdw v); ("water", water v); ("reactive", reactive v)].

(** One element of [self._data]:
    [(pose.name, pose.pose_id, list(tmp_hb), list(tmp_vdw), list(tmp_water))]. *)
Record pose_record : Type := {
  rec_name : string;
  rec_pose_id : Z;
  rec_hb : list string;
  rec_vdw : list string;
  rec_water : list string
}.

Record FingerprintInteractions : Type := {
  _data : list pose_record;
  _max_distance : float;
  _unique_interactions : vocabulary;
  _criteria : gmap string (list float);
  _receptor : PDBQTReceptor
}.

(** [__init__], lines 77-95. *)
Definition __init__ (receptor : PDBQTReceptor) : FingerprintInteractions :=
  {| _data := [];
     _max_distance := 4.2%float;
     _unique_interactions := {| hb := ∅; vdw := ∅; water := ∅; reactive := ∅ |};
     _criteria :=
       list_to_map
         [("hb_acc", [3.2; 120; 90]); ("hb_don", [3.2; 120; 90]);
          ("all", [4.2]); ("vdw", [4.2]);
          ("water", [3.2; 120; 90]);
          ("reactive", [2.0])]%float;
     _receptor := receptor |}.

(** The order in which a Python set is iterated is not specified: it is a
    parameter, some enumeration without repetition of the set's elements. *)
Record set_order : Type := {
  iterate :> gset string → list string;
  iterate_perm : ∀ X, iterate X ≡ₚ elements X
}.

Definition elements_order : set_order :=
  {| iterate := elements; iterate_perm := λ X, reflexivity (elements X) |}.

Definition reversed_order : set_order :=
  {| iterate := λ X, reverse (elements X);
     iterate_perm := λ X, reverse_Permutation (elements X) |}.

(** ** [FingerprintInteractions.run], lines 97-204 *)

(** The local variables of [run] that the classification loop assigns. The
    two hb-vectors are function-scoped: they keep their value from one
    iteration to the next, and reading one before its first assignment
    raises UnboundLocalError. *)
Record frame : Type := {
  tmp_hb : list string;
  tmp_vdw : list string;
  tmp_water : list string;
  lig_hb_vector : option vec3;
  rec_hb_vector : option vec3
}.

Definition append_hb (f : frame) (label : string) : frame :=
  {| tmp_hb := tmp_hb f ++ [label]; tmp_vdw := tmp_vdw f; tmp_water := tmp_water f;
     lig_hb_vector := lig_hb_vector f; rec_hb_vector := rec_hb_vector f |}.

Definition append_vdw (f : frame) (label : string) : frame :=
  {| tmp_hb := tmp_hb f; tmp_vdw := tmp_vdw f ++ [label]; tmp_water := tmp_water f;
     lig_hb_vector := lig_hb_vector f; rec_hb_vector := rec_hb_vector f |}.

Definition append_water (f : frame) (label : string) : frame :=
  {| tmp_hb := tmp_hb f; tmp_vdw := tmp_vdw f; tmp_water := tmp_water f ++ [label];
     lig_hb_vector := lig_hb_vector f; rec_hb_vector := rec_hb_vector f |}.

Definition set_lig_hb_vector (f : frame) (v : vec3) : frame :=
  {| tmp_hb := tmp_hb f; tmp_vdw := tmp_vdw f; tmp_water := tmp_water f;
     lig_hb_vector := Some v; rec_hb_vector := rec_hb_vector f |}.

Definition set_rec_hb_vector (f : frame) (v : vec3) : frame :=
  {| tmp_hb := tmp_hb f; tmp_vdw := tmp_vdw f; tmp_water := tmp_water f;
     lig_hb_vector := lig_hb_vector f; rec_hb_vector := Some v |}.

(** Lines 113-115: the three lists start empty at every pose. *)
Definition reset_tmp (f : frame) : frame :=
  {| tmp_hb := []; tmp_vdw := []; tmp_water := [];
     lig_hb_vector := lig_hb_vector f; rec_hb_vector := rec_hb_vector f |}.

Definition read_local {A : Type} (var : string) (v : option A) : result A :=
  match v with
  | Some a => Ok a
  | None => Raise (UnboundLocalError var)
  end.

(** A [for] loop over a list whose body may raise. *)
Fixpoint for_each {X S : Type} (body : X → S → result S) (xs : list X) (s : S)
  : result S :=
  match xs with
  | [] => Ok s
  | x :: xs => s' ← body x s ;;; for_each body xs s'
  end.

(** ['v_%s:%d' % (chain, resid)] and ['w_%s:%d' % (chain, resid)] *)
Definition residue_label (tag : string) (a : Atom) : string :=
  tag +:+ "_" +:+ chain a +:+ ":" +:+ pretty (resid a).

(** ['h_%s:%d:%s' % (chain, resid, name)] *)
Definition hb_label (a : Atom) : string :=
  "h_" +:+ chain a +:+ ":" +:+ pretty (resid a) +:+ ":" +:+ name a.

(** [x in ['hb_acc', 'hb_don']] *)
Definition is_hb_property (p : string) : bool :=
  String.eqb p "hb_acc" || String.eqb p "hb_don".

Section Run.
Context `{Libm}.

(** Lines 154-192: the decision on one (ligand atom, receptor atom) pair. *)
Definition interaction (self : FingerprintInteractions)
    (lig_atom : Atom) (lig_atom_property : string)
    (rec_atom : Atom) (rec_atom_property : string) (f : frame) : result frame :=
  if String.eqb lig_atom_property "vdw" && String.eqb rec_atom_property "vdw" then
    Ok (append_vdw f (residue_label "v" rec_atom))
  else if String.eqb lig_atom_property "hb_don" && String.eqb rec_atom_property "hb_acc" then
    rec_hb ← read_local "rec_hb_vector" (rec_hb_vector f) ;;;
    lig_hb ← read_local "lig_hb_vector" (lig_hb_vector f) ;;;
    criteria ← dict_get (_criteria self) lig_atom_property ;;;
    good_hb ← _is_valid_hydrogen_bond (xyz rec_atom) (Some rec_hb)
                 (Some (xyz lig_atom)) lig_hb criteria ;;;
    if good_hb : bool then Ok (append_hb f (hb_label rec_atom)) else Ok f
  else if String.eqb lig_atom_property "hb_acc" && String.eqb rec_atom_property "hb_don" then
    lig_hb ← read_local "lig_hb_vector" (lig_hb_vector f) ;;;
    rec_hb ← read_local "rec_hb_vector" (rec_hb_vector f) ;;;
    criteria ← dict_get (_criteria self) lig_atom_property ;;;
    good_hb ← _is_valid_hydrogen_bond (xyz lig_atom) (Some lig_hb)
                 (Some (xyz rec_atom)) rec_hb criteria ;;;
    if good_hb : bool then Ok (append_hb f (hb_label rec_atom)) else Ok f
  else if String.eqb lig_atom_property "water" then
    good_hb ←
      (if String.eqb rec_atom_property "hb_don" then
         rec_hb ← read_local "rec_hb_vector" (rec_hb_vector f) ;;;
         criteria ← dict_get (_criteria self) lig_atom_property ;;;
         _is_valid_hydrogen_bond (xyz lig_atom) None (Some (xyz rec_atom)) rec_hb criteria
       else if String.eqb rec_atom_property "hb_acc" then
         rec_hb ← read_local "rec_hb_vector" (rec_hb_vector f) ;;;
         criteria ← dict_get (_criteria self) lig_atom_property ;;;
         _is_valid_hydrogen_bond (xyz rec_atom) (Some rec_hb) None (xyz lig_atom) criteria
       else Ok false) ;;;
    if good_hb : bool then Ok (append_water f (residue_label "w" rec_atom)) else Ok f
  else Ok f.

(** Lines 139-141 and 150-152: the centroid of the atoms bound to [a]. *)
Definition hb_vector (g : BondGraph) (a : Atom) : result vec3 :=
  let bound_atoms_index := neighbor_atoms g (idx a) in
  first ← getitem bound_atoms_index 0 ;;;
  let bound_atoms := atoms g first in
  Ok (mean (map xyz bound_atoms)).

(** Lines 146-192: the body of [for rec_atom in rec_atoms]. *)
Definition classify_pair (self : FingerprintInteractions)
    (lig_atom : Atom) (lig_atom_property : string)
    (rec : BondGraph) (rec_atom : Atom) (f : frame) : result frame :=
  rec_atom_property ← dict_get atom_property_definitions (atom_type rec_atom) ;;;
  f ← (if is_hb_property rec_atom_property then
         v ← hb_vector rec rec_atom ;;; Ok (set_rec_hb_vector f v)
       else Ok f) ;;;
  interaction self lig_atom lig_atom_property rec_atom rec_atom_property f.

(** Lines 143-192: the loop over the rigid and the flexible partition. *)
Definition classify_partition (self : FingerprintInteractions)
    (lig_atom : Atom) (lig_atom_property : string)
    (part : BondGraph * list Atom) (f : frame) : result frame :=
  let '(rec, rec_atoms) := part in
  if (0 <? length rec_atoms)%nat then
    for_each (classify_pair self lig_atom lig_atom_property rec) rec_atoms f
  else Ok f.

(** Lines 123-192: the body of [for lig_atom in lig_atoms]. *)
Definition classify_lig_atom (self : FingerprintInteractions)
    (has_flexible_residues : bool) (pose : Pose)
    (lig_atom : Atom) (f : frame) : result frame :=
  let rec_rigid_atoms :=
    receptor_closest_atoms_from_positions (_receptor self) (xyz lig_atom)
      (_max_distance self) in
  let rec_rigid_flex := [receptor_bonds (_receptor self)] in
  let rec_rigid_flex_atoms := [rec_rigid_atoms] in
  let '(rec_rigid_flex, rec_rigid_flex_atoms) :=
    if has_flexible_residues then
      let rec_flex_atoms :=
        pose_closest_atoms_from_positions pose (xyz lig_atom) (_max_distance self)
          ["flexible_residue"] in
      (rec_rigid_flex ++ [pose_bonds pose], rec_rigid_flex_atoms ++ [rec_flex_atoms])
    else (rec_rigid_flex, rec_rigid_flex_atoms) in
  lig_atom_property ← dict_get atom_property_definitions (atom_type lig_atom) ;;;
  f ← (if is_hb_property lig_atom_property then
         v ← hb_vector (pose_bonds pose) lig_atom ;;; Ok (set_lig_hb_vector f v)
       else Ok f) ;;;
  for_each (classify_partition self lig_atom lig_atom_property)
    (zip rec_rigid_flex rec_rigid_flex_atoms) f.

(** Lines 113-192: the classification of one pose. *)
Definition classify_pose (self : FingerprintInteractions)
    (has_flexible_residues : bool) (pose : Pose) (f : frame) : result frame :=
  let f := reset_tmp f in
  let lig_atoms := atoms_by_properties pose ["ligand"] in
  let lig_atoms :=
    if has_water_molecules pose then lig_atoms ++ atoms_by_properties pose ["water"]
    else lig_atoms in
  for_each (classify_lig_atom self has_flexible_residues pose) lig_atoms f.

(** Lines 198-200: the three [update] calls on the vocabulary. *)
Definition update_unique_interactions (self : FingerprintInteractions)
    (tmp_hb tmp_vdw tmp_water : gset string) : FingerprintInteractions :=
  let u := _unique_interactions self in
  {| _data := _data self;
     _max_distance := _max_distance self;
     _unique_interactions :=
       {| hb := hb u ∪ tmp_hb; vdw := vdw u ∪ tmp_vdw; water := water u ∪ tmp_water;
          reactive := reactive u |};
     _criteria := _criteria self;
     _receptor := _receptor self |}.

(** Line 204: [self._data.extend(data)]. *)
Definition extend_data (self : FingerprintInteractions) (data : list pose_record)
  : FingerprintInteractions :=
  {| _data := _data self ++ data;
     _max_distance := _max_distance self;
     _unique_interactions := _unique_interactions self;
     _criteria := _criteria self;
     _receptor := _receptor self |}.

(** What [run] holds while it loops: the object, the local list [data] and
    the frame. An exception leaves the loops with the object as it is. *)
Definition run_state : Type := FingerprintInteractions * list pose_record * frame.

(** Lines 112-202: the body of [for pose in molecule]. *)
Definition run_pose (order : set_order) (has_flexible_residues : bool)
    (pose : Pose) (st : run_state) : FingerprintInteractions * result run_state :=
  let '(self, data, f) := st in
  match classify_pose self has_flexible_residues pose f with
  | Raise e => (self, Raise e)
  | Ok f =>
      let tmp_hb : gset string := list_to_set (tmp_hb f) in
      let tmp_vdw : gset string := list_to_set (tmp_vdw f) in
      let tmp_water : gset string := list_to_set (tmp_water f) in
      let self := update_unique_interactions self tmp_hb tmp_vdw tmp_water in
      let data :=
        data ++ [{| rec_name := pose_name pose; rec_pose_id := pose_id pose;
                    rec_hb := order tmp_hb; rec_vdw := order tmp_vdw;
                    rec_water := order tmp_water |}] in
      (self, Ok (self, data, f))
  end.

(** A loop of [run]: the body works on the object too, and an exception
    ends the loop. *)
Fixpoint run_loop {X : Type}
    (body : X → run_state → FingerprintInteractions * result run_state)
    (xs : list X) (st : run_state) : FingerprintInteractions * result run_state :=
  match xs with
  | [] => (st.1.1, Ok st)
  | x :: xs =>
      match body x st with
      | (_, Ok st') => run_loop body xs st'
      | (self, Raise e) => (self, Raise e)
      end
  end.

(** Lines 109-202: the body of [for molecule in molecules]. *)
Definition run_molecule (order : set_order) (molecule : PDBQTMolecule)
    (st : run_state) : FingerprintInteractions * result run_state :=
  let has_flexible_residues := has_flexible_residues molecule in
  run_loop (run_pose order has_flexible_residues) (poses molecule) st.

(** The frame of a call that has assigned nothing yet. *)
Definition new_frame : frame :=
  {| tmp_hb := []; tmp_vdw := []; tmp_water := [];
     lig_hb_vector := None; rec_hb_vector := None |}.

(** [run(self, molecules)]: the object after the call, and [Ok ()] or the
    exception that ended it. *)
Definition run (order : set_order) (self : FingerprintInteractions)
    (molecules : molecules_arg) : FingerprintInteractions * result unit :=
  let data := [] in
  let molecules :=
    match molecules with
    | OneMolecule m => [m]
    | Molecules ms => ms
    end in
  match run_loop (run_molecule order) molecules (self, data, new_frame) with
  | (_, Ok (self, data, _)) => (extend_data self data, Ok ())
  | (self, Raise e) => (self, Raise e)
  end.

End Run.

(** ** [FingerprintInteractions.to_dataframe], lines 206-251 *)

(** [s[n:]] on a string. *)
Fixpoint str_drop (n : nat) (s : string) : string :=
  match n, s with
  | S n, String _ s => str_drop n s
  | _, _ => s
  end.

(** A pandas table, column by column: the row index and, for each column,
    its two-level label and its cells from the first row to the last. *)
Record DataFrame : Type := {
  df_index : list (string * Z);
  df_columns : list ((string * string) * list Z)
}.

(** What the first loop builds: [count], [resid_to_idx_encoder] and the two
    lists of [columns]. *)
Record encoder_state : Type := {
  count : nat;
  resid_to_idx_encoder : gmap string nat;
  columns_0 : list string;
  columns_1 : list string
}.

(** Lines 226-228: [for resid in resids: encoder[resid] = count; count += 1]. *)
Definition assign_index (st : gmap string nat * nat) (resid : string)
  : gmap string nat * nat :=
  (<[resid := st.2]> st.1, S st.2).

(** Lines 221-228: the body of the loop over the vocabulary's items. *)
Definition encode_type (order : set_order) (st : encoder_state)
    (item : string * gset string) : encoder_state :=
  let '(inte_type, resids) := item in
  let resids := order resids in
  let '(encoder, count) :=
    foldl assign_index (resid_to_idx_encoder st, count st) resids in
  {| count := count;
     resid_to_idx_encoder := encoder;
     columns_0 := columns_0 st ++ replicate (length resids) inte_type;
     columns_1 := columns_1 st ++ map (str_drop 2) resids |}.

(** Lines 214-228. *)
Definition build_encoder (order : set_order) (self : FingerprintInteractions)
  : encoder_state :=
  foldl (encode_type order)
    {| count := 0; resid_to_idx_encoder := ∅; columns_0 := []; columns_1 := [] |}
    (items (_unique_interactions self)).

(** [pd.MultiIndex.from_tuples(tuples)] without [names]: pandas cannot
    infer the number of levels of an empty list and raises TypeError
    (pandas/core/indexes/multi.py: [if len(tuples) == 0: if names is None:
    raise TypeError(...)]); any other list of pairs is the index itself. *)
Definition MultiIndex_from_tuples (tuples : list (string * string))
  : result (list (string * string)) :=
  match tuples with
  | [] => Raise (TypeError "Cannot infer number of levels from empty list")
  | _ => Ok tuples
  end.

(** [row[idx] = 1] for a list of positions; a position outside the row
    raises IndexError. *)
Definition set_cell (j : nat) (row : list Z) : result (list Z) :=
  if (j <? length row)%nat then Ok (<[j := 1%Z]> row) else Raise IndexError.

Definition set_cells (row : list Z) (idx : list nat) : result (list Z) :=
  for_each set_cell idx row.

(** [[f(x) for x in xs]] with an [f] that may raise. *)
Fixpoint comprehension {A B : Type} (f : A → result B) (xs : list A)
  : result (list B) :=
  match xs with
  | [] => Ok []
  | x :: xs => y ← f x ;;; ys ← comprehension f xs ;;; Ok (y :: ys)
  end.

(** What the second loop builds: the rows of [fpi], [names] and [poses]. *)
Definition one_hot : Type := list (list Z) * list string * list Z.

(** Lines 238-239: the row of one pose; it starts as the zeros of
    [np.zeros] and gets a 1 at the index of each label of the pose. *)
Definition encode_row (enc : encoder_state) (pose_molecule : pose_record)
  : result (list Z) :=
  idx ← comprehension (dict_get (resid_to_idx_encoder enc))
          (rec_hb pose_molecule ++ rec_vdw pose_molecule ++ rec_water pose_molecule) ;;;
  set_cells (replicate (count enc) 0%Z) idx.

(** Lines 237-241: the body of the loop over [self._data]. *)
Definition encode_pose (enc : encoder_state) (pose_molecule : pose_record)
    (acc : one_hot) : result one_hot :=
  let '(fpi, names, poses) := acc in
  row ← encode_row enc pose_molecule ;;;
  Ok (fpi ++ [row], names ++ [rec_name pose_molecule],
      poses ++ [(rec_pose_id pose_molecule + 1)%Z]).

(** [pd.DataFrame(fpi, ...)]: column [j] holds cell [j] of every row. *)
Definition column_of (fpi : list (list Z)) (j : nat) : list Z :=
  map (λ row, row !!! j) fpi.

Definition column_sum (cells : list Z) : Z := foldr Z.add 0%Z cells.

(** Line 246: [df.loc[:, (df.sum(axis=0) != 0)]]. *)
Definition nonzero_column (c : (string * string) * list Z) : bool :=
  negb (column_sum c.2 =? 0)%Z.

(** Lines 231-244: the columns of the table built on line 244, before its
    all-zero columns are dropped, with the lists [names] and [poses]. *)
Definition built_table : Type :=
  list ((string * string) * list Z) * list string * list Z.

Definition initial_table (order : set_order) (self : FingerprintInteractions)
  : result built_table :=
  let enc := build_encoder order self in
  let c_tuples := zip (columns_0 enc) (columns_1 enc) in
  multi_columns ← MultiIndex_from_tuples c_tuples ;;;
  acc ← for_each (encode_pose enc) (_data self) ([], [], []) ;;;
  let '(fpi, names, poses) := acc in
  Ok (imap (λ j label, (label, column_of fpi j)) multi_columns, names, poses).

(** Lines 246-251: the all-zero columns are dropped, and ['name'] and
    ['pose'] become the row index. *)
Definition final_table (t : built_table) : DataFrame :=
  let '(columns, names, poses) := t in
  {| df_index := zip names poses;
     df_columns := filter (λ c, nonzero_column c = true) columns |}.

(** [to_dataframe(self)]: the object after the call, and the table or the
    exception. No statement of the method assigns to the object. *)
Definition to_dataframe (order : set_order) (self : FingerprintInteractions)
  : FingerprintInteractions * result DataFrame :=
  (self, t ← initial_table order self ;;; Ok (final_table t)).

(** ** A small docking scenario

    A receptor of one residue A:12 with a carbon CA, a carbonyl oxygen O
    bound to the carbon C, and a water-facing nitrogen; a ligand with a
    carbon and a polar hydrogen bound to a nitrogen. The spatial query is
    a scan of the receptor's atoms. *)

Module Scenario.
Local Open Scope float_scope.

Definition mk_atom (i : Z) (n : string) (ty : string) (x y z : float) : Atom :=
  {| idx := i; name := n; resid := 12; chain := "A"; xyz := Vec3 x y z; atom_type := ty |}.

Definition within (p : vec3) (d : float) (a : Atom) : bool :=
  norm (vsub (xyz a) p) <=? d.

Definition graph_of (all : list Atom) (bonds : list (list Z)) : BondGraph :=
  {| neighbor_atoms := λ i,
       match bonds !! Z.to_nat i with Some ns => [ns] | None => [] end;
     atoms := λ indices,
       omap (λ i, all !! Z.to_nat i) indices |}.

Definition receptor_atoms : list Atom :=
  [mk_atom 0 "CA" "C" 0 0 0;
   mk_atom 1 "C" "C" 0 5 0;
   mk_atom 2 "O" "OA" 0 6.2 0].

Definition receptor : PDBQTReceptor :=
  {| receptor_bonds := graph_of receptor_atoms [[1%Z]; [0%Z; 2%Z]; [1%Z]];
     receptor_closest_atoms_from_positions := λ p d,
       filter (λ a, within p d a = true) receptor_atoms |}.

(** Pose 0: a carbon 3.5 from CA, and a polar hydrogen 2 from O, bound to a
    nitrogen in line with it. *)
Definition ligand_atoms : list Atom :=
  [mk_atom 0 "C1" "C" 3.5 0 0;
   mk_atom 1 "N1" "N" 0 9.2 0;
   mk_atom 2 "H1" "HD" 0 8.2 0].

Definition make_pose (n : Z) (ligand : list Atom) (bonds : list (list Z)) : Pose :=
  {| pose_name := "lig"; pose_id := n;
     pose_bonds := graph_of ligand bonds;
     atoms_by_properties := λ props,
       if bool_decide (props = ["ligand"]) then ligand else [];
     has_water_molecules := false;
     pose_closest_atoms_from_positions := λ _ _ _, [] |}.

Definition pose_0 : Pose := make_pose 0 ligand_atoms [[]; [2%Z]; [1%Z]].

(** Pose 1: far from the receptor, no contact. *)
Definition pose_1 : Pose :=
  make_pose 1 [mk_atom 0 "C1" "C" 50 0 0] [[]].

(** Pose 2: an atom whose type is not in [atom_property_definitions]. *)
Definition pose_2 : Pose :=
  make_pose 2 [mk_atom 0 "X1" "Xx" 1 0 0] [[]].

(** Pose 3: the carbon of pose 0 alone. *)
Definition pose_3 : Pose :=
  make_pose 3 [mk_atom 0 "C1" "C" 3.5 0 0] [[]].

Definition molecule : PDBQTMolecule :=
  {| has_flexible_residues := false; poses := [pose_0; pose_1] |}.

(** A contact pose followed by the pose of unknown atom type. *)
Definition contact_then_unknown : PDBQTMolecule :=
  {| has_flexible_residues := false; poses := [pose_3; pose_2] |}.

Definition broken_molecule : PDBQTMolecule :=
  {| has_flexible_residues := false; poses := [pose_0; pose_2] |}.

Definition fresh : FingerprintInteractions := __init__ receptor.

Definition after_run : FingerprintInteractions :=
  (run elements_order fresh (OneMolecule molecule)).1.

Definition after_broken_run : FingerprintInteractions * result unit :=
  run elements_order fresh (OneMolecule broken_molecule).

(** After the broken call, a call on the carbon pose and the far pose: the
    hb label of the broken call is in the vocabulary and in no record. *)
Definition after_mixed_runs : FingerprintInteractions :=
  (run elements_order after_broken_run.1
     (Molecules [{| has_flexible_residues := false; poses := [pose_3; pose_1] |}])).1.

Definition mixed_table : DataFrame :=
  {| df_index := [("lig", 4%Z); ("lig", 2%Z)];
     df_columns := [(("vdw", "A:12"), [1%Z; 0%Z])] |}.

(** The table of the object after the first call. *)
Definition run_table : DataFrame :=
  {| df_index := [("lig", 1%Z); ("lig", 2%Z)];
     df_columns := [(("hb", "A:12:O"), [1%Z; 0%Z]);
                    (("vdw", "A:12"), [1%Z; 0%Z])] |}.

(** A molecule whose only pose is the far one: a record with no label. *)
Definition far_molecule : PDBQTMolecule :=
  {| has_flexible_residues := false; poses := [pose_1] |}.

(** A receptor with a carbon of a second residue, A:13, next to the
    carbon of the ligand: the carbon pose has contacts with two residues,
    and its vdw set two labels. *)
Definition two_residue_atoms : list Atom :=
  receptor_atoms
  ++ [{| idx := 3; name := "CB"; resid := 13; chain := "A";
         xyz := Vec3 3.5 3 0; atom_type := "C" |}].

Definition two_residue_receptor : PDBQTReceptor :=
  {| receptor_bonds :=
       graph_of two_residue_atoms [[1%Z]; [0%Z; 2%Z]; [1%Z]; []];
     receptor_closest_atoms_from_positions := λ p d,
       filter (λ a, within p d a = true) two_residue_atoms |}.

Definition contact_molecule : PDBQTMolecule :=
  {| has_flexible_residues := false; poses := [pose_3] |}.

(** The same call with the two enumerations of the sets. *)
Definition two_labels_run : FingerprintInteractions :=
  (run elements_order (__init__ two_residue_receptor)
     (OneMolecule contact_molecule)).1.

Definition two_labels_run_reversed : FingerprintInteractions :=
  (run reversed_order (__init__ two_residue_receptor)
     (OneMolecule contact_molecule)).1.

End Scenario.


(** ** The notions the properties are stated with *)

(** The four calls of the validator in [run] (lines 159, 168, 180, 185):
    for the properties of the ligand and receptor atom and the frame at
    the call, the points passed as [atom_acc_1] and [atom_don_2]. *)
Inductive hb_call_site (lig_atom rec_atom : Atom) (f : frame)
  : string → string → vec3 → vec3 → Prop :=
| ligand_donor rec_hb lig_hb :
    rec_hb_vector f = Some rec_hb → lig_hb_vector f = Some lig_hb →
    hb_call_site lig_atom rec_atom f "hb_don" "hb_acc" (xyz rec_atom) lig_hb
| ligand_acceptor lig_hb rec_hb :
    lig_hb_vector f = Some lig_hb → rec_hb_vector f = Some rec_hb →
    hb_call_site lig_atom rec_atom f "hb_acc" "hb_don" (xyz lig_atom) rec_hb
| water_acceptor rec_hb :
    rec_hb_vector f = Some rec_hb →
    hb_call_site lig_atom rec_atom f "water" "hb_don" (xyz lig_atom) rec_hb
| water_donor rec_hb :
    rec_hb_vector f = Some rec_hb →
    hb_call_site lig_atom rec_atom f "water" "hb_acc" (xyz rec_atom) (xyz lig_atom).

(** Inclusion of vocabularies, type by type. *)
Definition vocabulary_le (u v : vocabulary) : Prop :=
  hb u ⊆ hb v ∧ vdw u ⊆ vdw v ∧ water u ⊆ water v ∧ reactive u ⊆ reactive v.

(** The three label sets of a pose record are within the vocabulary. *)
Definition record_in_vocabulary (v : vocabulary) (r : pose_record) : Prop :=
  list_to_set (rec_hb r) ⊆ hb v
  ∧ list_to_set (rec_vdw r) ⊆ vdw v
  ∧ list_to_set (rec_water r) ⊆ water v.

(** What one step of a loop of [run] leaves: on success the object it
    returns is the one of the new state and [I] holds of it and of [data];
    on an exception [E] holds of the object. *)
Definition outcome_ok (I : FingerprintInteractions → list pose_record → Prop)
    (E : FingerprintInteractions → Prop)
    (o : FingerprintInteractions * result run_state) : Prop :=
  match o with
  | (s, Ok (self, data, _)) => s = self ∧ I self data
  | (s, Raise _) => E s
  end.

(** A label carries the tag of its list: ['h_...'], ['v_...'], ['w_...']. *)
Definition tagged (tag : ascii) (label : string) : Prop :=
  ∃ rest, label = String tag (String "_" rest).

Definition labels_tagged (v : vocabulary) : Prop :=
  (∀ l, l ∈ hb v → tagged "h" l)
  ∧ (∀ l, l ∈ vdw v → tagged "v" l)
  ∧ (∀ l, l ∈ water v → tagged "w" l)
  ∧ reactive v = ∅.

Definition frame_tagged (f : frame) : Prop :=
  Forall (tagged "h") (tmp_hb f)
  ∧ Forall (tagged "v") (tmp_vdw f)
  ∧ Forall (tagged "w") (tmp_water f).

(** A consistent accumulator: every record is within the vocabulary, and
    the vocabulary holds labels of the right tag. *)
Definition consistent (s : FingerprintInteractions) : Prop :=
  (∀ r, r ∈ _data s → record_in_vocabulary (_unique_interactions s) r)
  ∧ labels_tagged (_unique_interactions s).

Section Reachable.
Context `{Libm}.

(** The states an object goes through: constructed, then any number of
    [run] calls, each returning or raising. *)
Inductive reachable : FingerprintInteractions → Prop :=
| reachable_init (receptor : PDBQTReceptor) : reachable (__init__ receptor)
| reachable_run (order : set_order) (self : FingerprintInteractions)
    (molecules : molecules_arg) :
    reachable self → reachable (run order self molecules).1.

End Reachable.

(** The labels of the vocabulary in the order of the encoder's first loop,
    each with the type of its set. *)
Definition labelled (order : set_order) (v : vocabulary) : list (string * string) :=
  map (pair "hb") (order (hb v)) ++ map (pair "vdw") (order (vdw v))
  ++ map (pair "water") (order (water v)) ++ map (pair "reactive") (order (reactive v)).

(** The encoder state that a list of typed labels stands for. *)
Definition encoder_of (L : list (string * string)) : encoder_state :=
  {| count := length L;
     resid_to_idx_encoder := (foldl assign_index (∅, 0%nat) L.*2).1;
     columns_0 := L.*1;
     columns_1 := map (str_drop 2) L.*2 |}.

(** All the labels of a pose record. *)
Definition record_labels (r : pose_record) : list string :=
  rec_hb r ++ rec_vdw r ++ rec_water r.

(** The cell of a label in the row of a pose: 1 when the pose has it. *)
Definition indicator (l : string) (r : pose_record) : Z :=
  if bool_decide (l ∈ record_labels r) then 1%Z else 0%Z.

(** The column of a typed label over the recorded poses. *)
Definition column_for (data : list pose_record) (tl : string * string)
  : (string * string) * list Z :=
  ((tl.1, str_drop 2 tl.2), map (indicator tl.2) data).

(** [df[label][row]]: the cell of a table at a column label and a row. *)
Definition cell (df : DataFrame) (row : nat) (label : string * string) : option Z :=
  (list_to_map (df_columns df) : gmap (string * string) (list Z)) !! label
  ≫= (λ cells, cells !! row).

(** Two outcomes of the encoder agree: the same exception, or two tables
    with the same row index and the same columns up to their order, hence
    the same cell at every row and column label. *)
Definition same_table (r1 r2 : result DataFrame) : Prop :=
  match r1, r2 with
  | Ok df1, Ok df2 =>
      df_index df1 = df_index df2
      ∧ df_columns df1 ≡ₚ df_columns df2
      ∧ ∀ row label, cell df1 row label = cell df2 row label
  | Raise e1, Raise e2 => e1 = e2
  | _, _ => False
  end.

(** *** What a call of [run] computes *)

(** The three lists of the frame. *)
Definition frame_labels (f : frame) : list string * list string * list string :=
  (tmp_hb f, tmp_vdw f, tmp_water f).

(** The three kinds of label that [run] records, and the list of each. *)
Inductive kind : Type := HB | VDW | WATER.

Definition labels_of_kind (k : kind) (f : frame) : list string :=
  match k with
  | HB => tmp_hb f
  | VDW => tmp_vdw f
  | WATER => tmp_water f
  end.

Definition record_labels_of_kind (k : kind) (r : pose_record) : list string :=
  match k with
  | HB => rec_hb r
  | VDW => rec_vdw r
  | WATER => rec_water r
  end.

(** The value of a call that returns. *)
Definition ok_value {A : Type} (r : result A) : option A :=
  match r with
  | Ok a => Some a
  | Raise _ => None
  end.

(** The ligand-side atoms of a pose (lines 117-120) and, for one of them,
    the bond graphs with their candidate atoms (lines 124-133): the rigid
    receptor, then the flexible residues of the pose when the molecule
    has some. *)
Definition ligand_side_atoms (pose : Pose) : list Atom :=
  atoms_by_properties pose ["ligand"]
  ++ (if has_water_molecules pose then atoms_by_properties pose ["water"] else []).

Definition partitions (self : FingerprintInteractions) (flex : bool) (pose : Pose)
    (lig_atom : Atom) : list (BondGraph * list Atom) :=
  (receptor_bonds (_receptor self),
   receptor_closest_atoms_from_positions (_receptor self) (xyz lig_atom)
     (_max_distance self))
  :: (if flex then
        [(pose_bonds pose,
          pose_closest_atoms_from_positions pose (xyz lig_atom) (_max_distance self)
            ["flexible_residue"])]
      else []).

Section Emission.
Context `{Libm}.

(** The decision of lines 154-192 as a relation: the label of kind [k]
    that a pair adds, from the properties of the two atoms, the two
    hb-vectors and the criterion of the ligand atom's property. *)
Definition pair_emits (self : FingerprintInteractions)
    (lig_atom : Atom) (lp : string) (lig_hb : option vec3)
    (rec_atom : Atom) (rp : string) (rec_hb : option vec3)
    (k : kind) (l : string) : Prop :=
  match k with
  | VDW => lp = "vdw" ∧ rp = "vdw" ∧ l = residue_label "v" rec_atom
  | HB =>
      l = hb_label rec_atom
      ∧ ∃ va vb criteria,
          lig_hb = Some va ∧ rec_hb = Some vb
          ∧ _criteria self !! lp = Some criteria
          ∧ ((lp = "hb_don" ∧ rp = "hb_acc"
              ∧ _is_valid_hydrogen_bond (xyz rec_atom) (Some vb)
                  (Some (xyz lig_atom)) va criteria = Ok true)
             ∨ (lp = "hb_acc" ∧ rp = "hb_don"
                ∧ _is_valid_hydrogen_bond (xyz lig_atom) (Some va)
                    (Some (xyz rec_atom)) vb criteria = Ok true))
  | WATER =>
      l = residue_label "w" rec_atom ∧ lp = "water"
      ∧ ∃ vb criteria,
          rec_hb = Some vb ∧ _criteria self !! lp = Some criteria
          ∧ ((rp = "hb_don"
              ∧ _is_valid_hydrogen_bond (xyz lig_atom) None
                  (Some (xyz rec_atom)) vb criteria = Ok true)
             ∨ (rp = "hb_acc"
                ∧ _is_valid_hydrogen_bond (xyz rec_atom) (Some vb) None
                    (xyz lig_atom) criteria = Ok true))
  end.

(** What the ligand-side atom [lig_atom] of [pose] and the candidate
    [rec_atom] of the bond graph [g] add to the lists of the pose: the
    properties are those of the two atom types, the hb-vectors the
    centroids of the atoms bound to each. *)
Definition emitted (self : FingerprintInteractions) (pose : Pose)
    (lig_atom : Atom) (g : BondGraph) (rec_atom : Atom)
    (k : kind) (l : string) : Prop :=
  ∃ lp rp,
    atom_property_definitions !! atom_type lig_atom = Some lp
    ∧ atom_property_definitions !! atom_type rec_atom = Some rp
    ∧ pair_emits self lig_atom lp (ok_value (hb_vector (pose_bonds pose) lig_atom))
        rec_atom rp (ok_value (hb_vector g rec_atom)) k l.

End Emission.

(** The name and the number of a record and of a pose. *)
Definition record_key (r : pose_record) : string * Z := (rec_name r, rec_pose_id r).
Definition pose_key (p : Pose) : string * Z := (pose_name p, pose_id p).

(** The record that [run] stores for a pose: the name and the number of
    the pose, and in each list the labels that the pairs of the pose add. *)
Definition record_of_pose `{Libm} (self : FingerprintInteractions) (flex : bool)
    (pose : Pose) (r : pose_record) : Prop :=
  record_key r = pose_key pose
  ∧ ∀ k l, l ∈ record_labels_of_kind k r
           ↔ ∃ lig_atom part rec_atom,
               lig_atom ∈ ligand_side_atoms pose
               ∧ part ∈ partitions self flex pose lig_atom
               ∧ rec_atom ∈ part.2
               ∧ emitted self pose lig_atom part.1 rec_atom k l.

(** The molecules of a call (lines 106-107), their poses in the order of
    the loops, and the poses each with the flag of its molecule. *)
Definition molecules_of (molecules : molecules_arg) : list PDBQTMolecule :=
  match molecules with
  | OneMolecule m => [m]
  | Molecules ms => ms
  end.

Definition poses_of (molecules : molecules_arg) : list Pose :=
  concat (map poses (molecules_of molecules)).

Definition poses_with_flag (molecules : molecules_arg) : list (bool * Pose) :=
  concat (map (λ m, map (pair (has_flexible_residues m)) (poses m))
            (molecules_of molecules)).

(** The labels of each type over a list of records. *)
Definition records_hb (recs : list pose_record) : gset string :=
  ⋃ (map (λ r, list_to_set (rec_hb r)) recs).
Definition records_vdw (recs : list pose_record) : gset string :=
  ⋃ (map (λ r, list_to_set (rec_vdw r)) recs).
Definition records_water (recs : list pose_record) : gset string :=
  ⋃ (map (λ r, list_to_set (rec_water r)) recs).

(** The object with the labels of [recs] added to its vocabulary. *)
Definition absorb (self : FingerprintInteractions) (recs : list pose_record)
  : FingerprintInteractions :=
  let u := _unique_interactions self in
  {| _data := _data self;
     _max_distance := _max_distance self;
     _unique_interactions :=
       {| hb := hb u ∪ records_hb recs; vdw := vdw u ∪ records_vdw recs;
          water := water u ∪ records_water recs; reactive := reactive u |};
     _criteria := _criteria self;
     _receptor := _receptor self |}.

(** The states of an object none of whose calls of [run] has raised. *)
Inductive returned `{Libm} : FingerprintInteractions → Prop :=
| returned_init (receptor : PDBQTReceptor) : returned (__init__ receptor)
| returned_run (order : set_order) (self self' : FingerprintInteractions)
    (molecules : molecules_arg) :
    returned self → run order self molecules = (self', Ok ()) → returned self'.

(** No list of a record holds a label twice. *)
Definition deduplicated (r : pose_record) : Prop :=
  NoDup (rec_hb r) ∧ NoDup (rec_vdw r) ∧ NoDup (rec_water r).

(** *** Calls that differ in what [run] does not read *)

(** Two results agree: values related by [R], or the same exception. *)
Definition result_rel {A : Type} (R : A → A → Prop) (r r' : result A) : Prop :=
  match r, r' with
  | Ok a, Ok b => R a b
  | Raise e, Raise e' => e = e'
  | _, _ => False
  end.

Definition same_labels (f f' : frame) : Prop := frame_labels f = frame_labels f'.

(** Two frames agree on what the code reads of them for a ligand atom of
    property [lp], and for a receptor atom of property [rp]: an hb-vector
    is read only after it has been assigned for an atom of an hb property. *)
Definition agree_lig (lp : string) (f f' : frame) : Prop :=
  same_labels f f'
  ∧ (is_hb_property lp = true → lig_hb_vector f = lig_hb_vector f').

Definition agree_pair (lp rp : string) (f f' : frame) : Prop :=
  agree_lig lp f f'
  ∧ (is_hb_property rp = true → rec_hb_vector f = rec_hb_vector f').

(** Two objects with the same cutoff, criteria and receptor. *)
Definition same_env (self self' : FingerprintInteractions) : Prop :=
  _max_distance self = _max_distance self'
  ∧ _criteria self = _criteria self'
  ∧ _receptor self = _receptor self'.

(** Two objects that differ in their records only, and two states of
    [run] whose records, those of [self._data] followed by those of the
    local list [data], are related by [Rd]: the states may differ in how
    the records are split between the two lists. *)
Definition sim_object (s s' : FingerprintInteractions) : Prop :=
  same_env s s' ∧ _unique_interactions s = _unique_interactions s'.

Definition sim_state (Rd : list pose_record → list pose_record → Prop)
    (a b : run_state) : Prop :=
  sim_object a.1.1 b.1.1 ∧ Rd (_data a.1.1 ++ a.1.2) (_data b.1.1 ++ b.1.2).

Definition sim_outcome (Rd : list pose_record → list pose_record → Prop)
    (o o' : FingerprintInteractions * result run_state) : Prop :=
  match o, o' with
  | (s, Ok a), (s', Ok b) => s = a.1.1 ∧ s' = b.1.1 ∧ sim_state Rd a b
  | (s, Raise e), (s', Raise e') => e = e' ∧ sim_object s s'
  | _, _ => False
  end.

(** [Rd] is kept when the two loops append the record of a pose, each
    with its own enumeration of the three sets. *)
Definition appends_related (order order' : set_order)
    (Rd : list pose_record → list pose_record → Prop) : Prop :=
  ∀ l l' n i (h v w : gset string),
    Rd l l' →
    Rd (l ++ [{| rec_name := n; rec_pose_id := i; rec_hb := order h;
                 rec_vdw := order v; rec_water := order w |}])
       (l' ++ [{| rec_name := n; rec_pose_id := i; rec_hb := order' h;
                  rec_vdw := order' v; rec_water := order' w |}]).

(** Two records of the same pose with the same labels, in any order, and
    two objects that differ only in the order of the labels within their
    records. *)
Definition same_record (r r' : pose_record) : Prop :=
  record_key r = record_key r'
  ∧ ∀ k, record_labels_of_kind k r ≡ₚ record_labels_of_kind k r'.

Definition same_up_to_order (s s' : FingerprintInteractions) : Prop :=
  sim_object s s' ∧ Forall2 same_record (_data s) (_data s').

(** *** The inputs on which [run] returns *)

(** The exceptions of [run] on an object that [__init__] made: a KeyError
    on an atom type outside [atom_property_definitions], an IndexError on
    an atom of an hb property with no bound atoms. *)
Definition expected_exn (e : exn) : Prop :=
  (∃ k, e = KeyError k ∧ atom_property_definitions !! k = None) ∨ e = IndexError.

(** An atom that [run] can classify: its type is in the table, and when
    its property is an hb property, the graph has bound atoms for it. *)
Definition atom_ok (g : BondGraph) (a : Atom) : Prop :=
  ∃ p, atom_property_definitions !! atom_type a = Some p
       ∧ (is_hb_property p = true → neighbor_atoms g (idx a) ≠ []).

Definition lig_atom_ok (self : FingerprintInteractions) (flex : bool) (pose : Pose)
    (lig_atom : Atom) : Prop :=
  atom_ok (pose_bonds pose) lig_atom
  ∧ Forall (λ part, Forall (atom_ok part.1) part.2)
      (partitions self flex pose lig_atom).

Definition pose_ok (self : FingerprintInteractions) (flex : bool) (pose : Pose)
  : Prop :=
  Forall (lig_atom_ok self flex pose) (ligand_side_atoms pose).

Definition molecule_ok (self : FingerprintInteractions) (m : PDBQTMolecule) : Prop :=
  Forall (pose_ok self (has_flexible_residues m)) (poses m).

(** The criteria table has the three keys [run] reads, each with the three
    entries the validator reads. *)
Definition criteria_ok (self : FingerprintInteractions) : Prop :=
  ∀ key, key ∈ ["hb_acc"; "hb_don"; "water"] →
    ∃ c, _criteria self !! key = Some c ∧ (3 ≤ length c)%nat.

(** A call whose outcome the inputs decide: it returns exactly when [G]
    holds, then with [P]; otherwise it raises one of the two exceptions. *)
Definition decided {A : Type} (G : Prop) (P : A → Prop) (r : result A) : Prop :=
  match r with
  | Ok a => G ∧ P a
  | Raise e => ¬ G ∧ expected_exn e
  end.

Definition decided_run (G : Prop) (Inv : run_state → Prop)
    (o : FingerprintInteractions * result run_state) : Prop :=
  match o with
  | (_, Ok st) => G ∧ Inv st
  | (_, Raise e) => ¬ G ∧ expected_exn e
  end.

(** The hb-vector of the ligand atom is assigned when its property is an
    hb property. *)
Definition bound (lp : string) (f : frame) : Prop :=
  is_hb_property lp = true → is_Some (lig_hb_vector f).

(** What the loops of [run] keep of the object they started with. *)
Definition run_inv (self0 : FingerprintInteractions) (st : run_state) : Prop :=
  criteria_ok st.1.1 ∧ _receptor st.1.1 = _receptor self0
  ∧ _max_distance st.1.1 = _max_distance self0.

(** *** Labels as strings *)

(** The character [c] occurs in [s]. *)
Fixpoint has_char (c : ascii) (s : string) : bool :=
  match s with
  | EmptyString => false
  | String c' s' => Ascii.eqb c c' || has_char c s'
  end.


(** ** Facts on binary64 *)

Section FloatFacts.
Local Open Scope float_scope.

Lemma SFcompare_Lt_swap (a b : spec_float) :
  SFcompare a b = Some Lt → SFcompare b a = Some Gt.
Proof.
  destruct a as [sa|sa| |sa ma ea], b as [sb|sb| |sb mb eb]; simpl;
    try discriminate; try (destruct sa; discriminate || reflexivity);
    try (destruct sb; discriminate || reflexivity);
    try (destruct sa, sb; discriminate || reflexivity).
  pose proof (Pos.compare_cont_antisym ma mb Eq) as Hm. simpl in Hm.
  change PosDef.Pos.compare_cont with Pos.compare_cont.
  rewrite (Z.compare_antisym ea eb), <- Hm.
  destruct sa, sb; try discriminate; try reflexivity;
    destruct (ea ?= eb)%Z; simpl; try discriminate; try reflexivity;
    destruct (Pos.compare_cont Eq ma mb); simpl; discriminate || reflexivity.
Qed.

(** [x > y] excludes [x <= y], also with NaN and infinities. *)
Lemma ltb_not_leb (x y : float) : (y <? x) = true → (x <=? y) = false.
Proof.
  rewrite ltb_spec, leb_spec. unfold SFltb, SFleb.
  destruct (SFcompare (Prim2SF y) (Prim2SF x)) as [[]|] eqn:E; try discriminate.
  intros _. by rewrite (SFcompare_Lt_swap _ _ E).
Qed.

Lemma leb_nan (c : float) : (c <=? nan) = false.
Proof.
  rewrite leb_spec. unfold SFleb.
  change (Prim2SF nan) with S754_nan. by destruct (Prim2SF c).
Qed.

Lemma eqb_zero (d : float) :
  (d =? 0) = true → ∃ s, Prim2SF d = S754_zero s.
Proof.
  rewrite FloatAxioms.eqb_spec. unfold SFeqb.
  change (Prim2SF 0) with (S754_zero false).
  destruct (Prim2SF d) as [s|s| |s m e]; simpl; try discriminate; eauto.
  - by destruct s.
  - by destruct s.
Qed.

Lemma special_div_zero (x d : float) : (d =? 0) = true → special (x / d) = true.
Proof.
  intros [s Hd]%eqb_zero. unfold special.
  rewrite div_spec, Hd. by destruct (Prim2SF x).
Qed.

Lemma special_mul_l (a y : float) : special a = true → special (a * y) = true.
Proof.
  unfold special. rewrite mul_spec.
  destruct (Prim2SF a); try discriminate; intros _; by destruct (Prim2SF y).
Qed.

Lemma special_mul_r (y a : float) : special a = true → special (y * a) = true.
Proof.
  unfold special. rewrite mul_spec.
  destruct (Prim2SF a); try discriminate; intros _; by destruct (Prim2SF y).
Qed.

Lemma special_add (a b : float) :
  special a = true → special b = true → special (a + b) = true.
Proof.
  unfold special. rewrite add_spec.
  destruct (Prim2SF a) as [| [] | |]; try discriminate; intros _;
    by destruct (Prim2SF b) as [| [] | |].
Qed.

(** Arithmetic keeps a special value special, and arccos of one is NaN. *)
Lemma arccos_special `{Libm} (x : float) : special x = true → arccos x = nan.
Proof.
  unfold special. destruct (Prim2SF x) as [|[]| |] eqn:E; try discriminate; intros _.
  - rewrite <- arccos_neg_infinity. f_equal. by apply Prim2SF_inj.
  - rewrite <- arccos_infinity. f_equal. by apply Prim2SF_inj.
  - rewrite <- arccos_nan. f_equal. by apply Prim2SF_inj.
Qed.

End FloatFacts.

(** ** The validator: distance cutoff and missing references *)

Section ValidatorProperties.
Context `{Libm}.
Local Open Scope float_scope.

Lemma tbind_getitem {A B : Type} (l : list A) (i : nat) (a : A) (k : A → traced B) :
  l !! i = Some a → tbind (tlift (getitem l i)) k = k a.
Proof.
  intros Hl. unfold tlift, getitem, tbind. rewrite Hl.
  by destruct (k a).
Qed.

Lemma validator_unfold (atom_acc_1 atom_don_2 : vec3)
    (atom_acc_2 atom_don_1 : option vec3) (hb_criteria : list float) (c0 : float) :
  hb_criteria !! 0%nat = Some c0 →
  (norm (vsub atom_acc_1 atom_don_2) <=? c0) = false →
  _is_valid_hydrogen_bond_traced atom_acc_1 atom_acc_2 atom_don_1 atom_don_2
    hb_criteria = ([], Ok false).
Proof.
  intros Hc Hd. unfold _is_valid_hydrogen_bond_traced.
  rewrite (tbind_getitem _ _ _ _ Hc), Hd. reflexivity.
Qed.

(** C1. Whenever the distance between the acceptor position [atom_acc_1]
    and the donor reference [atom_don_2] is strictly greater than the
    criterion's maximum distance, the validator returns False and its log
    of angle computations is empty, whatever the two references are; and at
    each of the four call sites of [run], such a pair leaves the frame as it
    was: no label is appended for it. *)
Theorem out_of_range_rejected (atom_acc_1 atom_don_2 : vec3)
    (hb_criteria : list float) (max_distance : float) :
  hb_criteria !! 0%nat = Some max_distance →
  (max_distance <? norm (vsub atom_acc_1 atom_don_2)) = true →
  (∀ atom_acc_2 atom_don_1,
     _is_valid_hydrogen_bond_traced atom_acc_1 atom_acc_2 atom_don_1 atom_don_2
       hb_criteria = ([], Ok false))
  ∧ (∀ self lig_atom lig_atom_property rec_atom rec_atom_property f,
       hb_call_site lig_atom rec_atom f lig_atom_property rec_atom_property
         atom_acc_1 atom_don_2 →
       _criteria self !! lig_atom_property = Some hb_criteria →
       interaction self lig_atom lig_atom_property rec_atom rec_atom_property f
       = Ok f).
Proof.
  intros Hc Hd%ltb_not_leb.
  assert (Hv : ∀ a2 d1, _is_valid_hydrogen_bond atom_acc_1 a2 d1 atom_don_2
                          hb_criteria = Ok false).
  { intros a2 d1. unfold _is_valid_hydrogen_bond.
    by rewrite (validator_unfold _ _ _ _ _ _ Hc Hd). }
  split.
  - intros a2 d1. by apply validator_unfold with max_distance.
  - intros self lig_atom lp rec_atom rp f Hsite Hcrit.
    destruct Hsite as [rec_hb lig_hb Hr Hl|lig_hb rec_hb Hl Hr|rec_hb Hr|rec_hb Hr];
      unfold interaction, dict_get; simpl;
      rewrite ?Hr, ?Hl, Hcrit; simpl; by rewrite Hv.
Qed.

(** C2. Within the distance cutoff, when exactly one of the two
    references is absent, the angle on its side is the constant 180 and the
    validator calls [_compute_angle] once, for the other angle. Without the
    donor reference the result is [(180 >= min_1) & (angle_2 >= min_2)],
    without the acceptor reference [(angle_1 >= min_1) & (180 >= min_2)];
    the 180 passes a minimum of at most 180, and then the result is the
    remaining comparison alone. Both minimums are at most 180 whenever the
    criterion is one of the object's [_criteria], as it is at every call
    in [run]. *)
Theorem nondirectional_substitution (atom_acc_1 atom_don_2 reference : vec3)
    (hb_criteria : list float) (max_distance min_1 min_2 : float) :
  hb_criteria !! 0%nat = Some max_distance →
  hb_criteria !! 1%nat = Some min_1 →
  hb_criteria !! 2%nat = Some min_2 →
  (norm (vsub atom_acc_1 atom_don_2) <=? max_distance) = true →
  (∃ angle_2,
     _compute_angle (vsub reference atom_acc_1) (vsub atom_don_2 atom_acc_1)
     = Ok angle_2
     ∧ _is_valid_hydrogen_bond_traced atom_acc_1 (Some reference) None atom_don_2
         hb_criteria
       = ([(vsub reference atom_acc_1, vsub atom_don_2 atom_acc_1)],
          Ok ((min_1 <=? 180) && (min_2 <=? degrees angle_2)))
     ∧ ((min_1 <=? 180) = true →
        _is_valid_hydrogen_bond atom_acc_1 (Some reference) None atom_don_2
          hb_criteria = Ok (min_2 <=? degrees angle_2)))
  ∧ (∃ angle_1,
       _compute_angle (vsub atom_don_2 reference) (vsub atom_acc_1 reference)
       = Ok angle_1
       ∧ _is_valid_hydrogen_bond_traced atom_acc_1 None (Some reference) atom_don_2
           hb_criteria
         = ([(vsub atom_don_2 reference, vsub atom_acc_1 reference)],
            Ok ((min_1 <=? degrees angle_1) && (min_2 <=? 180)))
       ∧ ((min_2 <=? 180) = true →
          _is_valid_hydrogen_bond atom_acc_1 None (Some reference) atom_don_2
            hb_criteria = Ok (min_1 <=? degrees angle_1)))
  ∧ (∀ receptor key,
       _criteria (__init__ receptor) !! key = Some hb_criteria →
       (min_1 <=? 180) = true ∧ (min_2 <=? 180) = true).
Proof.
  intros H0 H1 H2 Hd.
  assert (Hcmp : ∀ a1 a2, compare_angles a1 a2 hb_criteria
                          = ([], Ok ((min_1 <=? a1) && (min_2 <=? a2)))).
  { intros a1 a2. unfold compare_angles.
    by rewrite (tbind_getitem _ _ _ _ H1), (tbind_getitem _ _ _ _ H2). }
  split; [|split]; [eexists; (split; [reflexivity|])..|].
  - assert (Ht : _is_valid_hydrogen_bond_traced atom_acc_1 (Some reference) None
                   atom_don_2 hb_criteria
                 = ([(vsub reference atom_acc_1, vsub atom_don_2 atom_acc_1)],
                    Ok ((min_1 <=? 180)
                        && (min_2 <=? degrees (arccos (dot
                              (vdiv (vsub reference atom_acc_1)
                                 (norm (vsub reference atom_acc_1)))
                              (vdiv (vsub atom_don_2 atom_acc_1)
                                 (norm (vsub atom_don_2 atom_acc_1))))))))).
    { unfold _is_valid_hydrogen_bond_traced.
      rewrite (tbind_getitem _ _ _ _ H0), Hd.
      unfold call_compute_angle, _compute_angle, tbind. by rewrite Hcmp. }
    split; [exact Ht|].
    intros Hm. unfold _is_valid_hydrogen_bond. by rewrite Ht, Hm.
  - assert (Ht : _is_valid_hydrogen_bond_traced atom_acc_1 None (Some reference)
                   atom_don_2 hb_criteria
                 = ([(vsub atom_don_2 reference, vsub atom_acc_1 reference)],
                    Ok ((min_1 <=? degrees (arccos (dot
                              (vdiv (vsub atom_don_2 reference)
                                 (norm (vsub atom_don_2 reference)))
                              (vdiv (vsub atom_acc_1 reference)
                                 (norm (vsub atom_acc_1 reference))))))
                        && (min_2 <=? 180)))).
    { unfold _is_valid_hydrogen_bond_traced.
      rewrite (tbind_getitem _ _ _ _ H0), Hd.
      unfold call_compute_angle, _compute_angle, tbind. by rewrite Hcmp. }
    split; [exact Ht|].
    intros Hm. unfold _is_valid_hydrogen_bond. rewrite Ht, Hm. simpl.
    by rewrite andb_true_r.
  - intros receptor key Hkey. unfold __init__ in Hkey. cbn [_criteria] in Hkey.
    apply elem_of_list_to_map_2 in Hkey.
    rewrite !elem_of_cons, elem_of_nil in Hkey.
    destruct Hkey as [Hk|[Hk|[Hk|[Hk|[Hk|[Hk|[]]]]]]];
      injection Hk as _ ->; simpl in H1, H2; try discriminate;
      injection H1 as <-; injection H2 as <-; by vm_compute.
Qed.

(** The three criteria [run] passes to the validator: 3.2, 120 and 90,
    both minimum angles below the 180 of an absent reference. *)
Lemma class_criteria (receptor : PDBQTReceptor) (key : string) :
  key ∈ ["hb_acc"; "hb_don"; "water"] →
  _criteria (__init__ receptor) !! key = Some [3.2; 120; 90]
  ∧ (120 <=? 180) = true ∧ (90 <=? 180) = true.
Proof.
  rewrite !elem_of_cons, elem_of_nil.
  intros [->|[->|[->|[]]]]; by vm_compute.
Qed.

End ValidatorProperties.

(** ** The angle of a vector of zero magnitude *)

Section DegenerateGeometry.
Context `{Libm}.
Local Open Scope float_scope.

Lemma special_dot_l (u w : vec3) :
  special (vx u) = true → special (vy u) = true → special (vz u) = true →
  special (dot u w) = true.
Proof.
  intros Hx Hy Hz. unfold dot.
  repeat apply special_add; by apply special_mul_l.
Qed.

Lemma special_dot_r (w u : vec3) :
  special (vx u) = true → special (vy u) = true → special (vz u) = true →
  special (dot w u) = true.
Proof.
  intros Hx Hy Hz. unfold dot.
  repeat apply special_add; by apply special_mul_r.
Qed.

(** The return statement logs no call, and on a NaN angle it gives
    [False], or IndexError when a criterion is missing. *)
Lemma compare_angles_log (angle_1 angle_2 : float) (hb_criteria : list float) :
  (compare_angles angle_1 angle_2 hb_criteria).1 = [].
Proof.
  unfold compare_angles, tbind, tlift, tret, getitem.
  by destruct (hb_criteria !! 1%nat), (hb_criteria !! 2%nat).
Qed.

Lemma compare_angles_nan (angle_1 angle_2 : float) (hb_criteria : list float) :
  angle_1 = nan ∨ angle_2 = nan →
  (compare_angles angle_1 angle_2 hb_criteria).2 = Ok false
  ∨ ((compare_angles angle_1 angle_2 hb_criteria).2 = Raise IndexError
     ∧ (length hb_criteria < 3)%nat).
Proof.
  intros Hnan. unfold compare_angles, tbind, tlift, tret, getitem.
  destruct (hb_criteria !! 1%nat) as [c1|] eqn:H1.
  - destruct (hb_criteria !! 2%nat) as [c2|] eqn:H2; simpl.
    + left. f_equal.
      destruct Hnan as [->| ->]; [by rewrite leb_nan|].
      by rewrite leb_nan, andb_false_r.
    + right. split; [done|]. apply lookup_ge_None in H2. lia.
  - simpl. right. split; [done|]. apply lookup_ge_None in H1. lia.
Qed.

Ltac logged_angle_is_nan crit Hnan :=
  match goal with
  | |- context [compare_angles ?x ?y crit] =>
      let Hc := fresh "Hc" in
      let Hlog := fresh "Hlog" in
      let log := fresh "log" in
      let r := fresh "r" in
      pose proof (compare_angles_nan x y crit) as Hc;
      pose proof (compare_angles_log x y crit) as Hlog;
      destruct (compare_angles x y crit) as [log r];
      simpl in *; subst log; rewrite !elem_of_cons;
      intros Hin; decompose [or] Hin; clear Hin;
      try (by match goal with Hnil : _ ∈ [] |- _ => apply elem_of_nil in Hnil end);
      match goal with Heq : (_, _) = (_, _) |- _ => injection Heq as -> -> end;
      apply Hc; rewrite Hnan; auto
  end.

(** C8, as the code has it. When the magnitude numpy computes for one of
    the two vectors is zero, [_compute_angle] raises nothing: the division
    gives NaN or infinite components, their dot product is NaN or infinite,
    arccos turns it into NaN and the call returns that NaN. The NaN flows
    into the validator: every comparison [angle >= minimum] on it is
    false, so every call of the validator that computes the angle of such
    a pair of vectors returns [False] (or raises IndexError at line 70,
    when a criterion is missing); no call raises on the geometry. *)
Theorem zero_magnitude_gives_nan (v1 v2 : vec3) :
  (norm v1 =? 0) = true ∨ (norm v2 =? 0) = true →
  _compute_angle v1 v2 = Ok nan
  ∧ (∀ minimum, (minimum <=? degrees nan) = false)
  ∧ ∀ atom_acc_1 atom_acc_2 atom_don_1 atom_don_2 hb_criteria,
      (v1, v2) ∈ (_is_valid_hydrogen_bond_traced atom_acc_1 atom_acc_2
                    atom_don_1 atom_don_2 hb_criteria).1 →
      _is_valid_hydrogen_bond atom_acc_1 atom_acc_2 atom_don_1 atom_don_2
        hb_criteria = Ok false
      ∨ (_is_valid_hydrogen_bond atom_acc_1 atom_acc_2 atom_don_1 atom_don_2
           hb_criteria = Raise IndexError
         ∧ (length hb_criteria < 3)%nat).
Proof.
  intros Hz.
  assert (Hnan : arccos (dot (vdiv v1 (norm v1)) (vdiv v2 (norm v2))) = nan).
  { apply arccos_special. destruct Hz as [Hz|Hz].
    - apply special_dot_l; by apply special_div_zero.
    - apply special_dot_r; by apply special_div_zero. }
  split; [unfold _compute_angle; by rewrite Hnan|].
  split; [intros m; change (degrees nan) with nan; apply leb_nan|].
  intros acc_1 acc_2 don_1 don_2 crit.
  unfold _is_valid_hydrogen_bond, _is_valid_hydrogen_bond_traced.
  destruct (crit !! 0%nat) as [c0|] eqn:H0.
  2:{ unfold tbind, tlift, getitem. rewrite H0. by intros []%elem_of_nil. }
  rewrite (tbind_getitem _ _ _ _ H0).
  destruct (norm (vsub acc_1 don_2) <=? c0); [|by intros []%elem_of_nil].
  unfold call_compute_angle, _compute_angle.
  destruct don_1 as [d1|], acc_2 as [a2|]; cbn [tbind];
    [logged_angle_is_nan crit Hnan ..|by intros []%elem_of_nil].
Qed.

End DegenerateGeometry.

(** At the zero vector the call returns NaN instead of raising, and the
    validator goes on with it: with the pre-acceptor on the acceptor, the
    two angles are computed and the bond is rejected by the comparison. *)
Lemma zero_vector_angle_returns_nan :
  norm (Vec3 0 0 0) = 0%float
  ∧ @_compute_angle ref_libm (Vec3 0 0 0) (Vec3 1 0 0) = Ok nan
  ∧ (¬ ∃ e, @_compute_angle ref_libm (Vec3 0 0 0) (Vec3 1 0 0) = Raise e)
  ∧ @_is_valid_hydrogen_bond_traced ref_libm (Vec3 0 0 0) (Some (Vec3 0 0 0))
      (Some (Vec3 1 0 0)) (Vec3 2 0 0) [3.2; 120; 90]%float
    = ([(Vec3 1 0 0, Vec3 (-1) 0 0); (Vec3 0 0 0, Vec3 1 0 0)], Ok false).
Proof.
  split; [reflexivity|]. split; [reflexivity|]. split; [|by vm_compute].
  intros [e He]. discriminate He.
Qed.

Lemma zero_magnitude_gives_nan_witness :
  @_compute_angle ref_libm (Vec3 0 0 0) (Vec3 1 0 0) = Ok nan
  ∧ (∀ minimum, (minimum <=? degrees nan)%float = false)
  ∧ (@_is_valid_hydrogen_bond ref_libm (Vec3 0 0 0) (Some (Vec3 0 0 0))
       (Some (Vec3 1 0 0)) (Vec3 2 0 0) [3.2; 120; 90]%float = Ok false
     ∨ (@_is_valid_hydrogen_bond ref_libm (Vec3 0 0 0) (Some (Vec3 0 0 0))
          (Some (Vec3 1 0 0)) (Vec3 2 0 0) [3.2; 120; 90]%float = Raise IndexError
        ∧ (length [3.2; 120; 90]%float < 3)%nat)).
Proof.
  destruct (@zero_magnitude_gives_nan ref_libm (Vec3 0 0 0) (Vec3 1 0 0))
    as (Hangle & Hcompare & Hvalidator); [left; reflexivity|].
  split; [exact Hangle|]. split; [exact Hcompare|].
  apply Hvalidator.
  apply list_elem_of_further, list_elem_of_here.
Defined.

(** ** The accumulator across [run] calls *)

#[local] Instance vocabulary_le_preorder : PreOrder vocabulary_le.
Proof.
  split.
  - intros u. by repeat split.
  - intros u v w (?&?&?&?) (?&?&?&?). repeat split; set_solver.
Qed.

Lemma record_in_vocabulary_mono (u v : vocabulary) (r : pose_record) :
  vocabulary_le u v → record_in_vocabulary u r → record_in_vocabulary v r.
Proof.
  intros (?&?&?&?) (?&?&?). repeat split; set_solver.
Qed.

Section RunProperties.
Context `{Libm}.

Lemma run_loop_outcome {X : Type}
    (I : FingerprintInteractions → list pose_record → Prop)
    (E : FingerprintInteractions → Prop)
    (body : X → run_state → FingerprintInteractions * result run_state) :
  (∀ x self data f, I self data → outcome_ok I E (body x (self, data, f))) →
  ∀ xs self data f, I self data →
    outcome_ok I E (run_loop body xs (self, data, f)).
Proof.
  intros Hbody xs. induction xs as [|x xs IH]; intros self data f HI; simpl.
  - done.
  - specialize (Hbody x self data f HI).
    destruct (body x (self, data, f)) as [s [[[self' data'] f']|e]]; simpl in *.
    + destruct Hbody as [_ HI']. by apply IH.
    + done.
Qed.

(** What [run_pose] does to the object and to [data]. *)
Lemma run_pose_outcome (order : set_order) (flex : bool) (pose : Pose)
    (self : FingerprintInteractions) (data : list pose_record) (f : frame) :
  match classify_pose self flex pose f with
  | Raise e => run_pose order flex pose (self, data, f) = (self, Raise e)
  | Ok f' =>
      let self' :=
        update_unique_interactions self (list_to_set (tmp_hb f'))
          (list_to_set (tmp_vdw f')) (list_to_set (tmp_water f')) in
      run_pose order flex pose (self, data, f)
      = (self', Ok (self', data ++
           [{| rec_name := pose_name pose; rec_pose_id := pose_id pose;
               rec_hb := order (list_to_set (tmp_hb f'));
               rec_vdw := order (list_to_set (tmp_vdw f'));
               rec_water := order (list_to_set (tmp_water f')) |}], f'))
  end.
Proof.
  unfold run_pose. by destruct (classify_pose self flex pose f).
Qed.

(** An invariant of the pose step is one of the whole call. *)
Lemma run_outcome (I : FingerprintInteractions → list pose_record → Prop)
    (E : FingerprintInteractions → Prop) (order : set_order)
    (self : FingerprintInteractions) (molecules : molecules_arg) :
  (∀ flex pose self data f, I self data →
     outcome_ok I E (run_pose order flex pose (self, data, f))) →
  I self [] →
  match run order self molecules with
  | (s, Ok _) => ∃ self' data, s = extend_data self' data ∧ I self' data
  | (s, Raise _) => E s
  end.
Proof.
  intros Hpose HI. unfold run.
  set (ms := match molecules with OneMolecule m => [m] | Molecules ms => ms end).
  assert (Hloop : outcome_ok I E
            (run_loop (run_molecule order) ms (self, [], new_frame))).
  { apply run_loop_outcome; [|done].
    intros m self0 data0 f0 HI0. unfold run_molecule.
    apply run_loop_outcome; [|done]. intros; by apply Hpose. }
  destruct (run_loop (run_molecule order) ms (self, [], new_frame))
    as [s [[[self' data'] f']|e]]; simpl in *; [|done].
  destruct Hloop as [_ HI']. eauto.
Qed.

Lemma order_to_set (order : set_order) (X : gset string) :
  list_to_set (order X) = X.
Proof.
  apply set_eq. intros x.
  rewrite elem_of_list_to_set, (iterate_perm order X). apply elem_of_elements.
Qed.

(** The pose step only adds to the vocabulary. *)
Lemma run_pose_vocabulary_le (order : set_order) (self0 : FingerprintInteractions) :
  let I := λ (s : FingerprintInteractions) (_ : list pose_record),
             vocabulary_le (_unique_interactions self0) (_unique_interactions s) in
  ∀ flex pose self data f, I self data →
    outcome_ok I (λ s, I s []) (run_pose order flex pose (self, data, f)).
Proof.
  intros I flex pose self data f HI.
  pose proof (run_pose_outcome order flex pose self data f) as Hp.
  destruct (classify_pose self flex pose f) as [f'|e]; rewrite Hp; simpl; [|done].
  split; [done|]. unfold I in *. etrans; [exact HI|].
  repeat split; simpl; set_solver.
Qed.

(** The pose step leaves [self._data] alone. *)
Lemma run_pose_keeps_data (order : set_order) (self0 : FingerprintInteractions) :
  let I := λ (s : FingerprintInteractions) (_ : list pose_record),
             _data s = _data self0 in
  ∀ flex pose self data f, I self data →
    outcome_ok I (λ s, I s []) (run_pose order flex pose (self, data, f)).
Proof.
  intros I flex pose self data f HI.
  pose proof (run_pose_outcome order flex pose self data f) as Hp.
  destruct (classify_pose self flex pose f) as [f'|e]; rewrite Hp; simpl; done.
Qed.

(** [run] never assigns [self._criteria]: in every state an object
    reaches, the criteria are those of [__init__]. *)
Lemma reachable_criteria (self : FingerprintInteractions) :
  reachable self → ∃ receptor, _criteria self = _criteria (__init__ receptor).
Proof.
  induction 1 as [receptor|order self molecules _ [receptor IH]]; [by eexists|].
  exists receptor. rewrite <- IH.
  pose (I := λ (s : FingerprintInteractions) (_ : list pose_record),
               _criteria s = _criteria self).
  assert (Hpose : ∀ flex pose self0 data f, I self0 data →
            outcome_ok I (λ s, I s []) (run_pose order flex pose (self0, data, f))).
  { intros flex pose self0 data f HI.
    pose proof (run_pose_outcome order flex pose self0 data f) as Hp.
    destruct (classify_pose self0 flex pose f); rewrite Hp; simpl; done. }
  pose proof (run_outcome I _ order self molecules Hpose) as Hrun.
  destruct (run order self molecules) as [s [[]|e]]; simpl in *.
  - by destruct Hrun as (self' & data & -> & HI).
  - by apply Hrun.
Qed.

(** C3. A call of [run], whether it returns or raises, leaves each type-set
    of the vocabulary ('hb', 'vdw', 'water', and 'reactive' too) a superset
    of what it was before the call: labels are added, none is removed. *)
Theorem vocabulary_monotone (order : set_order) (self : FingerprintInteractions)
    (molecules : molecules_arg) :
  vocabulary_le (_unique_interactions self)
    (_unique_interactions (run order self molecules).1).
Proof.
  pose proof (run_outcome _ _ order self molecules
                (run_pose_vocabulary_le order self)) as Hrun.
  destruct (run order self molecules) as [s [[]|e]]; simpl in *.
  - by destruct Hrun as (self' & data & -> & HI).
  - by apply Hrun.
Qed.

(** *** Well-formed accumulator states *)

Lemma for_each_preserves {X S : Type} (P : S → Prop) (body : X → S → result S) :
  (∀ x s s', P s → body x s = Ok s' → P s') →
  ∀ xs s s', P s → for_each body xs s = Ok s' → P s'.
Proof.
  intros Hbody xs. induction xs as [|x xs IH]; intros s s' HP; simpl.
  - by intros [= <-].
  - destruct (body x s) as [s1|e] eqn:Hb; simpl; [|done].
    apply IH. by eapply Hbody.
Qed.

(** On a pair, [interaction] appends at most one label, with the tag of
    its list. *)
Lemma interaction_frame (self : FingerprintInteractions) (lig_atom : Atom)
    (lp : string) (rec_atom : Atom) (rp : string) (f f' : frame) :
  interaction self lig_atom lp rec_atom rp f = Ok f' →
  f' = f ∨ f' = append_vdw f (residue_label "v" rec_atom)
  ∨ f' = append_hb f (hb_label rec_atom)
  ∨ f' = append_water f (residue_label "w" rec_atom).
Proof.
  unfold interaction, rbind.
  repeat case_match; intros [= <-]; auto.
Qed.

Lemma interaction_tagged (self : FingerprintInteractions) (lig_atom : Atom)
    (lp : string) (rec_atom : Atom) (rp : string) (f f' : frame) :
  frame_tagged f → interaction self lig_atom lp rec_atom rp f = Ok f' →
  frame_tagged f'.
Proof.
  intros (Hh & Hv & Hw) [-> | [-> | [-> | ->]]]%interaction_frame;
    repeat split; simpl; try done; apply Forall_app; (split; [done|]);
    apply Forall_singleton; eexists; reflexivity.
Qed.

Lemma classify_pair_tagged (self : FingerprintInteractions) (lig_atom : Atom)
    (lp : string) (rec : BondGraph) (rec_atom : Atom) (f f' : frame) :
  frame_tagged f → classify_pair self lig_atom lp rec rec_atom f = Ok f' →
  frame_tagged f'.
Proof.
  intros Hf. unfold classify_pair, rbind.
  destruct (dict_get atom_property_definitions (atom_type rec_atom)) as [rp|];
    [|done].
  destruct (is_hb_property rp).
  - destruct (hb_vector rec rec_atom) as [v|]; [|done].
    by apply interaction_tagged.
  - by apply interaction_tagged.
Qed.

Lemma classify_lig_atom_tagged (self : FingerprintInteractions) (flex : bool)
    (pose : Pose) (lig_atom : Atom) (f f' : frame) :
  frame_tagged f → classify_lig_atom self flex pose lig_atom f = Ok f' →
  frame_tagged f'.
Proof.
  intros Hf. unfold classify_lig_atom.
  destruct (if flex then _ else _) as [graphs lists].
  unfold rbind.
  destruct (dict_get atom_property_definitions (atom_type lig_atom)) as [lp|];
    [|done].
  assert (Hloop : ∀ f0, frame_tagged f0 →
            for_each (classify_partition self lig_atom lp) (zip graphs lists) f0
            = Ok f' → frame_tagged f').
  { intros f0 Hf0. apply for_each_preserves; [|done].
    intros [rec rec_atoms] s s' Hs. unfold classify_partition.
    destruct (0 <? length rec_atoms)%nat; [|by intros [= <-]].
    apply for_each_preserves; [|done]. intros; by eapply classify_pair_tagged. }
  destruct (is_hb_property lp).
  - destruct (hb_vector (pose_bonds pose) lig_atom) as [v|]; [|done].
    by apply Hloop.
  - by apply Hloop.
Qed.

Lemma classify_pose_tagged (self : FingerprintInteractions) (flex : bool)
    (pose : Pose) (f f' : frame) :
  classify_pose self flex pose f = Ok f' → frame_tagged f'.
Proof.
  unfold classify_pose. apply for_each_preserves.
  - intros; by eapply classify_lig_atom_tagged.
  - by repeat split.
Qed.

(** The pose step keeps the accumulator consistent, the records of the
    local list [data] included. *)
Lemma run_pose_consistent (order : set_order) :
  let I := λ (s : FingerprintInteractions) (data : list pose_record),
             consistent s
             ∧ ∀ r, r ∈ data → record_in_vocabulary (_unique_interactions s) r in
  ∀ flex pose self data f, I self data →
    outcome_ok I consistent (run_pose order flex pose (self, data, f)).
Proof.
  intros I flex pose self data f [[Hrecs Htag] Hdata].
  pose proof (run_pose_outcome order flex pose self data f) as Hp.
  destruct (classify_pose self flex pose f) as [f'|e] eqn:Hc; rewrite Hp; simpl;
    [|done].
  apply classify_pose_tagged in Hc as (Hh & Hv & Hw).
  set (self' := update_unique_interactions _ _ _ _).
  assert (Hle : vocabulary_le (_unique_interactions self)
                  (_unique_interactions self')).
  { repeat split; simpl; set_solver. }
  destruct Htag as (Th & Tv & Tw & Tr).
  split; [done|]. split; [split; [|split; [|split; [|split]]]|].
  - intros r Hr. eapply record_in_vocabulary_mono; [exact Hle|]. by apply Hrecs.
  - intros l [Hl|Hl%elem_of_list_to_set]%elem_of_union; [by apply Th|].
    by eapply Forall_forall in Hh.
  - intros l [Hl|Hl%elem_of_list_to_set]%elem_of_union; [by apply Tv|].
    by eapply Forall_forall in Hv.
  - intros l [Hl|Hl%elem_of_list_to_set]%elem_of_union; [by apply Tw|].
    by eapply Forall_forall in Hw.
  - exact Tr.
  - intros r [Hr|Hr%list_elem_of_singleton]%elem_of_app.
    + eapply record_in_vocabulary_mono; [exact Hle|]. by apply Hdata.
    + subst r. unfold record_in_vocabulary. simpl.
      rewrite !order_to_set. set_solver.
Qed.

Lemma run_consistent (order : set_order) (self : FingerprintInteractions)
    (molecules : molecules_arg) :
  consistent self → consistent (run order self molecules).1.
Proof.
  intros Hs.
  pose proof (run_outcome _ _ order self molecules (run_pose_consistent order))
    as Hrun.
  destruct (run order self molecules) as [s [[]|e]]; simpl in *.
  - destruct Hrun as (self' & data & -> & [[Hrecs Htag] Hdata]).
    { split; [done|]. intros r Hr. by apply elem_of_nil in Hr. }
    split; [|done]. simpl.
    intros r [Hr|Hr]%elem_of_app; [by apply Hrecs|by apply Hdata].
  - apply Hrun. split; [done|]. intros r Hr. by apply elem_of_nil in Hr.
Qed.

Lemma reachable_consistent (self : FingerprintInteractions) :
  reachable self → consistent self.
Proof.
  induction 1 as [receptor|order self molecules _ IH].
  - split; [intros r Hr; by apply elem_of_nil in Hr|].
    repeat split; simpl; set_solver.
  - by apply run_consistent.
Qed.

(** C4. In every state an object reaches, each pose record of
    [self._data] has its hb, vdw and water labels within the type-set of
    the vocabulary; so it is at each call of the encoder. *)
Theorem pose_records_in_vocabulary (self : FingerprintInteractions)
    (r : pose_record) :
  reachable self → r ∈ _data self →
  record_in_vocabulary (_unique_interactions self) r.
Proof.
  intros Hreach Hr. by apply (reachable_consistent self Hreach).
Qed.

(** C10. When a call of [run] ends with an exception, [self._data] is what
    it was before the call: the records of the call are in the local list
    and are lost with it. The vocabulary is not rolled back: there is a
    call that raises (KeyError, on an atom type outside the table) after
    it has added a label of an earlier pose to the vocabulary. *)
Theorem failed_run_keeps_data :
  (∀ order self molecules self' e,
     run order self molecules = (self', Raise e) → _data self' = _data self)
  ∧ (∃ order self molecules self' e label,
       run order self molecules = (self', Raise e)
       ∧ label ∈ vdw (_unique_interactions self')
       ∧ label ∉ vdw (_unique_interactions self)).
Proof.
  split.
  - intros order self molecules self' e Hr.
    pose proof (run_outcome _ _ order self molecules
                  (run_pose_keeps_data order self)) as Hrun.
    rewrite Hr in Hrun. by apply Hrun.
  - exists elements_order, Scenario.fresh,
      (OneMolecule Scenario.contact_then_unknown).
    eexists (run elements_order Scenario.fresh
               (OneMolecule Scenario.contact_then_unknown)).1,
      (KeyError "Xx"), "v_A:12".
    split; [|split].
    + rewrite (surjective_pairing (run _ _ _)) at 1.
      apply (f_equal (pair _)). by vm_compute.
    + apply (bool_decide_unpack _). by vm_compute.
    + simpl. set_solver.
Qed.

End RunProperties.

(** ** The encoder *)

Section Encoder.
Implicit Types (order : set_order) (self : FingerprintInteractions).

(** The second loop, as one expression. *)
Lemma encode_poses_eq (enc : encoder_state) (data : list pose_record)
    (fpi : list (list Z)) (names : list string) (poses : list Z) :
  for_each (encode_pose enc) data (fpi, names, poses)
  = rows ← comprehension (encode_row enc) data ;;;
    Ok (fpi ++ rows, names ++ map rec_name data,
        poses ++ map (λ r, (rec_pose_id r + 1)%Z) data).
Proof.
  revert fpi names poses.
  induction data as [|r data IH]; intros fpi names poses; simpl.
  - by rewrite !app_nil_r.
  - destruct (encode_row enc r) as [row|e]; simpl; [|done].
    rewrite IH.
    destruct (comprehension (encode_row enc) data) as [rows|e]; simpl; [|done].
    by rewrite <- !app_assoc.
Qed.

Lemma comprehension_length {A B : Type} (f : A → result B) (xs : list A)
    (ys : list B) :
  comprehension f xs = Ok ys → length ys = length xs.
Proof.
  revert ys. induction xs as [|x xs IH]; intros ys; simpl.
  - by intros [= <-].
  - destruct (f x); simpl; [|done].
    destruct (comprehension f xs) as [ys'|]; simpl; [|done].
    intros [= <-]. simpl. f_equal. by apply IH.
Qed.

(** What [to_dataframe] returns, when it returns. *)
Lemma to_dataframe_Ok order self (s' : FingerprintInteractions) (df : DataFrame) :
  to_dataframe order self = (s', Ok df) →
  s' = self
  ∧ ∃ columns rows,
      initial_table order self
      = Ok (columns, map rec_name (_data self),
            map (λ r, (rec_pose_id r + 1)%Z) (_data self))
      ∧ comprehension (encode_row (build_encoder order self)) (_data self) = Ok rows
      ∧ columns = imap (λ j label, (label, column_of rows j))
                    (zip (columns_0 (build_encoder order self))
                         (columns_1 (build_encoder order self)))
      ∧ df = {| df_index := zip (map rec_name (_data self))
                              (map (λ r, (rec_pose_id r + 1)%Z) (_data self));
                df_columns := filter (λ c, nonzero_column c = true) columns |}.
Proof.
  unfold to_dataframe. intros [= <- Hdf]. split; [done|].
  unfold initial_table in *.
  destruct (MultiIndex_from_tuples _) as [multi|e] eqn:Hm; simpl in *; [|done].
  rewrite encode_poses_eq in *.
  destruct (comprehension _ (_data self)) as [rows|e]; simpl in *; [|done].
  injection Hdf as <-.
  assert (multi = zip (columns_0 (build_encoder order self))
                      (columns_1 (build_encoder order self))) as ->.
  { unfold MultiIndex_from_tuples in Hm. destruct (zip _ _); by inversion Hm. }
  eexists _, rows. split; [reflexivity|]. by split; [|split].
Qed.

(** C9. Whenever the encoder returns a table, its row index is, pose by
    pose in the order of [self._data], the pair of the pose's name and its
    stored [pose_id] plus one. *)
Theorem row_index_is_name_and_pose (order : set_order)
    (self s' : FingerprintInteractions) (df : DataFrame) :
  to_dataframe order self = (s', Ok df) →
  df_index df = map (λ r, (rec_name r, (rec_pose_id r + 1)%Z)) (_data self).
Proof.
  intros (_ & columns & rows & _ & _ & _ & ->)%to_dataframe_Ok. simpl.
  induction (_data self) as [|r data IH]; simpl; [done|]. by rewrite IH.
Qed.

Lemma column_of_length (rows : list (list Z)) (j : nat) :
  length (column_of rows j) = length rows.
Proof. unfold column_of. by rewrite length_map. Qed.

(** X17. Whenever the encoder returns a table, on any state of the
    object, every column of it has a nonzero sum: its columns are the
    columns of the table built from the matrix, in their order, with those
    of zero sum left out. No row is dropped: the index and every column
    have one entry per recorded pose. (When the encoder returns is X12.) *)
Theorem zero_columns_dropped (order : set_order)
    (self s' : FingerprintInteractions) (df : DataFrame) :
  to_dataframe order self = (s', Ok df) →
  Forall (λ c, column_sum c.2 ≠ 0%Z) (df_columns df)
  ∧ (∃ columns names poses,
       initial_table order self = Ok (columns, names, poses)
       ∧ df_columns df = filter (λ c, nonzero_column c = true) columns
       ∧ ∀ c, c ∈ columns → c ∉ df_columns df → column_sum c.2 = 0%Z)
  ∧ length (df_index df) = length (_data self)
  ∧ Forall (λ c, length c.2 = length (_data self)) (df_columns df).
Proof.
  intros (_ & columns & rows & Hinit & Hrows & Hcols & ->)%to_dataframe_Ok. simpl.
  split; [|split; [|split]].
  - apply Forall_forall. intros c [Hnz _]%list_elem_of_filter.
    unfold nonzero_column in Hnz. apply negb_true_iff, Z.eqb_neq in Hnz. done.
  - eexists _, _, _. split; [exact Hinit|]. split; [done|].
    intros c Hc Hout. destruct (nonzero_column c) eqn:Hnz.
    + exfalso. apply Hout. by apply list_elem_of_filter.
    + unfold nonzero_column in Hnz. by apply negb_false_iff, Z.eqb_eq in Hnz.
  - by rewrite length_zip, !length_map, Nat.min_id.
  - apply Forall_forall. intros c [_ Hc]%list_elem_of_filter. subst columns.
    apply list_elem_of_lookup in Hc as [j Hj].
    rewrite list_lookup_imap in Hj.
    destruct (zip _ _ !! j) as [label|]; simpl in Hj; [|done].
    injection Hj as <-. simpl. rewrite column_of_length.
    by apply comprehension_length in Hrows.
Qed.

(** C7, as the code has it. On a freshly constructed object the vocabulary
    is empty, [c_tuples] is the empty list, and the call of
    [pd.MultiIndex.from_tuples] raises TypeError: the encoder fails
    instead of returning an empty table. *)
Theorem fresh_encoder_raises (order : set_order) (receptor : PDBQTReceptor) :
  to_dataframe order (__init__ receptor)
  = (__init__ receptor,
     Raise (TypeError "Cannot infer number of levels from empty list")).
Proof.
  unfold to_dataframe, initial_table, build_encoder. simpl.
  assert (order ∅ = []) as ->.
  { apply Permutation_nil_r. rewrite (iterate_perm order ∅). by rewrite elements_empty. }
  reflexivity.
Qed.

(** *** The encoder on a consistent accumulator *)

Lemma assign_index_pair (m : gmap string nat) (n : nat) (l : string) :
  assign_index (m, n) l = (<[l := n]> m, S n).
Proof. reflexivity. Qed.

Lemma assign_index_count (ls : list string) (m : gmap string nat) (n : nat) :
  (foldl assign_index (m, n) ls).2 = (n + length ls)%nat.
Proof.
  revert m n. induction ls as [|l ls IH]; intros m n; simpl.
  - lia.
  - rewrite assign_index_pair, IH. lia.
Qed.

Lemma assign_index_other (ls : list string) (m : gmap string nat) (n : nat)
    (l : string) :
  l ∉ ls → (foldl assign_index (m, n) ls).1 !! l = m !! l.
Proof.
  revert m n. induction ls as [|x ls IH]; intros m n Hl; simpl; [done|].
  apply not_elem_of_cons in Hl as [Hx Hl].
  rewrite assign_index_pair, IH by done. by rewrite lookup_insert_ne.
Qed.

(** Without repetition, a label gets the index of its position. *)
Lemma assign_index_lookup (ls : list string) (m : gmap string nat) (n j : nat)
    (l : string) :
  NoDup ls → ls !! j = Some l →
  (foldl assign_index (m, n) ls).1 !! l = Some (n + j)%nat.
Proof.
  revert m n j. induction ls as [|x ls IH]; intros m n j Hnd Hj; [done|].
  apply NoDup_cons in Hnd as [Hx Hnd]. destruct j as [|j]; simpl in *.
  - injection Hj as ->. rewrite assign_index_pair, assign_index_other by done.
    rewrite lookup_insert_eq. f_equal. lia.
  - rewrite assign_index_pair, (IH _ _ j) by done. f_equal. lia.
Qed.

Lemma encode_type_step order (L : list (string * string)) (t : string)
    (X : gset string) :
  encode_type order (encoder_of L) (t, X)
  = encoder_of (L ++ map (pair t) (order X)).
Proof.
  unfold encode_type, encoder_of. simpl.
  assert (Hc : length L = (foldl assign_index (∅, 0%nat) L.*2).2).
  { rewrite assign_index_count, length_fmap. lia. }
  rewrite Hc at 1. rewrite <- surjective_pairing, <- foldl_app.
  rewrite (surjective_pairing (foldl _ _ (L.*2 ++ order X))).
  rewrite !fmap_app, <- !list_fmap_compose.
  assert (Hsnd : (snd ∘ pair t <$> order X) = order X).
  { clear. induction (order X) as [|x xs IH]; [done|]. cbn. f_equal. exact IH. }
  assert (Hfst : (fst ∘ pair t <$> order X) = replicate (length (order X)) t).
  { clear. induction (order X) as [|x xs IH]; [done|]. cbn. f_equal. exact IH. }
  rewrite Hsnd, Hfst. f_equal.
  rewrite assign_index_count, !length_app, !length_fmap. simpl. lia.
Qed.

Lemma build_encoder_eq order self :
  build_encoder order self = encoder_of (labelled order (_unique_interactions self)).
Proof.
  unfold build_encoder, items, labelled. cbn [foldl].
  change {| count := 0; resid_to_idx_encoder := ∅; columns_0 := []; columns_1 := [] |}
    with (encoder_of []).
  rewrite !encode_type_step. cbn [app]. by rewrite <- !app_assoc.
Qed.

Lemma zip_with_zeros (b : string → bool) (ls : list string) :
  zip_with (λ l c, if b l then 1%Z else c) ls (replicate (length ls) 0%Z)
  = map (λ l, if b l then 1%Z else 0%Z) ls.
Proof. induction ls as [|l ls IH]; simpl; [done|]. by rewrite IH. Qed.

Lemma zip_with_keep (ls : list string) (row : list Z) :
  length row = length ls → zip_with (λ _ c, c) ls row = row.
Proof.
  revert row. induction ls as [|l ls IH]; intros [|c row]; simpl; try done.
  intros [= Hlen]. by rewrite IH.
Qed.

(** Setting the cells of the labels of a pose, one after the other, sets
    exactly the cells at the positions of these labels. *)
Lemma set_cells_labels (ls : list string) (labels : list string) (row : list Z) :
  NoDup ls → length row = length ls → (∀ l, l ∈ labels → l ∈ ls) →
  (idx ← comprehension (dict_get (foldl assign_index (∅, 0%nat) ls).1) labels ;;;
   set_cells row idx)
  = Ok (zip_with (λ l c, if bool_decide (l ∈ labels) then 1%Z else c) ls row).
Proof.
  intros Hnd. revert row.
  induction labels as [|l labels IH]; intros row Hlen Hin; simpl.
  - by rewrite zip_with_keep.
  - assert (Hl : l ∈ ls) by (apply Hin; left).
    apply list_elem_of_lookup in Hl as [j Hj].
    unfold dict_get at 1.
    rewrite (assign_index_lookup ls ∅ 0 j l Hnd Hj). simpl.
    assert (Hlt : (j <? length row)%nat = true).
    { apply Nat.ltb_lt. rewrite Hlen. by eapply lookup_lt_Some. }
    specialize (IH (<[j := 1%Z]> row)).
    rewrite length_insert in IH.
    specialize (IH Hlen (λ x Hx, Hin x (list_elem_of_further _ _ _ Hx))).
    destruct (comprehension _ labels) as [idx|e]; simpl in *; [|done].
    unfold set_cells in *. simpl. unfold set_cell at 1. rewrite Hlt. simpl.
    rewrite IH. f_equal. apply list_eq. intros i.
    rewrite !lookup_zip_with.
    destruct (ls !! i) as [l'|] eqn:Hi; simpl; [|done].
    destruct (decide (i = j)) as [->|Hne].
    + rewrite list_lookup_insert_eq by (by apply Nat.ltb_lt).
      assert (l' = l) as -> by congruence.
      destruct (row !! j) eqn:Hr; simpl.
      * rewrite (bool_decide_eq_true_2 (l ∈ l :: labels)) by left.
        by destruct (bool_decide (l ∈ labels)).
      * apply lookup_ge_None in Hr. apply Nat.ltb_lt in Hlt. lia.
    + rewrite list_lookup_insert_ne by done.
      destruct (row !! i); simpl; [|done].
      assert (Hll : l' ≠ l).
      { intros ->. apply Hne. by eapply NoDup_lookup. }
      rewrite (bool_decide_ext (l' ∈ l :: labels) (l' ∈ labels)); [done|].
      rewrite elem_of_cons. split; [intros [?|?]; [congruence|done]|by right].
Qed.

Lemma encode_row_indicator (L : list (string * string)) (r : pose_record) :
  NoDup L.*2 → (∀ l, l ∈ record_labels r → l ∈ L.*2) →
  encode_row (encoder_of L) r = Ok (map (λ l, indicator l r) L.*2).
Proof.
  intros Hnd Hin. unfold encode_row, encoder_of. simpl.
  rewrite <- (length_fmap snd L).
  fold (record_labels r).
  rewrite set_cells_labels; [|done|by rewrite length_replicate|done].
  by rewrite zip_with_zeros.
Qed.

Lemma encode_rows_indicator (L : list (string * string)) (data : list pose_record) :
  NoDup L.*2 → (∀ r l, r ∈ data → l ∈ record_labels r → l ∈ L.*2) →
  comprehension (encode_row (encoder_of L)) data
  = Ok (map (λ r, map (λ l, indicator l r) L.*2) data).
Proof.
  intros Hnd. induction data as [|r data IH]; intros Hin; simpl; [done|].
  rewrite encode_row_indicator; [|done|intros l; apply Hin; left]. simpl.
  rewrite IH; [done|]. intros r' l Hr'. apply Hin. by right.
Qed.

(** The columns built from the matrix are the columns of the labels. *)
Lemma built_columns (L : list (string * string)) (data : list pose_record) :
  imap (λ j label,
          (label, column_of (map (λ r, map (λ l, indicator l r) L.*2) data) j))
    (zip (columns_0 (encoder_of L)) (columns_1 (encoder_of L)))
  = map (column_for data) L.
Proof.
  apply list_eq. intros j. simpl.
  rewrite list_lookup_imap, lookup_zip_with, !list_lookup_fmap.
  destruct (L !! j) as [[t l]|] eqn:Hj; simpl; [|done].
  unfold column_for. simpl. do 2 f_equal.
  unfold column_of. rewrite <- list_fmap_compose.
  apply list_fmap_ext. intros _ r _. simpl.
  apply list_lookup_total_correct.
  by rewrite !list_lookup_fmap, Hj.
Qed.

(** On a consistent accumulator with a label in its vocabulary the
    encoder returns, and its table is made of the columns of the labels
    that some pose has. *)
Lemma initial_table_consistent order self :
  NoDup (labelled order (_unique_interactions self)).*2 →
  (∀ r l, r ∈ _data self → l ∈ record_labels r →
          l ∈ (labelled order (_unique_interactions self)).*2) →
  labelled order (_unique_interactions self) ≠ [] →
  initial_table order self
  = Ok (map (column_for (_data self)) (labelled order (_unique_interactions self)),
        map rec_name (_data self),
        map (λ r, (rec_pose_id r + 1)%Z) (_data self)).
Proof.
  intros Hnd Hin Hne. unfold initial_table.
  rewrite build_encoder_eq.
  set (L := labelled order (_unique_interactions self)) in *.
  assert (Hm : MultiIndex_from_tuples
                 (zip (columns_0 (encoder_of L)) (columns_1 (encoder_of L)))
               = Ok (zip (columns_0 (encoder_of L)) (columns_1 (encoder_of L)))).
  { destruct L as [|[t l] L]; [done|]. reflexivity. }
  rewrite Hm. simpl rbind.
  rewrite encode_poses_eq, encode_rows_indicator by done. simpl rbind.
  by rewrite built_columns.
Qed.

(** *** Labels and column names of a consistent accumulator *)

Lemma iterate_elem_of order (X : gset string) (l : string) : l ∈ order X ↔ l ∈ X.
Proof. by rewrite (iterate_perm order X), elem_of_elements. Qed.

Lemma iterate_NoDup order (X : gset string) : NoDup (order X).
Proof. rewrite (iterate_perm order X). apply NoDup_elements. Qed.

Lemma labelled_snd order (v : vocabulary) :
  (labelled order v).*2
  = order (hb v) ++ order (vdw v) ++ order (water v) ++ order (reactive v).
Proof.
  unfold labelled. rewrite !fmap_app, <- !list_fmap_compose.
  assert (Hsnd : ∀ (t : string) (ls : list string), (snd ∘ pair t <$> ls) = ls).
  { intros t ls. induction ls as [|x xs IH]; [done|]. cbn. f_equal. exact IH. }
  by rewrite !Hsnd.
Qed.

Lemma labelled_perm (o1 o2 : set_order) (v : vocabulary) :
  labelled o1 v ≡ₚ labelled o2 v.
Proof.
  unfold labelled.
  assert (Ho : ∀ X, o1 X ≡ₚ o2 X).
  { intros X. by rewrite (iterate_perm o1 X), (iterate_perm o2 X). }
  by rewrite (Ho (hb v)), (Ho (vdw v)), (Ho (water v)), (Ho (reactive v)).
Qed.

(** The type of a column and the tag of its labels. *)
Lemma labelled_elem order (v : vocabulary) (t l : string) :
  labels_tagged v → (t, l) ∈ labelled order v →
  (t = "hb" ∧ l ∈ hb v ∧ tagged "h" l)
  ∨ (t = "vdw" ∧ l ∈ vdw v ∧ tagged "v" l)
  ∨ (t = "water" ∧ l ∈ water v ∧ tagged "w" l).
Proof.
  intros (Th & Tv & Tw & Tr). unfold labelled.
  rewrite !elem_of_app, !list_elem_of_fmap.
  intros [(x & [= -> ->] & Hx)|[(x & [= -> ->] & Hx)|[(x & [= -> ->] & Hx)
         |(x & [= -> ->] & Hx)]]];
    apply iterate_elem_of in Hx; [by auto 8..|].
  rewrite Tr in Hx. by apply elem_of_empty in Hx.
Qed.

Lemma tagged_distinct (a b : ascii) (l : string) :
  tagged a l → tagged b l → a = b.
Proof. intros [r ->] [r' Hr]. by injection Hr. Qed.

Lemma labelled_NoDup order (v : vocabulary) :
  labels_tagged v → NoDup (labelled order v).*2.
Proof.
  intros (Th & Tv & Tw & Tr). rewrite labelled_snd, Tr.
  assert (order ∅ = []) as ->.
  { apply Permutation_nil_r. by rewrite (iterate_perm order ∅), elements_empty. }
  rewrite app_nil_r.
  repeat (apply NoDup_app; split; [apply iterate_NoDup|split]);
    try apply iterate_NoDup.
  - intros l Hh%iterate_elem_of [Hv%iterate_elem_of|Hw%iterate_elem_of]%elem_of_app.
    + by pose proof (tagged_distinct _ _ _ (Th l Hh) (Tv l Hv)).
    + by pose proof (tagged_distinct _ _ _ (Th l Hh) (Tw l Hw)).
  - intros l Hv%iterate_elem_of Hw%iterate_elem_of.
    by pose proof (tagged_distinct _ _ _ (Tv l Hv) (Tw l Hw)).
Qed.

Lemma labelled_covers order self (r : pose_record) (l : string) :
  consistent self → r ∈ _data self → l ∈ record_labels r →
  l ∈ (labelled order (_unique_interactions self)).*2.
Proof.
  intros [Hrecs _] Hr Hl. destruct (Hrecs r Hr) as (Hh & Hv & Hw).
  rewrite labelled_snd, !elem_of_app, !iterate_elem_of.
  unfold record_labels in Hl. rewrite !elem_of_app in Hl.
  destruct Hl as [Hl|[Hl|Hl]]; [left|right; left|right; right; left];
    [apply Hh|apply Hv|apply Hw]; by apply elem_of_list_to_set.
Qed.

(** No two columns of the table have the same two-level name. *)
Lemma column_names_NoDup order (v : vocabulary) (data : list pose_record) :
  labels_tagged v → NoDup (map (column_for data) (labelled order v)).*1.
Proof.
  intros Htag. rewrite <- list_fmap_compose.
  apply NoDup_fmap_2_strong; [|by eapply NoDup_fmap_1, labelled_NoDup].
  intros [t l] [t' l'] Hx Hy. unfold column_for. simpl. intros [= <- Hdrop].
  f_equal.
  pose proof (labelled_elem order v t l Htag Hx) as Hl.
  pose proof (labelled_elem order v t l' Htag Hy) as Hl'.
  assert (∃ a, tagged a l ∧ tagged a l') as (a & [x ->] & [x' ->]).
  { destruct Hl as [(-> & _ & ?)|[(-> & _ & ?)|(-> & _ & ?)]];
      destruct Hl' as [(? & _ & ?)|[(? & _ & ?)|(? & _ & ?)]];
      try discriminate; eauto. }
  simpl in Hdrop. by rewrite Hdrop.
Qed.

End Encoder.

(** ** The encoder on the states an object reaches *)

Section EncoderOnReachable.
Context `{Libm}.

Lemma to_dataframe_empty (order : set_order) (self : FingerprintInteractions) :
  labelled order (_unique_interactions self) = [] →
  to_dataframe order self
  = (self, Raise (TypeError "Cannot infer number of levels from empty list")).
Proof.
  intros HL. unfold to_dataframe, initial_table.
  by rewrite build_encoder_eq, HL.
Qed.

(** With a label in the vocabulary, the encoder returns on every
    consistent accumulator. *)
Lemma to_dataframe_returns (order : set_order) (self : FingerprintInteractions) :
  consistent self → labelled order (_unique_interactions self) ≠ [] →
  to_dataframe order self
  = (self,
     Ok {| df_index := zip (map rec_name (_data self))
                         (map (λ r, (rec_pose_id r + 1)%Z) (_data self));
           df_columns :=
             filter (λ c, nonzero_column c = true)
               (map (column_for (_data self))
                  (labelled order (_unique_interactions self))) |}).
Proof.
  intros Hs HL. unfold to_dataframe.
  rewrite initial_table_consistent; [done| |by intros; eapply labelled_covers|done].
  apply labelled_NoDup, Hs.
Qed.

Lemma iterate_empty (order : set_order) : order (∅ : gset string) = [].
Proof.
  apply Permutation_nil_r. by rewrite (iterate_perm order ∅), elements_empty.
Qed.

(** C5, as the code has it. After a call of [run] on a molecule whose one
    pose has no contact, the object holds one record, with no label, and
    an empty vocabulary. The encoder then fails as on a fresh object (C7):
    [c_tuples] is empty and [pd.MultiIndex.from_tuples] raises TypeError at
    line 232, where the claim has a table with the row of the pose and no
    column. *)
Theorem no_contact_record_raises (order order' : set_order) :
  let after := run order Scenario.fresh (OneMolecule Scenario.far_molecule) in
  after.2 = Ok ()
  ∧ _data after.1
    = [{| rec_name := "lig"; rec_pose_id := 1; rec_hb := []; rec_vdw := [];
          rec_water := [] |}]
  ∧ to_dataframe order' after.1
    = (after.1, Raise (TypeError "Cannot infer number of levels from empty list")).
Proof.
  assert (Hrun : run order Scenario.fresh (OneMolecule Scenario.far_molecule)
                 = ({| _data := [{| rec_name := "lig"; rec_pose_id := 1;
                                    rec_hb := order ∅; rec_vdw := order ∅;
                                    rec_water := order ∅ |}];
                       _max_distance := _max_distance Scenario.fresh;
                       _unique_interactions :=
                         {| hb := ∅; vdw := ∅; water := ∅; reactive := ∅ |};
                       _criteria := _criteria Scenario.fresh;
                       _receptor := Scenario.receptor |}, Ok ()))
    by (by vm_compute).
  intros after. subst after. rewrite Hrun, !iterate_empty. cbn [fst snd _data].
  split; [done|]. split; [done|].
  apply to_dataframe_empty. unfold labelled. cbn [_unique_interactions hb vdw water reactive].
  by rewrite !iterate_empty.
Qed.

(** C6. On a state an object reaches, the encoder leaves the object as it
    is, and a second call, whatever the order in which it iterates the
    sets, has the outcome of the first: the same row index and the same
    columns up to their order, so the same cell at every pose and label
    (or twice the same exception, when the vocabulary is empty). *)
Theorem encoding_idempotent (o1 o2 : set_order) (self : FingerprintInteractions) :
  reachable self →
  ∃ r1 r2,
    to_dataframe o1 self = (self, r1)
    ∧ to_dataframe o2 (to_dataframe o1 self).1 = (self, r2)
    ∧ same_table r1 r2.
Proof.
  intros Hs%reachable_consistent.
  pose proof (labelled_perm o1 o2 (_unique_interactions self)) as Hperm.
  destruct (decide (labelled o1 (_unique_interactions self) = [])) as [H1|H1].
  - assert (H2 : labelled o2 (_unique_interactions self) = []).
    { apply Permutation_nil. by rewrite <- H1. }
    rewrite (to_dataframe_empty o1 self H1). simpl.
    rewrite (to_dataframe_empty o2 self H2). by eexists _, _.
  - assert (H2 : labelled o2 (_unique_interactions self) ≠ []).
    { intros H2. apply H1, Permutation_nil. by rewrite <- H2, Hperm. }
    rewrite (to_dataframe_returns o1 self Hs H1). simpl.
    rewrite (to_dataframe_returns o2 self Hs H2).
    eexists _, _. split; [done|]. split; [done|]. simpl.
    assert (Hcols : filter (λ c, nonzero_column c = true)
                      (map (column_for (_data self))
                         (labelled o1 (_unique_interactions self)))
                    ≡ₚ filter (λ c, nonzero_column c = true)
                         (map (column_for (_data self))
                            (labelled o2 (_unique_interactions self)))).
    { by rewrite Hperm. }
    split; [done|]. split; [done|].
    intros row label. unfold cell. simpl.
    assert (Hnd : NoDup (filter (λ c, nonzero_column c = true)
                           (map (column_for (_data self))
                              (labelled o1 (_unique_interactions self)))).*1).
    { eapply sublist_NoDup; [apply (column_names_NoDup o1), Hs|].
      apply fmap_sublist, sublist_filter. }
    by rewrite (list_to_map_proper _ _ Hnd Hcols).
Qed.

(** X1. The table of the encoder, cell by cell. On a state an object reaches
    with a label in its vocabulary the encoder returns; the table has one
    column per label of the vocabulary that some recorded pose has, named
    by the type of its set and the label without its two-character tag,
    and its cell for a pose is 1 when the pose has the label, 0 otherwise. *)
Theorem encoder_table_on_reachable (order : set_order)
    (self : FingerprintInteractions) (l : string) :
  reachable self →
  l ∈ hb (_unique_interactions self) ∪ vdw (_unique_interactions self)
      ∪ water (_unique_interactions self) →
  ∃ df,
    to_dataframe order self = (self, Ok df)
    ∧ df_columns df
      = filter (λ c, nonzero_column c = true)
          (map (λ tl, ((tl.1, str_drop 2 tl.2),
                       map (λ r, if bool_decide (tl.2 ∈ rec_hb r ++ rec_vdw r ++ rec_water r)
                                 then 1%Z else 0%Z) (_data self)))
             (labelled order (_unique_interactions self))).
Proof.
  intros Hs%reachable_consistent Hl.
  assert (HL : labelled order (_unique_interactions self) ≠ []).
  { intros HL. apply (f_equal (fmap snd)) in HL. rewrite labelled_snd in HL.
    assert (Hin : l ∈ order (hb (_unique_interactions self))
                      ++ order (vdw (_unique_interactions self))
                      ++ order (water (_unique_interactions self))
                      ++ order (reactive (_unique_interactions self))).
    { rewrite !elem_of_app, !iterate_elem_of. rewrite !elem_of_union in Hl. tauto. }
    rewrite HL in Hin. by apply elem_of_nil in Hin. }
  eexists. split; [by apply to_dataframe_returns|]. reflexivity.
Qed.

End EncoderOnReachable.

(** ** The angle and the exceptions of the validator *)

Section AngleSymmetry.
Local Open Scope float_scope.

Lemma mul_comm (x y : float) : x * y = y * x.
Proof.
  apply Prim2SF_inj. rewrite !mul_spec. unfold SF64mul, SFmul.
  destruct (Prim2SF x) as [sx|sx| |sx mx ex], (Prim2SF y) as [sy|sy| |sy my ey];
    try reflexivity; try (by rewrite xorb_comm).
  by rewrite xorb_comm, Pos.mul_comm, Z.add_comm.
Qed.

Lemma dot_comm (u w : vec3) : dot u w = dot w u.
Proof.
  unfold dot.
  by rewrite (mul_comm (vx u)), (mul_comm (vy u)), (mul_comm (vz u)).
Qed.

Context `{Libm}.

(** X2. [_compute_angle] does not depend on the order of its arguments:
    [_compute_angle(v1, v2)] and [_compute_angle(v2, v1)] are the same
    float, NaN included, whatever [np.arccos] computes. The two unit
    vectors are the same, and the products of the dot product commute. *)
Theorem compute_angle_symmetric (v1 v2 : vec3) :
  _compute_angle v1 v2 = _compute_angle v2 v1.
Proof. unfold _compute_angle. by rewrite dot_comm. Qed.

End AngleSymmetry.

Section ValidatorExceptions.
Context `{Libm}.
Local Open Scope float_scope.

(** X3. The validator raises in two cases only. It raises IndexError when
    [hb_criteria] has fewer than three entries. It raises TypeError when
    [atom_acc_2] and [atom_don_1] are both [None] and the distance is
    within the cutoff [hb_criteria[0]]: the branch of line 59 is taken and
    line 63 subtracts from [None]. In every other case it returns a
    boolean. *)
Theorem validator_exceptions (atom_acc_1 atom_don_2 : vec3)
    (atom_acc_2 atom_don_1 : option vec3) (hb_criteria : list float) (e : exn) :
  _is_valid_hydrogen_bond atom_acc_1 atom_acc_2 atom_don_1 atom_don_2 hb_criteria
  = Raise e →
  (e = IndexError ∧ (length hb_criteria < 3)%nat)
  ∨ (e = TypeError "unsupported operand type(s) for -: 'NoneType' and 'float'"
     ∧ atom_acc_2 = None ∧ atom_don_1 = None
     ∧ ∃ max_distance, hb_criteria !! 0%nat = Some max_distance
         ∧ (norm (vsub atom_acc_1 atom_don_2) <=? max_distance) = true).
Proof.
  unfold _is_valid_hydrogen_bond, _is_valid_hydrogen_bond_traced, compare_angles,
    call_compute_angle, _compute_angle, tbind, tlift, tret, traise, getitem.
  destruct hb_criteria as [|c0 [|c1 [|c2 rest]]]; simpl.
  - intros [= <-]. left. split; [done|lia].
  - destruct (_ <=? c0) eqn:Hd; [|done].
    destruct atom_don_1, atom_acc_2; simpl; intros [= <-];
      (left; split; [done|lia]) || (right; eauto 6).
  - destruct (_ <=? c0) eqn:Hd; [|done].
    destruct atom_don_1, atom_acc_2; simpl; intros [= <-];
      (left; split; [done|lia]) || (right; eauto 6).
  - destruct (_ <=? c0) eqn:Hd; [|done].
    destruct atom_don_1, atom_acc_2; simpl; try done.
    intros [= <-]. right. eauto 6.
Qed.

End ValidatorExceptions.

(** ** The labels of a pose *)

Section PoseLabels.
Context `{Libm}.

(** What a decision that returns has done to the frame: nothing, or one
    label appended to the list of the matching pair of properties. *)
Lemma interaction_cases (self : FingerprintInteractions) (lig_atom : Atom)
    (lp : string) (rec_atom : Atom) (rp : string) (f f' : frame) :
  interaction self lig_atom lp rec_atom rp f = Ok f' →
  f' = f
  ∨ (lp = "vdw" ∧ rp = "vdw" ∧ f' = append_vdw f (residue_label "v" rec_atom))
  ∨ (lp = "hb_don" ∧ rp = "hb_acc" ∧ f' = append_hb f (hb_label rec_atom))
  ∨ (lp = "hb_acc" ∧ rp = "hb_don" ∧ f' = append_hb f (hb_label rec_atom))
  ∨ (lp = "water" ∧ (rp = "hb_don" ∨ rp = "hb_acc")
     ∧ f' = append_water f (residue_label "w" rec_atom)).
Proof.
  unfold interaction, rbind.
  repeat case_match; intros [= <-]; auto;
    repeat match goal with
      | H : (_ && _) = true |- _ => apply andb_true_iff in H as [? ?]
      | H : String.eqb _ _ = true |- _ => apply String.eqb_eq in H
      end; subst; try discriminate; auto 10.
Qed.

(** The decision on a pair, as a relation: the lists after it hold what
    they held and the label the pair emits, with the hb-vectors of the
    frame at the call. *)
Lemma interaction_emits (self : FingerprintInteractions) (lig_atom : Atom)
    (lp : string) (rec_atom : Atom) (rp : string) (f f' : frame) :
  interaction self lig_atom lp rec_atom rp f = Ok f' →
  lig_hb_vector f' = lig_hb_vector f
  ∧ ∀ k l, l ∈ labels_of_kind k f'
           ↔ l ∈ labels_of_kind k f
             ∨ pair_emits self lig_atom lp (lig_hb_vector f) rec_atom rp
                 (rec_hb_vector f) k l.
Proof.
  unfold interaction, dict_get, read_local, rbind.
  destruct (String.eqb_spec lp "vdw"), (String.eqb_spec rp "vdw"),
    (String.eqb_spec lp "hb_don"), (String.eqb_spec rp "hb_acc"),
    (String.eqb_spec lp "hb_acc"), (String.eqb_spec rp "hb_don"),
    (String.eqb_spec lp "water"); subst; try discriminate; simpl;
    repeat case_match; try discriminate; intros [= <-]; simplify_eq;
    (split; [done|]); intros k lbl; destruct k; simpl;
    rewrite ?elem_of_app, ?list_elem_of_singleton;
    first
      [ by (split; [auto|]; intros [?|He]; [done|];
            decompose [and ex or] He; simplify_eq; congruence)
      | by (split;
            [ intros [?| ->]; [by left|]; right;
              repeat first [done|split|eexists|by left|by right]
            | intros [?|He]; [by left|];
              decompose [and ex or] He; simplify_eq; auto; congruence ]) ].
Qed.

(** An hb-vector matters to a pair only when the atom it belongs to has an
    hb property. *)
Lemma pair_emits_ext (self : FingerprintInteractions) (lig_atom : Atom)
    (lp : string) (lig_hb lig_hb' : option vec3) (rec_atom : Atom) (rp : string)
    (rec_hb rec_hb' : option vec3) (k : kind) (l : string) :
  (is_hb_property lp = true → lig_hb = lig_hb') →
  (is_hb_property rp = true → rec_hb = rec_hb') →
  pair_emits self lig_atom lp lig_hb rec_atom rp rec_hb k l
  ↔ pair_emits self lig_atom lp lig_hb' rec_atom rp rec_hb' k l.
Proof.
  intros Hl Hr. destruct k; simpl; [|done|].
  - split; intros (-> & va & vb & c & Ha & Hb & Hc & Hcase);
      (split; [done|]); exists va, vb, c;
      destruct Hcase as [(-> & -> & Hv)|(-> & -> & Hv)];
      specialize (Hl eq_refl); specialize (Hr eq_refl); subst; auto 10.
  - split; intros (-> & -> & vb & c & Hb & Hc & Hcase);
      (split; [done|]); (split; [done|]); exists vb, c;
      destruct Hcase as [(-> & Hv)|(-> & Hv)];
      specialize (Hr eq_refl); subst; auto 10.
Qed.

(** A loop whose body adds to the lists what [E] says of its element adds
    what [E] says of some element; [P] is an invariant of the frame. *)
Lemma for_each_emits {X : Type} (P : frame → Prop)
    (E : X → kind → string → Prop) (body : X → frame → result frame)
    (xs : list X) :
  (∀ x f f', x ∈ xs → P f → body x f = Ok f' →
     P f' ∧ ∀ k l, l ∈ labels_of_kind k f' ↔ l ∈ labels_of_kind k f ∨ E x k l) →
  ∀ f f', P f → for_each body xs f = Ok f' →
    P f' ∧ ∀ k l, l ∈ labels_of_kind k f'
                  ↔ l ∈ labels_of_kind k f ∨ ∃ x, x ∈ xs ∧ E x k l.
Proof.
  induction xs as [|x xs IH]; intros Hbody f f' HP; simpl.
  - intros [= <-]. split; [done|]. intros k l. split; [auto|].
    intros [?|(x & Hx & _)]; [done|]. by apply elem_of_nil in Hx.
  - destruct (body x f) as [f1|e] eqn:Hx; [|done]. simpl. intros Hrest.
    destruct (Hbody x f f1 (list_elem_of_here _ _) HP Hx) as [HP1 H1].
    destruct (IH (λ y g g' Hy, Hbody y g g' (list_elem_of_further _ _ _ Hy))
                f1 f' HP1 Hrest) as [HP' H'].
    split; [done|]. intros k l. rewrite H', H1. split.
    + intros [[?|?]|(y & Hy & ?)]; [by left| |].
      * right. exists x. split; [apply list_elem_of_here|done].
      * right. exists y. split; [by apply list_elem_of_further|done].
    + intros [?|(y & [->|Hy]%elem_of_cons & ?)].
      * by left; left.
      * by left; right.
      * right. by exists y.
Qed.

Lemma classify_pair_emits (self : FingerprintInteractions) (pose : Pose)
    (lig_atom : Atom) (lp : string) (g : BondGraph) (rec_atom : Atom)
    (f f' : frame) :
  atom_property_definitions !! atom_type lig_atom = Some lp →
  (is_hb_property lp = true →
   lig_hb_vector f = ok_value (hb_vector (pose_bonds pose) lig_atom)) →
  classify_pair self lig_atom lp g rec_atom f = Ok f' →
  lig_hb_vector f' = lig_hb_vector f
  ∧ ∀ k l, l ∈ labels_of_kind k f'
           ↔ l ∈ labels_of_kind k f ∨ emitted self pose lig_atom g rec_atom k l.
Proof.
  intros Hlp Hlig. unfold classify_pair, dict_get.
  destruct (atom_property_definitions !! atom_type rec_atom) as [rp|] eqn:Hrp;
    [|done]. simpl.
  destruct (if is_hb_property rp
            then v ← hb_vector g rec_atom ;;; Ok (set_rec_hb_vector f v)
            else Ok f) as [f1|e] eqn:Hset; [|done]. simpl.
  assert (lig_hb_vector f1 = lig_hb_vector f
          ∧ (∀ k, labels_of_kind k f1 = labels_of_kind k f)
          ∧ (is_hb_property rp = true →
             rec_hb_vector f1 = ok_value (hb_vector g rec_atom)))
    as (Hl1 & Hk1 & Hr1).
  { destruct (is_hb_property rp).
    - destruct (hb_vector g rec_atom) as [v|e]; [|done].
      simpl in Hset. injection Hset as <-.
      split; [done|]. split; [by intros []|done].
    - injection Hset as <-. split; [done|]. split; [done|]. discriminate. }
  intros [Hl' Hemits]%interaction_emits. split; [congruence|].
  intros k l. rewrite Hemits, Hk1. apply or_iff_compat_l.
  unfold emitted. split.
  - intros He. exists lp, rp. split; [done|]. split; [done|].
    revert He. apply pair_emits_ext; intros Hhb;
      [by rewrite Hl1, Hlig|by rewrite Hr1].
  - intros (lp' & rp' & Hlp' & Hrp' & He). simplify_eq.
    revert He. apply pair_emits_ext; intros Hhb;
      [by rewrite Hl1, Hlig|by rewrite Hr1].
Qed.

Lemma classify_partition_emits (self : FingerprintInteractions) (pose : Pose)
    (lig_atom : Atom) (lp : string) (part : BondGraph * list Atom)
    (f f' : frame) :
  atom_property_definitions !! atom_type lig_atom = Some lp →
  (is_hb_property lp = true →
   lig_hb_vector f = ok_value (hb_vector (pose_bonds pose) lig_atom)) →
  classify_partition self lig_atom lp part f = Ok f' →
  lig_hb_vector f' = lig_hb_vector f
  ∧ ∀ k l, l ∈ labels_of_kind k f'
           ↔ l ∈ labels_of_kind k f
             ∨ ∃ rec_atom, rec_atom ∈ part.2
                           ∧ emitted self pose lig_atom part.1 rec_atom k l.
Proof.
  intros Hlp Hlig. destruct part as [g rec_atoms]. unfold classify_partition.
  assert (for_each (classify_pair self lig_atom lp g) rec_atoms f = Ok f' →
          lig_hb_vector f' = lig_hb_vector f
          ∧ ∀ k l, l ∈ labels_of_kind k f'
                   ↔ l ∈ labels_of_kind k f
                     ∨ ∃ rec_atom, rec_atom ∈ rec_atoms
                                   ∧ emitted self pose lig_atom g rec_atom k l)
    as Hloop.
  { apply (for_each_emits (λ f1, lig_hb_vector f1 = lig_hb_vector f)
             (λ rec_atom, emitted self pose lig_atom g rec_atom)); [|done].
    intros rec_atom f1 f2 _ Hf1 Hpair.
    destruct (classify_pair_emits self pose lig_atom lp g rec_atom f1 f2)
      as [Hl2 He]; [done| |done|].
    - intros Hhb. rewrite Hf1. auto.
    - split; [congruence|done]. }
  destruct rec_atoms as [|rec_atom rec_atoms]; [|exact Hloop]. exact Hloop.
Qed.

Lemma classify_lig_atom_emits (self : FingerprintInteractions) (flex : bool)
    (pose : Pose) (lig_atom : Atom) (f f' : frame) :
  classify_lig_atom self flex pose lig_atom f = Ok f' →
  ∀ k l, l ∈ labels_of_kind k f'
         ↔ l ∈ labels_of_kind k f
           ∨ ∃ part rec_atom,
               part ∈ partitions self flex pose lig_atom ∧ rec_atom ∈ part.2
               ∧ emitted self pose lig_atom part.1 rec_atom k l.
Proof.
  unfold classify_lig_atom, dict_get.
  assert (∀ zs, zs = partitions self flex pose lig_atom →
    (lig_atom_property ← match atom_property_definitions !! atom_type lig_atom with
                         | Some v => Ok v
                         | None => Raise (KeyError (atom_type lig_atom))
                         end ;;;
     f0 ← (if is_hb_property lig_atom_property
           then v ← hb_vector (pose_bonds pose) lig_atom ;;;
                Ok (set_lig_hb_vector f v)
           else Ok f) ;;;
     for_each (classify_partition self lig_atom lig_atom_property) zs f0) = Ok f' →
    ∀ k l, l ∈ labels_of_kind k f'
           ↔ l ∈ labels_of_kind k f
             ∨ ∃ part rec_atom, part ∈ zs ∧ rec_atom ∈ part.2
                 ∧ emitted self pose lig_atom part.1 rec_atom k l) as Hgen.
  { intros zs _.
    destruct (atom_property_definitions !! atom_type lig_atom) as [lp|] eqn:Hlp;
      [|done]. simpl.
    destruct (if is_hb_property lp
              then v ← hb_vector (pose_bonds pose) lig_atom ;;;
                   Ok (set_lig_hb_vector f v)
              else Ok f) as [f1|e] eqn:Hset; [|done]. simpl.
    assert ((∀ k, labels_of_kind k f1 = labels_of_kind k f)
            ∧ (is_hb_property lp = true →
               lig_hb_vector f1 = ok_value (hb_vector (pose_bonds pose) lig_atom)))
      as (Hk1 & Hl1).
    { destruct (is_hb_property lp).
      - destruct (hb_vector (pose_bonds pose) lig_atom) as [v|e]; [|done].
        simpl in Hset. injection Hset as <-. split; [by intros []|done].
      - injection Hset as <-. split; [done|discriminate]. }
    intros Hloop k l. rewrite <- Hk1.
    destruct (for_each_emits (λ f2, lig_hb_vector f2 = lig_hb_vector f1)
                (λ part k l, ∃ rec_atom, rec_atom ∈ part.2
                   ∧ emitted self pose lig_atom part.1 rec_atom k l)
                (classify_partition self lig_atom lp) zs) with f1 f'
      as [_ He]; [|done|done|].
    - intros part f2 f3 _ Hf2 Hpart.
      destruct (classify_partition_emits self pose lig_atom lp part f2 f3)
        as [Hl3 He]; [done| |done|].
      + intros Hhb. rewrite Hf2. auto.
      + split; [congruence|done].
    - rewrite He. apply or_iff_compat_l. split.
      + intros (part & ? & b & ? & ?). by exists part, b.
      + intros (part & b & ? & ? & ?). exists part. split; [done|]. by exists b. }
  destruct flex; apply Hgen; reflexivity.
Qed.

(** The lists of a pose at the end of the loops of lines 122-192. *)
Lemma classify_pose_emits (self : FingerprintInteractions) (flex : bool)
    (pose : Pose) (f f' : frame) :
  classify_pose self flex pose f = Ok f' →
  ∀ k l, l ∈ labels_of_kind k f'
         ↔ ∃ lig_atom part rec_atom,
             lig_atom ∈ ligand_side_atoms pose
             ∧ part ∈ partitions self flex pose lig_atom
             ∧ rec_atom ∈ part.2
             ∧ emitted self pose lig_atom part.1 rec_atom k l.
Proof.
  unfold classify_pose. intros Hloop k l.
  assert ((if has_water_molecules pose
           then atoms_by_properties pose ["ligand"]
                ++ atoms_by_properties pose ["water"]
           else atoms_by_properties pose ["ligand"]) = ligand_side_atoms pose)
    as Hatoms.
  { unfold ligand_side_atoms. destruct (has_water_molecules pose); [done|].
    by rewrite app_nil_r. }
  rewrite Hatoms in Hloop.
  destruct (for_each_emits (λ _, True)
              (λ lig_atom k l, ∃ part rec_atom,
                 part ∈ partitions self flex pose lig_atom ∧ rec_atom ∈ part.2
                 ∧ emitted self pose lig_atom part.1 rec_atom k l)
              (classify_lig_atom self flex pose) (ligand_side_atoms pose))
    with (reset_tmp f) f' as [_ He]; [|done|done|].
  - intros a f1 f2 _ _ Ha. split; [done|].
    by apply classify_lig_atom_emits.
  - rewrite He. split.
    + intros [Hnil|(a & ? & part & b & ? & ? & ?)].
      * destruct k; by apply elem_of_nil in Hnil.
      * by exists a, part, b.
    + intros (a & part & b & ? & ? & ? & ?). right. exists a.
      split; [done|]. by exists part, b.
Qed.

End PoseLabels.

(** ** The classification reads the frame only where it has written it *)

Section FrameIndependence.
Context `{Libm}.

(** Two loops over the same list, whose bodies keep [R], keep [R]. *)
Lemma for_each_rel {X S : Type} (R : S → S → Prop) (body body' : X → S → result S) :
  (∀ x s s', R s s' → result_rel R (body x s) (body' x s')) →
  ∀ xs s s', R s s' → result_rel R (for_each body xs s) (for_each body' xs s').
Proof.
  intros Hbody xs. induction xs as [|x xs IH]; intros s s' HR; simpl; [done|].
  specialize (Hbody x s s' HR).
  destruct (body x s) as [s1|e], (body' x s') as [s1'|e']; simpl in *; try done.
  by apply IH.
Qed.

Lemma is_hb_property_don (p : string) :
  String.eqb p "hb_don" = true → is_hb_property p = true.
Proof. unfold is_hb_property. intros ->. apply orb_true_r. Qed.

Lemma is_hb_property_acc (p : string) :
  String.eqb p "hb_acc" = true → is_hb_property p = true.
Proof. unfold is_hb_property. by intros ->. Qed.

(** The decision reads of the frame the lists and the two hb-vectors, and
    an hb-vector only for an atom of an hb property. *)
Lemma interaction_rel (self self' : FingerprintInteractions) (lig_atom : Atom)
    (lp : string) (rec_atom : Atom) (rp : string) (f f' : frame) :
  _criteria self = _criteria self' → agree_pair lp rp f f' →
  result_rel (agree_lig lp)
    (interaction self lig_atom lp rec_atom rp f)
    (interaction self' lig_atom lp rec_atom rp f').
Proof.
  intros Hc [[HT Hl] Hr]. unfold interaction. rewrite Hc.
  assert (Happ : ∀ g l, g = append_hb ∨ g = append_vdw ∨ g = append_water →
                        agree_lig lp (g f l) (g f' l)).
  { intros g l Hg. unfold same_labels, frame_labels in HT.
    injection HT as Hh Hv Hw.
    destruct Hg as [->|[->| ->]]; (split; [|done]);
      unfold same_labels, frame_labels; simpl; congruence. }
  assert (Hsame : agree_lig lp f f') by done.
  destruct (String.eqb lp "vdw" && String.eqb rp "vdw"); [apply Happ; auto|].
  destruct (String.eqb lp "hb_don" && String.eqb rp "hb_acc") eqn:E1.
  { apply andb_true_iff in E1 as [E1 E2].
    rewrite (Hl (is_hb_property_don _ E1)), (Hr (is_hb_property_acc _ E2)).
    unfold rbind. repeat case_match; simpl; auto. }
  destruct (String.eqb lp "hb_acc" && String.eqb rp "hb_don") eqn:E2.
  { apply andb_true_iff in E2 as [E2 E3].
    rewrite (Hl (is_hb_property_acc _ E2)), (Hr (is_hb_property_don _ E3)).
    unfold rbind. repeat case_match; simpl; auto. }
  destruct (String.eqb lp "water"); [|done].
  destruct (String.eqb rp "hb_don") eqn:E3.
  { rewrite (Hr (is_hb_property_don _ E3)).
    unfold rbind. repeat case_match; simpl; auto. }
  destruct (String.eqb rp "hb_acc") eqn:E4.
  { rewrite (Hr (is_hb_property_acc _ E4)).
    unfold rbind. repeat case_match; simpl; auto. }
  simpl. done.
Qed.

Lemma result_rel_mono {A : Type} (R R' : A → A → Prop) (r r' : result A) :
  (∀ a b, R a b → R' a b) → result_rel R r r' → result_rel R' r r'.
Proof. intros HR. destruct r, r'; simpl; auto. Qed.

Lemma classify_pair_rel (self self' : FingerprintInteractions) (lig_atom : Atom)
    (lp : string) (rec : BondGraph) (rec_atom : Atom) (f f' : frame) :
  same_env self self' → agree_lig lp f f' →
  result_rel (agree_lig lp)
    (classify_pair self lig_atom lp rec rec_atom f)
    (classify_pair self' lig_atom lp rec rec_atom f').
Proof.
  intros (_ & Hc & _) Hf. unfold classify_pair.
  destruct (dict_get atom_property_definitions (atom_type rec_atom)) as [rp|e];
    simpl; [|done].
  destruct (is_hb_property rp) eqn:Hrp.
  - destruct (hb_vector rec rec_atom) as [v|e]; simpl; [|done].
    apply interaction_rel; [done|]. destruct Hf as [HT Hl].
    split; [split|]; done.
  - apply interaction_rel; [done|]. split; [done|]. by rewrite Hrp.
Qed.

Lemma classify_lig_atom_rel (self self' : FingerprintInteractions) (flex : bool)
    (pose : Pose) (lig_atom : Atom) (f f' : frame) :
  same_env self self' → same_labels f f' →
  result_rel same_labels
    (classify_lig_atom self flex pose lig_atom f)
    (classify_lig_atom self' flex pose lig_atom f').
Proof.
  intros Henv Hf. pose proof Henv as (Hm & Hc & Hr).
  unfold classify_lig_atom. rewrite Hm, Hr.
  destruct (if flex then _ else _) as [graphs lists].
  destruct (dict_get atom_property_definitions (atom_type lig_atom)) as [lp|e];
    simpl; [|done].
  assert (Hloop : ∀ f0 f0', agree_lig lp f0 f0' →
            result_rel same_labels
              (for_each (classify_partition self lig_atom lp) (zip graphs lists) f0)
              (for_each (classify_partition self' lig_atom lp) (zip graphs lists) f0')).
  { intros f0 f0' Hf0.
    apply (result_rel_mono (agree_lig lp)); [by intros a b [? _]|].
    apply for_each_rel; [|done].
    intros [rec rec_atoms] s s' Hs. unfold classify_partition.
    destruct (0 <? length rec_atoms)%nat; [|done].
    apply for_each_rel; [|done]. intros. by apply classify_pair_rel. }
  destruct (is_hb_property lp) eqn:Hlp.
  - destruct (hb_vector (pose_bonds pose) lig_atom) as [v|e]; simpl; [|done].
    apply Hloop. split; done.
  - apply Hloop. split; [done|]. by rewrite Hlp.
Qed.

(** The classification of a pose does not depend on the frame it starts
    with, nor on the records and the vocabulary of the object: the lists
    are reset, and every hb-vector is assigned before it is read. *)
Lemma classify_pose_rel (self self' : FingerprintInteractions) (flex : bool)
    (pose : Pose) (f f' : frame) :
  same_env self self' →
  result_rel same_labels
    (classify_pose self flex pose f) (classify_pose self' flex pose f').
Proof.
  intros Henv. unfold classify_pose.
  apply for_each_rel; [|done].
  intros. by apply classify_lig_atom_rel.
Qed.

End FrameIndependence.

(** ** A call of [run] that returns *)

Section RunReturns.
Context `{Libm}.

Lemma absorb_nil (self : FingerprintInteractions) : absorb self [] = self.
Proof.
  destruct self as [d m [h v w r] c rc]. unfold absorb, records_hb, records_vdw,
    records_water. simpl. by rewrite !(right_id_L ∅ (∪)).
Qed.

Lemma absorb_app (self : FingerprintInteractions) (r1 r2 : list pose_record) :
  absorb (absorb self r1) r2 = absorb self (r1 ++ r2).
Proof.
  unfold absorb, records_hb, records_vdw, records_water. simpl.
  by rewrite !fmap_app, !union_list_app_L, !(assoc_L (∪)).
Qed.

Lemma run_pose_exact (order : set_order) (flex : bool) (pose : Pose)
    (self s self' : FingerprintInteractions) (data data' : list pose_record)
    (f f' : frame) :
  run_pose order flex pose (self, data, f) = (s, Ok (self', data', f')) →
  s = self'
  ∧ ∃ recs, self' = absorb self recs ∧ data' = data ++ recs
            ∧ ∃ r, recs = [r] ∧ record_of_pose self flex pose r.
Proof.
  pose proof (run_pose_outcome order flex pose self data f) as Hp.
  destruct (classify_pose self flex pose f) as [f0|e] eqn:Hc; cbv zeta in Hp;
    rewrite Hp; [|done].
  intros [= <- <- <- <-]. split; [done|]. eexists [_]. split; [|split; [done|]].
  - unfold absorb, update_unique_interactions, records_hb, records_vdw,
      records_water. simpl.
    by rewrite !order_to_set, !(right_id_L ∅ (∪)).
  - eexists. split; [done|]. split; [done|]. intros k l.
    rewrite <- (classify_pose_emits self flex pose f f0 Hc k l).
    destruct k; simpl; by rewrite iterate_elem_of, elem_of_list_to_set.
Qed.

(** A loop of [run] that returns has added, for each element in turn, the
    records that [R] relates to it. *)
Lemma run_loop_exact {X : Type}
    (body : X → run_state → FingerprintInteractions * result run_state)
    (R : FingerprintInteractions → X → list pose_record → Prop) :
  (∀ self recs x rs, R (absorb self recs) x rs → R self x rs) →
  (∀ x self data f s self' data' f',
     body x (self, data, f) = (s, Ok (self', data', f')) →
     s = self'
     ∧ ∃ recs, self' = absorb self recs ∧ data' = data ++ recs ∧ R self x recs) →
  ∀ xs self data f s self' data' f',
    run_loop body xs (self, data, f) = (s, Ok (self', data', f')) →
    s = self'
    ∧ ∃ recss, self' = absorb self (concat recss)
               ∧ data' = data ++ concat recss
               ∧ Forall2 (R self) xs recss.
Proof.
  intros HR Hbody xs. induction xs as [|x xs IH];
    intros self data f s self' data' f'; simpl.
  - intros [= <- <- <- <-]. split; [done|]. exists []. simpl.
    by rewrite absorb_nil, app_nil_r.
  - destruct (body x (self, data, f)) as [s1 [[[self1 data1] f1]|e]] eqn:Hb;
      [|done].
    apply Hbody in Hb as (_ & recs1 & -> & -> & H1).
    intros (-> & recss & -> & -> & H2)%IH. split; [done|].
    exists (recs1 :: recss). simpl.
    rewrite absorb_app, <- app_assoc. split; [done|]. split; [done|].
    constructor; [done|].
    eapply Forall2_impl; [exact H2|]. intros y rs. apply HR.
Qed.

(** The object after a call that returns, and the record of each pose. *)
Lemma run_exact (order : set_order) (self self' : FingerprintInteractions)
    (molecules : molecules_arg) :
  run order self molecules = (self', Ok ()) →
  ∃ recs, self' = extend_data (absorb self recs) recs
          ∧ Forall2 (λ fp r, record_of_pose self fp.1 fp.2 r)
              (poses_with_flag molecules) recs.
Proof.
  unfold run. fold (molecules_of molecules).
  destruct (run_loop _ _ _) as [s [[[self1 data1] f1]|e]] eqn:Hloop; [|done].
  intros [= <-].
  apply (run_loop_exact _
           (λ self m recs,
              Forall2 (record_of_pose self (has_flexible_residues m))
                (poses m) recs)) in Hloop
    as (_ & recss & -> & -> & HF).
  - exists (concat recss). split; [done|]. unfold poses_with_flag.
    induction HF as [|m recs ms recss Hm _ IH]; simpl; [constructor|].
    apply Forall2_app; [|exact IH]. by apply Forall2_fmap_l.
  - intros s0 recs m rs Hrs. exact Hrs.
  - intros m self0 data0 f0 s0 self0' data0' f0' Hm. unfold run_molecule in Hm.
    apply (run_loop_exact _
             (λ self p recs,
                ∃ r, recs = [r]
                     ∧ record_of_pose self (has_flexible_residues m) p r))
      in Hm as (-> & recss & -> & -> & HF).
    + split; [done|]. exists (concat recss). split; [done|]. split; [done|].
      induction HF as [|p recs ps recss (r & -> & Hr) _ IH]; simpl;
        by constructor.
    + intros s1 recs p rs Hrs. exact Hrs.
    + intros. by eapply run_pose_exact.
Qed.

Lemma poses_with_flag_snd (molecules : molecules_arg) :
  map snd (poses_with_flag molecules) = poses_of molecules.
Proof.
  unfold poses_with_flag, poses_of.
  induction (molecules_of molecules) as [|m ms IH]; simpl; [done|].
  rewrite map_app, IH. f_equal.
  induction (poses m) as [|p ps IHp]; simpl; [done|]. by rewrite IHp.
Qed.

Lemma run_Ok (order : set_order) (self self' : FingerprintInteractions)
    (molecules : molecules_arg) :
  run order self molecules = (self', Ok ()) →
  ∃ recs, self' = extend_data (absorb self recs) recs
          ∧ map record_key recs = map pose_key (poses_of molecules).
Proof.
  intros (recs & -> & HF)%run_exact. exists recs. split; [done|].
  rewrite <- poses_with_flag_snd.
  induction HF as [|fp r fps recs [Hk _] _ IH]; simpl; [done|].
  by rewrite Hk, IH.
Qed.

(** X4. What a returning call of [run] computes. The call appends to
    [self._data] one record per pose, in the order of the two loops. The
    record of a pose has a label in its hb, vdw or water list exactly
    when some ligand-side atom of the pose and some candidate atom that
    the spatial query returns for it (of the rigid receptor, or of the
    flexible residues when the molecule has some) add it: a vdw label for
    two atoms of property vdw, an hb label for a donor and an acceptor the
    validator accepts with the centroids of their bound atoms, a water
    label for a water and a donor or acceptor the validator accepts. The
    hb-vectors are locals that survive from one atom to the next; the
    property shows that no label depends on a value left by an earlier
    atom. *)
Theorem run_records_exact (order : set_order)
    (self self' : FingerprintInteractions) (molecules : molecules_arg) :
  run order self molecules = (self', Ok ()) →
  ∃ recs, _data self' = _data self ++ recs
          ∧ Forall2 (λ fp r, record_of_pose self fp.1 fp.2 r)
              (poses_with_flag molecules) recs.
Proof.
  intros (recs & -> & HF)%run_exact. by exists recs.
Qed.

(** X5. The bookkeeping of a returning call of [run]: [self._data] is
    extended by records whose names and numbers are those of the poses of
    the call, in order; each vocabulary set becomes its union with the
    labels of these records; the reactive set, the cutoff, the criteria
    and the receptor are unchanged. *)
Theorem run_appends_records (order : set_order)
    (self self' : FingerprintInteractions) (molecules : molecules_arg) :
  run order self molecules = (self', Ok ()) →
  ∃ recs,
    _data self' = _data self ++ recs
    ∧ map record_key recs = map pose_key (poses_of molecules)
    ∧ hb (_unique_interactions self')
      = hb (_unique_interactions self) ∪ records_hb recs
    ∧ vdw (_unique_interactions self')
      = vdw (_unique_interactions self) ∪ records_vdw recs
    ∧ water (_unique_interactions self')
      = water (_unique_interactions self) ∪ records_water recs
    ∧ reactive (_unique_interactions self') = reactive (_unique_interactions self)
    ∧ _max_distance self' = _max_distance self
    ∧ _criteria self' = _criteria self
    ∧ _receptor self' = _receptor self.
Proof.
  intros (recs & -> & Hk)%run_Ok. exists recs. by repeat split.
Qed.

End RunReturns.

(** ** Objects none of whose calls has raised *)

Section Returned.
Context `{Libm}.

Lemma returned_reachable (self : FingerprintInteractions) :
  returned self → reachable self.
Proof.
  induction 1 as [receptor|order self self' molecules _ IH Hrun].
  - constructor.
  - replace self' with (run order self molecules).1 by (by rewrite Hrun).
    by constructor.
Qed.

(** The vocabulary of an object none of whose calls has raised. *)
Lemma returned_union (self : FingerprintInteractions) :
  returned self →
  hb (_unique_interactions self) = records_hb (_data self)
  ∧ vdw (_unique_interactions self) = records_vdw (_data self)
  ∧ water (_unique_interactions self) = records_water (_data self).
Proof.
  induction 1 as [receptor|order self self' molecules _ (Hh & Hv & Hw) Hrun].
  - done.
  - apply run_Ok in Hrun as (recs & -> & _). simpl.
    unfold records_hb, records_vdw, records_water in *.
    by rewrite !fmap_app, !union_list_app_L, Hh, Hv, Hw.
Qed.

(** X6. On an object none of whose calls of [run] has raised, the
    vocabulary is exactly what the records hold: each of the hb, vdw and
    water sets is the union of the corresponding lists of the records of
    [self._data], and the reactive set is empty. (After a call that
    raised the vocabulary can hold more, see C10.) *)
Theorem vocabulary_is_union_of_records (self : FingerprintInteractions) :
  returned self →
  hb (_unique_interactions self) = records_hb (_data self)
  ∧ vdw (_unique_interactions self) = records_vdw (_data self)
  ∧ water (_unique_interactions self) = records_water (_data self)
  ∧ reactive (_unique_interactions self) = ∅.
Proof.
  intros Hr. pose proof (returned_union self Hr) as (Hh & Hv & Hw).
  pose proof (reachable_consistent self (returned_reachable self Hr))
    as [_ (_ & _ & _ & Hre)].
  done.
Qed.

Lemma filter_all {A : Type} (P : A → Prop) `{∀ x, Decision (P x)} (l : list A) :
  Forall P l → filter P l = l.
Proof.
  induction 1 as [|x l Hx _ IH]; [done|].
  by rewrite filter_cons_True, IH.
Qed.

Lemma indicator_nonneg (l : string) (r : pose_record) : (0 ≤ indicator l r)%Z.
Proof. unfold indicator. case_bool_decide; lia. Qed.

Lemma column_sum_indicator (l : string) (data : list pose_record) (r : pose_record) :
  r ∈ data → l ∈ record_labels r →
  (0 < column_sum (map (indicator l) data))%Z.
Proof.
  intros Hr Hl.
  assert (Hnn : ∀ d, (0 ≤ column_sum (map (indicator l) d))%Z).
  { induction d as [|x d IH]; simpl; [done|].
    pose proof (indicator_nonneg l x). unfold column_sum in *. simpl. lia. }
  induction data as [|x data IH]; [by apply elem_of_nil in Hr|].
  apply elem_of_cons in Hr as [<-|Hr]; unfold column_sum in *; simpl.
  - specialize (Hnn data). unfold column_sum in Hnn.
    unfold indicator at 1. rewrite bool_decide_eq_true_2 by done. lia.
  - specialize (IH Hr). pose proof (indicator_nonneg l x). lia.
Qed.

Lemma iterate_length (order : set_order) (X : gset string) :
  length (order X) = size X.
Proof. by rewrite (iterate_perm order X). Qed.

(** X7. On an object none of whose calls of [run] has raised, the filter
    of line 246 drops nothing: when [to_dataframe] returns, the table has
    one column for every label of the vocabulary, in the order of the
    first loop, and the number of columns is the sum of the sizes of the
    hb, vdw and water sets. *)
Theorem no_column_dropped (order : set_order)
    (self s' : FingerprintInteractions) (df : DataFrame) :
  returned self → to_dataframe order self = (s', Ok df) →
  df_columns df
  = map (column_for (_data self)) (labelled order (_unique_interactions self))
  ∧ length (df_columns df)
    = (size (hb (_unique_interactions self))
       + size (vdw (_unique_interactions self))
       + size (water (_unique_interactions self)))%nat.
Proof.
  intros Hret Hdf.
  pose proof (returned_union self Hret) as (Hh & Hv & Hw).
  pose proof (reachable_consistent self (returned_reachable self Hret)) as Hs.
  assert (HL : labelled order (_unique_interactions self) ≠ []).
  { intros HL. by rewrite (to_dataframe_empty order self HL) in Hdf. }
  rewrite (to_dataframe_returns order self Hs HL) in Hdf.
  injection Hdf as _ <-. simpl.
  assert (Hall : filter (λ c, nonzero_column c = true)
                   (map (column_for (_data self))
                      (labelled order (_unique_interactions self)))
                 = map (column_for (_data self))
                     (labelled order (_unique_interactions self))).
  { apply filter_all, Forall_forall. intros c [[t l] [-> Htl]]%list_elem_of_fmap.
    assert (Hex : ∃ r, r ∈ _data self ∧ l ∈ record_labels r).
    { unfold record_labels.
      destruct (labelled_elem order _ t l (proj2 Hs) Htl)
        as [(_ & Hl & _)|[(_ & Hl & _)|(_ & Hl & _)]];
        [rewrite Hh in Hl|rewrite Hv in Hl|rewrite Hw in Hl];
        apply elem_of_union_list in Hl as (X & HX & Hl);
        apply list_elem_of_fmap in HX as (r & -> & Hr);
        apply elem_of_list_to_set in Hl; exists r; rewrite !elem_of_app; auto. }
    destruct Hex as (r & Hr & Hl).
    pose proof (column_sum_indicator l (_data self) r Hr Hl) as Hpos.
    unfold nonzero_column, column_for. simpl.
    apply negb_true_iff, Z.eqb_neq. lia. }
  rewrite Hall. split; [done|].
  rewrite length_map. unfold labelled.
  destruct Hs as [_ (_ & _ & _ & Hre)]. rewrite Hre.
  rewrite !length_app, !length_map, !iterate_length, size_empty. lia.
Qed.

End Returned.

(** ** One call on a list, or one call per part *)

Section Composition.
Context `{Libm}.

(** A loop over [xs ++ ys] is the loop over [xs] followed by the loop over
    [ys]. *)
Lemma run_loop_app {X : Type}
    (body : X → run_state → FingerprintInteractions * result run_state)
    (xs ys : list X) (st : run_state) :
  run_loop body (xs ++ ys) st
  = match run_loop body xs st with
    | (_, Ok st') => run_loop body ys st'
    | (s, Raise e) => (s, Raise e)
    end.
Proof.
  revert st. induction xs as [|x xs IH]; intros st; simpl.
  - by destruct ys.
  - destruct (body x st) as [s [st'|e]]; [apply IH|done].
Qed.

(** Two loops from related states end in related outcomes. *)
Lemma run_loop_sim {X : Type} (Rd : list pose_record → list pose_record → Prop)
    (body body' : X → run_state → FingerprintInteractions * result run_state) :
  (∀ x a b, sim_state Rd a b → sim_outcome Rd (body x a) (body' x b)) →
  ∀ xs a b, sim_state Rd a b →
    sim_outcome Rd (run_loop body xs a) (run_loop body' xs b).
Proof.
  intros Hbody xs. induction xs as [|x xs IH]; intros a b Hab; simpl; [done|].
  specialize (Hbody x a b Hab).
  destruct (body x a) as [s [a'|e]], (body' x b) as [s' [b'|e']]; simpl in *;
    try done.
  destruct Hbody as (_ & _ & Hab'). by apply IH.
Qed.

Lemma run_pose_sim (order order' : set_order)
    (Rd : list pose_record → list pose_record → Prop) (flex : bool) (pose : Pose)
    (a b : run_state) :
  appends_related order order' Rd →
  sim_state Rd a b →
  sim_outcome Rd (run_pose order flex pose a) (run_pose order' flex pose b).
Proof.
  intros HRd. destruct a as [[sa da] fa], b as [[sb db] fb].
  unfold sim_state, sim_object. cbn [fst snd]. intros [[Henv Hu] Hd].
  pose proof (run_pose_outcome order flex pose sa da fa) as Ha.
  pose proof (run_pose_outcome order' flex pose sb db fb) as Hb.
  pose proof (classify_pose_rel sa sb flex pose fa fb Henv) as Hrel.
  destruct (classify_pose sa flex pose fa) as [fa'|ea],
    (classify_pose sb flex pose fb) as [fb'|eb]; simpl in Hrel; try done;
    cbv zeta in Ha, Hb; rewrite Ha, Hb; simpl; [|done].
  unfold same_labels, frame_labels in Hrel. injection Hrel as -> -> ->.
  split; [done|]. split; [done|]. split; [split|]; simpl.
  - by destruct Henv as (? & ? & ?).
  - by rewrite Hu.
  - rewrite !app_assoc. by apply HRd.
Qed.

Lemma run_molecules_sim (order order' : set_order)
    (Rd : list pose_record → list pose_record → Prop) (ms : list PDBQTMolecule)
    (a b : run_state) :
  appends_related order order' Rd →
  sim_state Rd a b →
  sim_outcome Rd (run_loop (run_molecule order) ms a)
    (run_loop (run_molecule order') ms b).
Proof.
  intros HRd. apply run_loop_sim. intros m a' b' Hab. unfold run_molecule.
  apply run_loop_sim; [|done]. intros. by apply run_pose_sim.
Qed.

Lemma appends_related_eq (order : set_order) : appends_related order order eq.
Proof. by intros l l' n i h v w ->. Qed.

Lemma appends_related_order (order order' : set_order) :
  appends_related order order' (Forall2 same_record).
Proof.
  intros l l' n i h v w Hl. apply Forall2_app; [done|].
  constructor; [|constructor]. split; [done|].
  intros []; simpl; by rewrite (iterate_perm order), (iterate_perm order').
Qed.

Lemma sim_extend (sa sb : FingerprintInteractions) (da db : list pose_record)
    (fa fb : frame) :
  sim_state eq (sa, da, fa) (sb, db, fb) → extend_data sa da = extend_data sb db.
Proof.
  intros [[(Hm & Hc & Hr) Hu] Hd]. simpl in *. unfold extend_data.
  by rewrite Hm, Hc, Hr, Hu, Hd.
Qed.

(** A call that raises leaves [self._data] as it was. *)
Lemma run_raise_data (order : set_order) (self s' : FingerprintInteractions)
    (molecules : molecules_arg) (e : exn) :
  run order self molecules = (s', Raise e) → _data s' = _data self.
Proof.
  intros Hr.
  pose proof (run_outcome _ _ order self molecules
                (run_pose_keeps_data order self)) as Hrun.
  rewrite Hr in Hrun. by apply Hrun.
Qed.

Lemma run_unfold (order : set_order) (self : FingerprintInteractions)
    (molecules : molecules_arg) :
  run order self molecules
  = match run_loop (run_molecule order) (molecules_of molecules)
            (self, [], new_frame) with
    | (_, Ok (self', data, _)) => (extend_data self' data, Ok ())
    | (s, Raise e) => (s, Raise e)
    end.
Proof. reflexivity. Qed.

(** X8. One call of [run] on the list [ms1 ++ ms2] against a call on [ms1]
    followed by a call on [ms2]. When both calls return, the single call
    returns and leaves the same object. When the first call raises, the
    single call raises the same exception and leaves the same object.
    When the first returns and the second raises, the single call raises
    the same exception and leaves the same vocabulary, but the records:
    the single call keeps [self._data] as it was, the two calls keep the
    records of [ms1]. *)
Theorem run_batch_or_sequence (order : set_order) (self : FingerprintInteractions)
    (ms1 ms2 : list PDBQTMolecule) :
  let batch := run order self (Molecules (ms1 ++ ms2)) in
  let first := run order self (Molecules ms1) in
  let second := run order first.1 (Molecules ms2) in
  match first.2, second.2 with
  | Ok _, Ok _ => batch = (second.1, Ok ())
  | Ok _, Raise e =>
      batch.2 = Raise e
      ∧ _unique_interactions batch.1 = _unique_interactions second.1
      ∧ _data batch.1 = _data self
      ∧ _data second.1 = _data first.1
  | Raise e, _ => batch = (first.1, Raise e)
  end.
Proof.
  intros batch first second. subst batch first second.
  rewrite (run_unfold order self (Molecules ms1)),
    (run_unfold order self (Molecules (ms1 ++ ms2))).
  cbn [molecules_of]. rewrite run_loop_app.
  destruct (run_loop (run_molecule order) ms1 (self, [], new_frame))
    as [s1 [[[self1 data1] f1]|e1]] eqn:H1; cbn [fst snd]; [|done].
  rewrite (run_unfold order (extend_data self1 data1) (Molecules ms2)).
  cbn [molecules_of].
  assert (Hinit : sim_state eq (self1, data1, f1)
                    (extend_data self1 data1, [], new_frame)).
  { split; [by repeat split|]. simpl. by rewrite app_nil_r. }
  pose proof (run_molecules_sim order order eq ms2 _ _
                (appends_related_eq order) Hinit) as Hsim.
  destruct (run_loop (run_molecule order) ms2 (self1, data1, f1))
    as [sa [[[selfa dataa] fa]|ea]] eqn:Ha,
    (run_loop (run_molecule order) ms2 (extend_data self1 data1, [], new_frame))
    as [sb [[[selfb datab] fb]|eb]] eqn:Hbb; simpl in Hsim; try done;
    cbn [fst snd].
  - destruct Hsim as (_ & _ & Hsim). f_equal. by eapply sim_extend.
  - destruct Hsim as (-> & _ & Hu). split; [done|]. split; [done|]. split.
    + apply (run_raise_data order self sa (Molecules (ms1 ++ ms2)) eb).
      rewrite run_unfold. cbn [molecules_of]. by rewrite run_loop_app, H1, Ha.
    + apply (run_raise_data order (extend_data self1 data1) sb (Molecules ms2) eb).
      rewrite run_unfold. cbn [molecules_of]. by rewrite Hbb.
Qed.

(** X15. The order in which Python enumerates a set does not change what
    [run] computes. Two calls on the same molecules, on two objects that
    differ at most in the order of the labels within their records, each
    with its own enumeration of the sets, return both or raise the same
    exception, and leave two objects with the same vocabulary, cutoff,
    criteria and receptor, and the same records up to the order of the
    labels within each list. *)
Theorem run_order_irrelevant (o1 o2 : set_order)
    (self1 self2 : FingerprintInteractions) (molecules : molecules_arg) :
  same_up_to_order self1 self2 →
  (run o1 self1 molecules).2 = (run o2 self2 molecules).2
  ∧ same_up_to_order (run o1 self1 molecules).1 (run o2 self2 molecules).1.
Proof.
  intros [Hobj Hd].
  pose proof (run_raise_data o1 self1) as Hraise1.
  pose proof (run_raise_data o2 self2) as Hraise2.
  specialize (Hraise1 (run o1 self1 molecules).1 molecules).
  specialize (Hraise2 (run o2 self2 molecules).1 molecules).
  rewrite !run_unfold in *.
  assert (Hinit : sim_state (Forall2 same_record) (self1, [], new_frame)
                    (self2, [], new_frame)).
  { split; [done|]. simpl. by rewrite !app_nil_r. }
  pose proof (run_molecules_sim o1 o2 _ (molecules_of molecules) _ _
                (appends_related_order o1 o2) Hinit) as Hsim.
  destruct (run_loop (run_molecule o1) (molecules_of molecules)
              (self1, [], new_frame))
    as [sa [[[selfa dataa] fa]|ea]],
    (run_loop (run_molecule o2) (molecules_of molecules)
       (self2, [], new_frame))
    as [sb [[[selfb datab] fb]|eb]]; simpl in Hsim; try done; cbn [fst snd] in *.
  - destruct Hsim as (_ & _ & Hobj' & Hd'). split; [done|]. by split.
  - destruct Hsim as (-> & Hobj'). split; [done|]. split; [done|].
    by rewrite (Hraise1 eb eq_refl), (Hraise2 eb eq_refl).
Qed.

End Composition.

(** ** The inputs on which [run] returns, and its exceptions *)

Section RunDecided.
Context `{Libm}.

(** A loop whose body is decided by [G] of its element is decided by [G] of
    all the elements. *)
Lemma for_each_decided {X S : Type} (P : S → Prop) (G : X → Prop)
    (body : X → S → result S) :
  (∀ x s, P s → decided (G x) P (body x s)) →
  ∀ xs s, P s → decided (Forall G xs) P (for_each body xs s).
Proof.
  intros Hbody xs. induction xs as [|x xs IH]; intros s HP; simpl; [done|].
  specialize (Hbody x s HP).
  destruct (body x s) as [s1|e]; simpl in *.
  - destruct Hbody as [HG HP1]. specialize (IH s1 HP1).
    destruct (for_each body xs s1); simpl in *.
    + destruct IH. split; [by constructor|done].
    + destruct IH as [Hn He]. split; [|done]. by intros [_ ?]%Forall_cons.
  - destruct Hbody as [Hn He]. split; [|done]. by intros [? _]%Forall_cons.
Qed.

(** With three criteria and one of the two references, the validator
    returns. *)
Lemma validator_Ok (atom_acc_1 atom_don_2 : vec3) (atom_acc_2 atom_don_1 : option vec3)
    (hb_criteria : list float) :
  (3 ≤ length hb_criteria)%nat → is_Some atom_acc_2 ∨ is_Some atom_don_1 →
  ∃ b, _is_valid_hydrogen_bond atom_acc_1 atom_acc_2 atom_don_1 atom_don_2
         hb_criteria = Ok b.
Proof.
  intros Hlen Href.
  destruct hb_criteria as [|c0 [|c1 [|c2 rest]]]; simpl in Hlen; try lia.
  unfold _is_valid_hydrogen_bond, _is_valid_hydrogen_bond_traced, compare_angles,
    call_compute_angle, _compute_angle, tbind, tlift, tret, traise, getitem.
  simpl. destruct (_ <=? c0)%float; [|by eexists].
  destruct atom_don_1, atom_acc_2; simpl; try by eexists.
  destruct Href as [[? [=]]|[? [=]]].
Qed.

(** With the criteria of [__init__] and the hb-vectors assigned for the
    atoms of an hb property, the decision on a pair returns. *)
Lemma interaction_total (self : FingerprintInteractions) (lig_atom : Atom)
    (lp : string) (rec_atom : Atom) (rp : string) (f : frame) :
  criteria_ok self →
  (is_hb_property lp = true → is_Some (lig_hb_vector f)) →
  (is_hb_property rp = true → is_Some (rec_hb_vector f)) →
  ∃ f', interaction self lig_atom lp rec_atom rp f = Ok f'.
Proof.
  intros Hc Hl Hr. unfold interaction.
  assert (Hcrit : ∀ key, key ∈ ["hb_acc"; "hb_don"; "water"] →
            ∃ c, dict_get (_criteria self) key = Ok c ∧ (3 ≤ length c)%nat).
  { intros key (c & Hk & Hlen)%Hc. exists c. unfold dict_get. by rewrite Hk. }
  destruct (String.eqb lp "vdw" && String.eqb rp "vdw"); [by eexists|].
  destruct (String.eqb lp "hb_don" && String.eqb rp "hb_acc") eqn:E1.
  { apply andb_true_iff in E1 as [E1 E2].
    destruct (Hl (is_hb_property_don _ E1)) as [lv ->].
    destruct (Hr (is_hb_property_acc _ E2)) as [rv ->].
    apply String.eqb_eq in E1 as ->.
    destruct (Hcrit "hb_don") as (c & -> & Hlen); [set_solver|]. simpl.
    destruct (validator_Ok (xyz rec_atom) lv (Some rv) (Some (xyz lig_atom)) c Hlen)
      as [b ->]; [by left|]. simpl. destruct b; by eexists. }
  destruct (String.eqb lp "hb_acc" && String.eqb rp "hb_don") eqn:E2.
  { apply andb_true_iff in E2 as [E2 E3].
    destruct (Hl (is_hb_property_acc _ E2)) as [lv ->].
    destruct (Hr (is_hb_property_don _ E3)) as [rv ->].
    apply String.eqb_eq in E2 as ->.
    destruct (Hcrit "hb_acc") as (c & -> & Hlen); [set_solver|]. simpl.
    destruct (validator_Ok (xyz lig_atom) rv (Some lv) (Some (xyz rec_atom)) c Hlen)
      as [b ->]; [by left|]. simpl. destruct b; by eexists. }
  destruct (String.eqb lp "water") eqn:E3; [|by eexists].
  apply String.eqb_eq in E3 as ->.
  destruct (Hcrit "water") as (c & Hcw & Hlen); [set_solver|].
  destruct (String.eqb rp "hb_don") eqn:E4.
  { destruct (Hr (is_hb_property_don _ E4)) as [rv ->]. simpl. rewrite Hcw. simpl.
    destruct (validator_Ok (xyz lig_atom) rv None (Some (xyz rec_atom)) c Hlen)
      as [b ->]; [by right|]. simpl. destruct b; by eexists. }
  destruct (String.eqb rp "hb_acc") eqn:E5.
  { destruct (Hr (is_hb_property_acc _ E5)) as [rv ->]. simpl. rewrite Hcw. simpl.
    destruct (validator_Ok (xyz rec_atom) (xyz lig_atom) (Some rv) None c Hlen)
      as [b ->]; [by left|]. simpl. destruct b; by eexists. }
  simpl. by eexists.
Qed.

Lemma interaction_keeps_lig (self : FingerprintInteractions) (lig_atom : Atom)
    (lp : string) (rec_atom : Atom) (rp : string) (f f' : frame) :
  interaction self lig_atom lp rec_atom rp f = Ok f' →
  lig_hb_vector f' = lig_hb_vector f.
Proof.
  intros [->|[(_ & _ & ->)|[(_ & _ & ->)|[(_ & _ & ->)|(_ & _ & ->)]]]]%interaction_cases;
    done.
Qed.

Lemma classify_pair_decided (self : FingerprintInteractions) (lig_atom : Atom)
    (lp : string) (rec : BondGraph) (rec_atom : Atom) (f : frame) :
  criteria_ok self → bound lp f →
  decided (atom_ok rec rec_atom) (bound lp)
    (classify_pair self lig_atom lp rec rec_atom f).
Proof.
  intros Hc Hb. unfold classify_pair, dict_get, atom_ok.
  destruct (atom_property_definitions !! atom_type rec_atom) as [rp|] eqn:Hrp;
    simpl.
  2:{ split; [by intros (p & [=] & _)|]. left. eauto. }
  destruct (is_hb_property rp) eqn:Hhb.
  - unfold hb_vector, getitem.
    destruct (neighbor_atoms rec (idx rec_atom)) as [|first rest] eqn:Hn; simpl.
    { split; [|by right]. intros (p & [= <-] & Hne). by apply Hne. }
    destruct (interaction_total self lig_atom lp rec_atom rp
                (set_rec_hb_vector f (mean (map xyz (atoms rec first)))) Hc)
      as [f' Hf']; [done|by eexists|].
    rewrite Hf'. simpl. split; [by eexists|].
    unfold bound. by rewrite (interaction_keeps_lig _ _ _ _ _ _ _ Hf').
  - destruct (interaction_total self lig_atom lp rec_atom rp f Hc)
      as [f' Hf']; [done|by rewrite Hhb|].
    simpl. rewrite Hf'. simpl. split; [exists rp; split; [done|by rewrite Hhb]|].
    unfold bound. by rewrite (interaction_keeps_lig _ _ _ _ _ _ _ Hf').
Qed.

Lemma classify_lig_atom_decided (self self0 : FingerprintInteractions)
    (flex : bool) (pose : Pose) (lig_atom : Atom) (f : frame) :
  criteria_ok self → _receptor self = _receptor self0 →
  _max_distance self = _max_distance self0 →
  decided (lig_atom_ok self0 flex pose lig_atom) (λ _, True)
    (classify_lig_atom self flex pose lig_atom f).
Proof.
  intros Hc Hr Hm. unfold classify_lig_atom, lig_atom_ok. rewrite Hr, Hm.
  assert (Hzip : (let '(graphs, lists) :=
                    if flex
                    then ([receptor_bonds (_receptor self0)] ++ [pose_bonds pose],
                          [receptor_closest_atoms_from_positions (_receptor self0)
                             (xyz lig_atom) (_max_distance self0)]
                          ++ [pose_closest_atoms_from_positions pose (xyz lig_atom)
                                (_max_distance self0) ["flexible_residue"]])
                    else ([receptor_bonds (_receptor self0)],
                          [receptor_closest_atoms_from_positions (_receptor self0)
                             (xyz lig_atom) (_max_distance self0)])
                  in zip graphs lists)
                 = partitions self0 flex pose lig_atom) by (by destruct flex).
  destruct (if flex then _ else _) as [graphs lists]. simpl in Hzip.
  rewrite <- Hzip. clear Hzip.
  unfold dict_get, atom_ok.
  destruct (atom_property_definitions !! atom_type lig_atom) as [lp|] eqn:Hlp;
    simpl.
  2:{ split; [by intros [(p & [=] & _) _]|]. left. eauto. }
  assert (Hloop : ∀ f0, bound lp f0 →
            decided (Forall (λ part, Forall (atom_ok part.1) part.2)
                       (zip graphs lists)) (bound lp)
              (for_each (classify_partition self lig_atom lp) (zip graphs lists) f0)).
  { intros f0 Hf0. apply for_each_decided; [|done].
    intros [rec rec_atoms] s Hs. unfold classify_partition. simpl.
    destruct rec_atoms as [|a rest]; [by split|].
    change (0 <? length (a :: rest))%nat with true. cbv iota.
    apply for_each_decided; [|done]. intros. by apply classify_pair_decided. }
  destruct (is_hb_property lp) eqn:Hhb.
  - unfold hb_vector, getitem.
    destruct (neighbor_atoms (pose_bonds pose) (idx lig_atom)) as [|first rest]
      eqn:Hn; simpl.
    { split; [|by right]. intros [(p & [= <-] & Hne) _]. by apply Hne. }
    specialize (Hloop (set_lig_hb_vector f (mean (map xyz (atoms (pose_bonds pose) first))))).
    destruct (for_each _ _ _); simpl in *.
    + destruct Hloop as [HF _]; [by eexists|]. split; [|done].
      split; [|done]. exists lp. split; [done|]. by intros _.
    + destruct Hloop as [HF He]; [by eexists|]. split; [|done]. by intros [_ ?].
  - cbn [rbind]. specialize (Hloop f). destruct (for_each _ _ _); simpl in *.
    + destruct Hloop as [HF _]; [by unfold bound; rewrite Hhb|]. split; [|done].
      split; [|done]. exists lp. by rewrite Hhb.
    + destruct Hloop as [HF He]; [by unfold bound; rewrite Hhb|]. split; [|done].
      by intros [_ ?].
Qed.

Lemma classify_pose_decided (self self0 : FingerprintInteractions)
    (flex : bool) (pose : Pose) (f : frame) :
  criteria_ok self → _receptor self = _receptor self0 →
  _max_distance self = _max_distance self0 →
  decided (pose_ok self0 flex pose) (λ _, True) (classify_pose self flex pose f).
Proof.
  intros Hc Hr Hm. unfold classify_pose, pose_ok, ligand_side_atoms.
  assert (Hl : (if has_water_molecules pose
                then atoms_by_properties pose ["ligand"]
                     ++ atoms_by_properties pose ["water"]
                else atoms_by_properties pose ["ligand"])
               = atoms_by_properties pose ["ligand"]
                 ++ (if has_water_molecules pose
                     then atoms_by_properties pose ["water"] else [])).
  { destruct (has_water_molecules pose); [done|by rewrite app_nil_r]. }
  rewrite Hl. apply for_each_decided; [|done].
  intros. by apply classify_lig_atom_decided.
Qed.

Lemma run_loop_decided {X : Type} (Inv : run_state → Prop) (G : X → Prop)
    (body : X → run_state → FingerprintInteractions * result run_state) :
  (∀ x st, Inv st → decided_run (G x) Inv (body x st)) →
  ∀ xs st, Inv st → decided_run (Forall G xs) Inv (run_loop body xs st).
Proof.
  intros Hbody xs. induction xs as [|x xs IH]; intros st HI; simpl; [done|].
  specialize (Hbody x st HI).
  destruct (body x st) as [s [st1|e]]; simpl in *.
  - destruct Hbody as [HG HI1]. specialize (IH st1 HI1).
    destruct (run_loop body xs st1) as [s' [st2|e]]; simpl in *.
    + destruct IH. split; [by constructor|done].
    + destruct IH as [Hn He]. split; [|done]. by intros [_ ?]%Forall_cons.
  - destruct Hbody as [Hn He]. split; [|done]. by intros [? _]%Forall_cons.
Qed.

Lemma run_pose_decided (order : set_order) (self0 : FingerprintInteractions)
    (flex : bool) (pose : Pose) (st : run_state) :
  run_inv self0 st →
  decided_run (pose_ok self0 flex pose) (run_inv self0)
    (run_pose order flex pose st).
Proof.
  destruct st as [[self data] f]. intros (Hc & Hr & Hm). cbn [fst snd] in *.
  pose proof (run_pose_outcome order flex pose self data f) as Hp.
  pose proof (classify_pose_decided self self0 flex pose f Hc Hr Hm) as Hd.
  destruct (classify_pose self flex pose f) as [f'|e]; cbv zeta in Hp;
    rewrite Hp; simpl in *; [|done].
  destruct Hd as [HG _]. split; [done|]. by repeat split.
Qed.

(** A call of [run] returns when every molecule is fit, and otherwise
    raises a KeyError on an atom type or an IndexError. *)
Lemma run_decided (order : set_order) (self : FingerprintInteractions)
    (molecules : molecules_arg) :
  criteria_ok self →
  match run order self molecules with
  | (_, Ok _) => Forall (molecule_ok self) (molecules_of molecules)
  | (_, Raise e) =>
      ¬ Forall (molecule_ok self) (molecules_of molecules) ∧ expected_exn e
  end.
Proof.
  intros Hc. rewrite run_unfold.
  assert (Hloop : decided_run (Forall (molecule_ok self) (molecules_of molecules))
                    (run_inv self)
                    (run_loop (run_molecule order) (molecules_of molecules)
                       (self, [], new_frame))).
  { apply run_loop_decided; [|by repeat split].
    intros m st Hst. unfold run_molecule, molecule_ok.
    apply run_loop_decided; [|done]. intros. by apply run_pose_decided. }
  destruct (run_loop _ _ _) as [s [[[self' data] f]|e]]; simpl in *; [|done].
  by destruct Hloop.
Qed.

Lemma reachable_criteria_ok (self : FingerprintInteractions) :
  reachable self → criteria_ok self.
Proof.
  intros [receptor Hc]%reachable_criteria key. rewrite Hc.
  rewrite !elem_of_cons, elem_of_nil.
  intros [->|[->|[->|[]]]]; eexists; (split; [by vm_compute|simpl; lia]).
Qed.

(** X9. On an object made by [__init__] and [run], a call of [run]
    returns exactly when, for every pose of every molecule, every
    ligand-side atom and every candidate atom returned for it has its
    type in [atom_property_definitions] and, when its property is hb_acc
    or hb_don, a first entry in the bound-atom index of its graph. No
    geometry makes the call raise: coincident or unbound centroids give
    NaN angles and a rejected bond. *)
Theorem run_returns_iff_inputs_ok (order : set_order)
    (self : FingerprintInteractions) (molecules : molecules_arg) :
  reachable self →
  (∃ self', run order self molecules = (self', Ok ()))
  ↔ Forall (molecule_ok self) (molecules_of molecules).
Proof.
  intros Hc%reachable_criteria_ok.
  pose proof (run_decided order self molecules Hc) as Hd.
  destruct (run order self molecules) as [s [[]|e]].
  - split; [done|]. intros _. by eexists.
  - destruct Hd as [Hn _]. split; [by intros [? [=]]|done].
Qed.

(** X10. On an object made by [__init__] and [run], a call of [run] that
    raises raises a KeyError whose key is an atom type outside
    [atom_property_definitions], or an IndexError; never the TypeError of
    the validator, nor an unbound-local error on an hb-vector. *)
Theorem run_exceptions (order : set_order) (self self' : FingerprintInteractions)
    (molecules : molecules_arg) (e : exn) :
  reachable self → run order self molecules = (self', Raise e) →
  (∃ k, e = KeyError k ∧ atom_property_definitions !! k = None) ∨ e = IndexError.
Proof.
  intros Hc%reachable_criteria_ok Hrun.
  pose proof (run_decided order self molecules Hc) as Hd.
  rewrite Hrun in Hd. apply Hd.
Qed.

End RunDecided.

(** ** Records and tables of the states an object reaches *)

Section EncoderMore.
Context `{Libm}.

Lemma run_pose_deduplicated (order : set_order) :
  let I := λ (s : FingerprintInteractions) (data : list pose_record),
             Forall deduplicated (_data s) ∧ Forall deduplicated data in
  ∀ flex pose self data f, I self data →
    outcome_ok I (λ s, Forall deduplicated (_data s))
      (run_pose order flex pose (self, data, f)).
Proof.
  intros I flex pose self data f [Hs Hd].
  pose proof (run_pose_outcome order flex pose self data f) as Hp.
  destruct (classify_pose self flex pose f) as [f'|e]; cbv zeta in Hp;
    rewrite Hp; simpl; [|done].
  split; [done|]. split; [done|].
  apply Forall_app. split; [done|]. apply Forall_singleton.
  repeat split; simpl; apply iterate_NoDup.
Qed.

(** Every list of every record enumerates a set. *)
Lemma reachable_deduplicated (self : FingerprintInteractions) :
  reachable self → Forall deduplicated (_data self).
Proof.
  induction 1 as [receptor|order self molecules _ IH]; [by constructor|].
  pose proof (run_outcome _ _ order self molecules (run_pose_deduplicated order))
    as Hrun.
  destruct (run order self molecules) as [s [[]|e]]; simpl in *.
  - destruct Hrun as (self' & data & -> & Hs & Hd); [by split|].
    simpl. by apply Forall_app.
  - apply Hrun. by split.
Qed.

(** X11. In every record of an object made by [__init__] and [run], no
    label occurs twice, within a list or across the three lists: each
    list enumerates a set, and the tags of the three lists differ. So the
    index list of line 238 has no repeated column. *)
Theorem records_hold_each_label_once (self : FingerprintInteractions)
    (r : pose_record) :
  reachable self → r ∈ _data self →
  NoDup (rec_hb r ++ rec_vdw r ++ rec_water r).
Proof.
  intros Hreach Hr.
  pose proof (reachable_deduplicated self Hreach) as Hd.
  eapply Forall_forall in Hd as (Hh & Hv & Hw); [|exact Hr].
  destruct (reachable_consistent self Hreach) as [Hrecs (Th & Tv & Tw & _)].
  destruct (Hrecs r Hr) as (Sh & Sv & Sw).
  assert (Hth : ∀ l, l ∈ rec_hb r → tagged "h" l).
  { intros l Hl. apply Th, Sh. by apply elem_of_list_to_set. }
  assert (Htv : ∀ l, l ∈ rec_vdw r → tagged "v" l).
  { intros l Hl. apply Tv, Sv. by apply elem_of_list_to_set. }
  assert (Htw : ∀ l, l ∈ rec_water r → tagged "w" l).
  { intros l Hl. apply Tw, Sw. by apply elem_of_list_to_set. }
  apply NoDup_app. split; [done|]. split.
  - intros l Hl [Hl'|Hl']%elem_of_app.
    + by pose proof (tagged_distinct _ _ _ (Hth l Hl) (Htv l Hl')).
    + by pose proof (tagged_distinct _ _ _ (Hth l Hl) (Htw l Hl')).
  - apply NoDup_app. split; [done|]. split; [|done].
    intros l Hl Hl'. by pose proof (tagged_distinct _ _ _ (Htv l Hl) (Htw l Hl')).
Qed.

(** No column at all: the three sets are empty. *)
Lemma labelled_nil (order : set_order) (v : vocabulary) :
  reactive v = ∅ →
  labelled order v = [] ↔ hb v = ∅ ∧ vdw v = ∅ ∧ water v = ∅.
Proof.
  intros Hr.
  assert (Hnil : ∀ X : gset string, order X = [] ↔ X = ∅).
  { intros X. split.
    - intros HX. apply set_eq. intros x.
      rewrite <- (iterate_elem_of order), HX. set_solver.
    - intros ->. apply Permutation_nil_r.
      by rewrite (iterate_perm order ∅), elements_empty. }
  unfold labelled. rewrite Hr. split.
  - intros HL. apply (f_equal length) in HL.
    rewrite !length_app, !length_map in HL. simpl in HL.
    rewrite <- !Hnil. repeat split; apply length_zero_iff_nil; lia.
  - intros (-> & -> & ->). by rewrite (proj2 (Hnil ∅) eq_refl).
Qed.

(** X12. On an object made by [__init__] and [run], [to_dataframe] raises
    exactly when the hb, vdw and water sets are all empty, and then the
    TypeError of [pd.MultiIndex.from_tuples] on an empty list: also when
    records exist, after a run in which no pose had a contact. *)
Theorem encoder_raises_iff_vocabulary_empty (order : set_order)
    (self : FingerprintInteractions) (e : exn) :
  reachable self →
  (to_dataframe order self).2 = Raise e
  ↔ e = TypeError "Cannot infer number of levels from empty list"
    ∧ hb (_unique_interactions self) = ∅
    ∧ vdw (_unique_interactions self) = ∅
    ∧ water (_unique_interactions self) = ∅.
Proof.
  intros Hs%reachable_consistent.
  pose proof (labelled_nil order (_unique_interactions self)
                (proj2 (proj2 (proj2 (proj2 Hs))))) as Hnil.
  destruct (decide (labelled order (_unique_interactions self) = [])) as [HL|HL].
  - rewrite (to_dataframe_empty order self HL). simpl. split.
    + intros [= <-]. split; [done|]. by apply Hnil.
    + by intros [-> _].
  - rewrite (to_dataframe_returns order self Hs HL). simpl. split; [done|].
    intros (_ & Hv). by apply Hnil in Hv.
Qed.

(** X13. The table [to_dataframe] returns on an object made by [__init__]
    and [run]: no two columns have the same name, the first level of
    every name is hb, vdw or water, and every cell is 0 or 1. *)
Theorem table_is_well_formed (order : set_order)
    (self s' : FingerprintInteractions) (df : DataFrame) :
  reachable self → to_dataframe order self = (s', Ok df) →
  NoDup (df_columns df).*1
  ∧ Forall (λ c, c.1.1 ∈ ["hb"; "vdw"; "water"]
                 ∧ Forall (λ z, z = 0%Z ∨ z = 1%Z) c.2) (df_columns df).
Proof.
  intros Hs%reachable_consistent Hdf.
  assert (HL : labelled order (_unique_interactions self) ≠ []).
  { intros HL. by rewrite (to_dataframe_empty order self HL) in Hdf. }
  rewrite (to_dataframe_returns order self Hs HL) in Hdf.
  injection Hdf as _ <-. simpl. split.
  - eapply sublist_NoDup; [apply (column_names_NoDup order), Hs|].
    apply fmap_sublist, sublist_filter.
  - apply Forall_forall.
    intros c [_ [[t l] [-> Htl]]%list_elem_of_fmap]%list_elem_of_filter.
    unfold column_for. simpl. split.
    + destruct (labelled_elem order _ t l (proj2 Hs) Htl)
        as [(-> & _)|[(-> & _)|(-> & _)]]; rewrite !elem_of_cons; auto.
    + apply Forall_forall. intros z [r [-> _]]%list_elem_of_fmap.
      unfold indicator. case_bool_decide; auto.
Qed.

Lemma same_record_labels (r r' : pose_record) (l : string) :
  same_record r r' → l ∈ record_labels r ↔ l ∈ record_labels r'.
Proof.
  intros [_ Hk]. unfold record_labels.
  pose proof (Hk HB) as Ph. pose proof (Hk VDW) as Pv. pose proof (Hk WATER) as Pw.
  simpl in Ph, Pv, Pw. by rewrite Ph, Pv, Pw.
Qed.

Lemma same_up_to_order_consistent (s s' : FingerprintInteractions) :
  same_up_to_order s s' → consistent s → consistent s'.
Proof.
  intros [[_ Hu] Hd] [Hrecs Htag]. unfold consistent. rewrite <- Hu.
  split; [|done].
  intros r' Hr'.
  apply list_elem_of_lookup in Hr' as [i Hi].
  destruct (Forall2_lookup_r _ _ _ _ _ Hd Hi) as (r & Hr & _ & Hk).
  destruct (Hrecs r (list_elem_of_lookup_2 _ _ _ Hr)) as (Hh & Hv & Hw).
  pose proof (Hk HB) as Ph. pose proof (Hk VDW) as Pv. pose proof (Hk WATER) as Pw.
  simpl in Ph, Pv, Pw. unfold record_in_vocabulary.
  split; [|split]; intros l Hl%elem_of_list_to_set;
    [apply Hh|apply Hv|apply Hw]; apply elem_of_list_to_set;
    [by rewrite Ph|by rewrite Pv|by rewrite Pw].
Qed.

(** The column of a label reads of a record which labels it has. *)
Lemma column_for_same (data data' : list pose_record) (tl : string * string) :
  Forall2 same_record data data' → column_for data tl = column_for data' tl.
Proof.
  intros Hd. unfold column_for. f_equal.
  induction Hd as [|r r' data data' Hr _ IH]; simpl; [done|].
  rewrite IH. f_equal. unfold indicator.
  by rewrite (bool_decide_ext _ _ (same_record_labels r r' tl.2 Hr)).
Qed.

Lemma row_index_same (data data' : list pose_record) :
  Forall2 same_record data data' →
  zip (map rec_name data) (map (λ r, (rec_pose_id r + 1)%Z) data)
  = zip (map rec_name data') (map (λ r, (rec_pose_id r + 1)%Z) data').
Proof.
  induction 1 as [|r r' data data' [Hk _] _ IH]; simpl; [done|].
  injection Hk as -> ->. by rewrite IH.
Qed.

(** X16. The order in which Python enumerates a set does not change the
    table. On two objects that differ at most in the order of the labels
    within their records, one of them made by [__init__] and [run], two
    calls of [to_dataframe], each with its own enumeration of the sets,
    raise the same exception or return two tables with the same row index
    and the same columns up to their order, hence the same cell at every
    pose and column label. *)
Theorem table_order_irrelevant (o1 o2 : set_order)
    (self1 self2 : FingerprintInteractions) :
  reachable self1 → same_up_to_order self1 self2 →
  same_table (to_dataframe o1 self1).2 (to_dataframe o2 self2).2.
Proof.
  intros Hs1%reachable_consistent Hsame.
  pose proof (same_up_to_order_consistent self1 self2 Hsame Hs1) as Hs2.
  destruct Hsame as [[_ Hu] Hd].
  pose proof (labelled_perm o1 o2 (_unique_interactions self1)) as Hperm.
  destruct (decide (labelled o1 (_unique_interactions self1) = [])) as [H1|H1].
  - assert (H2 : labelled o2 (_unique_interactions self2) = []).
    { apply Permutation_nil. by rewrite <- Hu, <- H1. }
    by rewrite (to_dataframe_empty o1 self1 H1), (to_dataframe_empty o2 self2 H2).
  - assert (H2 : labelled o2 (_unique_interactions self2) ≠ []).
    { intros H2. apply H1, Permutation_nil. by rewrite Hperm, Hu, H2. }
    rewrite (to_dataframe_returns o1 self1 Hs1 H1),
      (to_dataframe_returns o2 self2 Hs2 H2). simpl.
    assert (Hcols : filter (λ c, nonzero_column c = true)
                      (map (column_for (_data self1))
                         (labelled o1 (_unique_interactions self1)))
                    ≡ₚ filter (λ c, nonzero_column c = true)
                         (map (column_for (_data self2))
                            (labelled o2 (_unique_interactions self2)))).
    { rewrite <- Hu.
      rewrite <- (map_ext _ _ (λ tl, column_for_same _ _ tl Hd)).
      by rewrite Hperm. }
    split; [by apply row_index_same|]. split; [done|].
    intros row label. unfold cell. simpl.
    assert (Hnd : NoDup (filter (λ c, nonzero_column c = true)
                           (map (column_for (_data self1))
                              (labelled o1 (_unique_interactions self1)))).*1).
    { eapply sublist_NoDup; [apply (column_names_NoDup o1), Hs1|].
      apply fmap_sublist, sublist_filter. }
    by rewrite (list_to_map_proper _ _ Hnd Hcols).
Qed.

End EncoderMore.

(** ** Labels as strings *)

Section Labels.

(** Two strings with a colon after a prefix that has none are equal only
    when the prefixes and the rests are. *)
Lemma split_at_colon (s1 s2 t1 t2 : string) :
  has_char ":" s1 = false → has_char ":" s2 = false →
  s1 +:+ String ":" t1 = s2 +:+ String ":" t2 → s1 = s2 ∧ t1 = t2.
Proof.
  revert s2. induction s1 as [|c s1 IH]; intros [|c' s2];
    cbn [has_char];
    repeat match goal with
      | |- context [String ?c ?s +:+ ?x] =>
          change (String c s +:+ x) with (String c (s +:+ x))
      | |- context ["" +:+ ?x] => change ("" +:+ x) with x
      end.
  - by intros _ _ [= ->].
  - intros _ H2 [= <- _]. by rewrite Ascii.eqb_refl in H2.
  - intros H1 _ [= -> _]. by rewrite Ascii.eqb_refl in H1.
  - intros [_ H1]%orb_false_iff [_ H2]%orb_false_iff [= -> Heq].
    by destruct (IH s2 H1 H2 Heq) as [-> ->].
Qed.

Lemma pretty_N_go_colon (x : N) (s : string) :
  has_char ":" (pretty_N_go x s) = has_char ":" s.
Proof.
  revert s. induction (N.lt_wf_0 x) as [x _ IH]; intros s.
  assert (x = 0 ∨ 0 < x)%N as [->|Hx] by lia; [done|].
  rewrite pretty_N_go_step by done.
  rewrite IH by (by apply N.div_lt). simpl.
  generalize (x `mod` 10)%N. intros n. unfold pretty_N_char.
  destruct n as [|p]; [done|].
  destruct p as [p|p|]; [| |done];
    (destruct p as [p|p|]; [| |done]);
    (destruct p as [p|p|]; [| |done]);
    by destruct p.
Qed.

Lemma pretty_N_colon (x : N) : has_char ":" (pretty x) = false.
Proof.
  unfold pretty, pretty_N. case_decide; [done|]. by rewrite pretty_N_go_colon.
Qed.

(** The decimal digits of an integer hold no colon. *)
Lemma pretty_Z_colon (z : Z) : has_char ":" (pretty z) = false.
Proof.
  destruct z as [|p|p]; [done|..].
  - change (pretty (Z.pos p)) with (pretty (N.pos p)). apply pretty_N_colon.
  - change (pretty (Z.neg p)) with (String "-" (pretty (N.pos p))).
    cbn [has_char]. apply pretty_N_colon.
Qed.

(** X14. The labels are injective on what they are made of. For two
    atoms whose chain identifiers hold no colon, the residue labels of
    lines 156 and 190 are equal exactly when chain and residue number
    are, and the hb labels of lines 165 and 174 exactly when chain,
    residue number and atom name are: two receptor partners share a
    column only when they are the same residue, or the same atom. *)
Theorem labels_identify_partner (a b : Atom) :
  has_char ":" (chain a) = false → has_char ":" (chain b) = false →
  (∀ tag, residue_label tag a = residue_label tag b
          ↔ chain a = chain b ∧ resid a = resid b)
  ∧ (hb_label a = hb_label b
     ↔ chain a = chain b ∧ resid a = resid b ∧ name a = name b).
Proof.
  intros Ha Hb. split.
  - intros tag. unfold residue_label. split.
    + intros Heq. do 2 apply (inj (String.app _)) in Heq.
      apply split_at_colon in Heq as [Hc Hp]; [|done..].
      split; [done|]. by apply (inj pretty).
    + by intros [-> ->].
  - unfold hb_label. split.
    + intros Heq. apply (inj (String.app "h_")) in Heq.
      apply split_at_colon in Heq as [Hc Hp]; [|done..].
      apply split_at_colon in Hp as [Hp Hn]; [|apply pretty_Z_colon..].
      split; [done|]. split; [by apply (inj pretty)|done].
    + by intros (-> & -> & ->).
Qed.

End Labels.


(** ** The properties on the docking scenario *)

Lemma out_of_range_rejected_witness :
  (∀ atom_acc_2 atom_don_1,
     @_is_valid_hydrogen_bond_traced ref_libm (Vec3 0 0 0) atom_acc_2 atom_don_1
       (Vec3 5 0 0) [3.2; 120; 90]%float = ([], Ok false))
  ∧ (∀ self lig_atom lig_atom_property rec_atom rec_atom_property f,
       hb_call_site lig_atom rec_atom f lig_atom_property rec_atom_property
         (Vec3 0 0 0) (Vec3 5 0 0) →
       _criteria self !! lig_atom_property = Some [3.2; 120; 90]%float →
       @interaction ref_libm self lig_atom lig_atom_property rec_atom
         rec_atom_property f = Ok f).
Proof.
  apply (@out_of_range_rejected ref_libm (Vec3 0 0 0) (Vec3 5 0 0)
           [3.2; 120; 90]%float 3.2%float); reflexivity.
Defined.

Lemma nondirectional_substitution_witness :
  @_is_valid_hydrogen_bond_traced ref_libm (Vec3 0 0 0) (Some (Vec3 (-1) 0 0)) None
    (Vec3 3 0 0) [3.2; 120; 90]%float
  = ([(Vec3 (-1) 0 0, Vec3 3 0 0)], Ok true)
  ∧ @_is_valid_hydrogen_bond_traced ref_libm (Vec3 0 0 0) None (Some (Vec3 (-1) 0 0))
      (Vec3 3 0 0) [3.2; 120; 90]%float
    = ([(Vec3 4 0 0, Vec3 1 0 0)], Ok false).
Proof.
  destruct (@nondirectional_substitution ref_libm (Vec3 0 0 0) (Vec3 3 0 0)
              (Vec3 (-1) 0 0) [3.2; 120; 90]%float 3.2%float 120%float 90%float
              eq_refl eq_refl eq_refl eq_refl)
    as [(angle_2 & Ha2 & Ht2 & _) [(angle_1 & Ha1 & Ht1 & _) _]].
  injection Ha2 as <-. injection Ha1 as <-.
  split; [rewrite Ht2|rewrite Ht1]; reflexivity.
Defined.

Lemma pose_records_in_vocabulary_witness :
  record_in_vocabulary (_unique_interactions Scenario.after_run)
    {| rec_name := "lig"; rec_pose_id := 0; rec_hb := ["h_A:12:O"];
       rec_vdw := ["v_A:12"]; rec_water := [] |}.
Proof.
  apply (@pose_records_in_vocabulary ref_libm Scenario.after_run).
  - apply reachable_run, reachable_init.
  - assert (Hd : _data Scenario.after_run
                 = [{| rec_name := "lig"; rec_pose_id := 0; rec_hb := ["h_A:12:O"];
                       rec_vdw := ["v_A:12"]; rec_water := [] |};
                    {| rec_name := "lig"; rec_pose_id := 1; rec_hb := [];
                       rec_vdw := []; rec_water := [] |}]) by (by vm_compute).
    rewrite Hd. apply list_elem_of_here.
Defined.

Lemma mixed_table_encoded :
  to_dataframe elements_order Scenario.after_mixed_runs
  = (Scenario.after_mixed_runs, Ok Scenario.mixed_table).
Proof. unfold to_dataframe. apply (f_equal (pair _)). by vm_compute. Qed.

Lemma zero_columns_dropped_witness :
  Forall (λ c, column_sum c.2 ≠ 0%Z) (df_columns Scenario.mixed_table)
  ∧ (∃ columns names poses,
       initial_table elements_order Scenario.after_mixed_runs
       = Ok (columns, names, poses)
       ∧ df_columns Scenario.mixed_table
         = filter (λ c, nonzero_column c = true) columns
       ∧ ∀ c, c ∈ columns → c ∉ df_columns Scenario.mixed_table →
              column_sum c.2 = 0%Z)
  ∧ length (df_index Scenario.mixed_table) = length (_data Scenario.after_mixed_runs)
  ∧ Forall (λ c, length c.2 = length (_data Scenario.after_mixed_runs))
      (df_columns Scenario.mixed_table).
Proof.
  exact (zero_columns_dropped elements_order Scenario.after_mixed_runs
           Scenario.after_mixed_runs Scenario.mixed_table mixed_table_encoded).
Defined.

Lemma row_index_is_name_and_pose_witness :
  df_index Scenario.mixed_table
  = map (λ r, (rec_name r, (rec_pose_id r + 1)%Z)) (_data Scenario.after_mixed_runs).
Proof.
  exact (row_index_is_name_and_pose elements_order Scenario.after_mixed_runs
           Scenario.after_mixed_runs Scenario.mixed_table mixed_table_encoded).
Defined.

Lemma encoding_idempotent_witness :
  ∃ r1 r2,
    to_dataframe elements_order Scenario.after_run = (Scenario.after_run, r1)
    ∧ to_dataframe reversed_order
        (to_dataframe elements_order Scenario.after_run).1
      = (Scenario.after_run, r2)
    ∧ same_table r1 r2.
Proof.
  apply (@encoding_idempotent ref_libm elements_order reversed_order
           Scenario.after_run).
  apply reachable_run, reachable_init.
Defined.

Lemma failed_run_keeps_data_witness :
  _data Scenario.after_broken_run.1 = _data Scenario.fresh.
Proof.
  apply (proj1 (@failed_run_keeps_data ref_libm) elements_order Scenario.fresh
           (OneMolecule Scenario.broken_molecule) _ (KeyError "Xx")).
  unfold Scenario.after_broken_run.
  rewrite (surjective_pairing (run _ _ _)) at 1.
  apply (f_equal (pair _)). by vm_compute.
Defined.

Lemma encoder_table_on_reachable_witness :
  ∃ df,
    to_dataframe elements_order Scenario.after_run = (Scenario.after_run, Ok df)
    ∧ df_columns df
      = filter (λ c, nonzero_column c = true)
          (map (λ tl, ((tl.1, str_drop 2 tl.2),
                       map (λ r, if bool_decide (tl.2 ∈ rec_hb r ++ rec_vdw r ++ rec_water r)
                                 then 1%Z else 0%Z) (_data Scenario.after_run)))
             (labelled elements_order (_unique_interactions Scenario.after_run))).
Proof.
  apply (@encoder_table_on_reachable ref_libm elements_order Scenario.after_run
           "v_A:12").
  - apply reachable_run, reachable_init.
  - apply (bool_decide_unpack _). by vm_compute.
Defined.

(** The run of the scenario, evaluated: a hydrogen bond and a contact for
    pose 0, nothing for pose 1, whose row is kept. *)
Example after_run_table :
  (to_dataframe elements_order Scenario.after_run).2
  = Ok {| df_index := [("lig", 1%Z); ("lig", 2%Z)];
          df_columns := [(("hb", "A:12:O"), [1%Z; 0%Z]);
                         (("vdw", "A:12"), [1%Z; 0%Z])] |}.
Proof. by vm_compute. Qed.

Example broken_run_outcome :
  Scenario.after_broken_run.2 = Raise (KeyError "Xx")
  ∧ _data Scenario.after_broken_run.1 = []
  ∧ elements (hb (_unique_interactions Scenario.after_broken_run.1)) = ["h_A:12:O"].
Proof. by vm_compute. Qed.

(** The two calls of the scenario, and the table of the first. *)
Lemma after_run_returns :
  run elements_order Scenario.fresh (OneMolecule Scenario.molecule)
  = (Scenario.after_run, Ok ()).
Proof.
  unfold Scenario.after_run.
  rewrite (surjective_pairing (run _ _ _)) at 1.
  apply (f_equal (pair _)). by vm_compute.
Qed.

Lemma after_run_returned : returned Scenario.after_run.
Proof.
  exact (returned_run elements_order Scenario.fresh Scenario.after_run
           (OneMolecule Scenario.molecule) (returned_init Scenario.receptor)
           after_run_returns).
Qed.

Lemma broken_run_raises :
  run elements_order Scenario.fresh (OneMolecule Scenario.broken_molecule)
  = (Scenario.after_broken_run.1, Raise (KeyError "Xx")).
Proof.
  unfold Scenario.after_broken_run.
  rewrite (surjective_pairing (run _ _ _)) at 1.
  apply (f_equal (pair _)). by vm_compute.
Qed.

Lemma run_table_encoded :
  to_dataframe elements_order Scenario.after_run
  = (Scenario.after_run, Ok Scenario.run_table).
Proof. unfold to_dataframe. apply (f_equal (pair _)). by vm_compute. Qed.

Lemma validator_exceptions_witness :
  (TypeError "unsupported operand type(s) for -: 'NoneType' and 'float'" = IndexError
   ∧ (length [3.2; 120; 90]%float < 3)%nat)
  ∨ (TypeError "unsupported operand type(s) for -: 'NoneType' and 'float'"
     = TypeError "unsupported operand type(s) for -: 'NoneType' and 'float'"
     ∧ (None : option vec3) = None ∧ (None : option vec3) = None
     ∧ ∃ max_distance, [3.2; 120; 90]%float !! 0%nat = Some max_distance
         ∧ (norm (vsub (Vec3 0 0 0) (Vec3 3 0 0)) <=? max_distance)%float = true).
Proof.
  apply (@validator_exceptions ref_libm (Vec3 0 0 0) (Vec3 3 0 0) None None
           [3.2; 120; 90]%float).
  reflexivity.
Defined.

Lemma run_records_exact_witness :
  ∃ recs,
    _data Scenario.after_run = _data Scenario.fresh ++ recs
    ∧ Forall2 (λ fp r, @record_of_pose ref_libm Scenario.fresh fp.1 fp.2 r)
        (poses_with_flag (OneMolecule Scenario.molecule)) recs.
Proof.
  exact (@run_records_exact ref_libm elements_order Scenario.fresh
           Scenario.after_run (OneMolecule Scenario.molecule) after_run_returns).
Defined.

Lemma run_appends_records_witness :
  ∃ recs,
    _data Scenario.after_run = _data Scenario.fresh ++ recs
    ∧ map record_key recs
      = map pose_key (poses_of (OneMolecule Scenario.molecule))
    ∧ hb (_unique_interactions Scenario.after_run)
      = hb (_unique_interactions Scenario.fresh) ∪ records_hb recs
    ∧ vdw (_unique_interactions Scenario.after_run)
      = vdw (_unique_interactions Scenario.fresh) ∪ records_vdw recs
    ∧ water (_unique_interactions Scenario.after_run)
      = water (_unique_interactions Scenario.fresh) ∪ records_water recs
    ∧ reactive (_unique_interactions Scenario.after_run)
      = reactive (_unique_interactions Scenario.fresh)
    ∧ _max_distance Scenario.after_run = _max_distance Scenario.fresh
    ∧ _criteria Scenario.after_run = _criteria Scenario.fresh
    ∧ _receptor Scenario.after_run = _receptor Scenario.fresh.
Proof.
  exact (@run_appends_records ref_libm elements_order Scenario.fresh
           Scenario.after_run (OneMolecule Scenario.molecule) after_run_returns).
Defined.

Lemma vocabulary_is_union_of_records_witness :
  hb (_unique_interactions Scenario.after_run)
  = records_hb (_data Scenario.after_run)
  ∧ vdw (_unique_interactions Scenario.after_run)
    = records_vdw (_data Scenario.after_run)
  ∧ water (_unique_interactions Scenario.after_run)
    = records_water (_data Scenario.after_run)
  ∧ reactive (_unique_interactions Scenario.after_run) = ∅.
Proof.
  exact (@vocabulary_is_union_of_records ref_libm Scenario.after_run
           after_run_returned).
Defined.

Lemma no_column_dropped_witness :
  df_columns Scenario.run_table
  = map (column_for (_data Scenario.after_run))
      (labelled elements_order (_unique_interactions Scenario.after_run))
  ∧ length (df_columns Scenario.run_table)
    = (size (hb (_unique_interactions Scenario.after_run))
       + size (vdw (_unique_interactions Scenario.after_run))
       + size (water (_unique_interactions Scenario.after_run)))%nat.
Proof.
  exact (@no_column_dropped ref_libm elements_order Scenario.after_run
           Scenario.after_run Scenario.run_table after_run_returned
           run_table_encoded).
Defined.

Lemma run_returns_iff_inputs_ok_witness :
  Forall (molecule_ok Scenario.fresh) (molecules_of (OneMolecule Scenario.molecule)).
Proof.
  apply (proj1 (@run_returns_iff_inputs_ok ref_libm elements_order Scenario.fresh
                  (OneMolecule Scenario.molecule)
                  (reachable_init Scenario.receptor))).
  exists Scenario.after_run. exact after_run_returns.
Defined.

Lemma run_exceptions_witness :
  (∃ k, KeyError "Xx" = KeyError k ∧ atom_property_definitions !! k = None)
  ∨ KeyError "Xx" = IndexError.
Proof.
  exact (@run_exceptions ref_libm elements_order Scenario.fresh
           Scenario.after_broken_run.1 (OneMolecule Scenario.broken_molecule)
           (KeyError "Xx") (reachable_init Scenario.receptor) broken_run_raises).
Defined.

Lemma records_hold_each_label_once_witness :
  NoDup (["h_A:12:O"] ++ ["v_A:12"] ++ [] : list string).
Proof.
  apply (@records_hold_each_label_once ref_libm Scenario.after_run
           {| rec_name := "lig"; rec_pose_id := 0; rec_hb := ["h_A:12:O"];
              rec_vdw := ["v_A:12"]; rec_water := [] |}).
  - apply reachable_run, reachable_init.
  - assert (Hd : _data Scenario.after_run
                 = [{| rec_name := "lig"; rec_pose_id := 0; rec_hb := ["h_A:12:O"];
                       rec_vdw := ["v_A:12"]; rec_water := [] |};
                    {| rec_name := "lig"; rec_pose_id := 1; rec_hb := [];
                       rec_vdw := []; rec_water := [] |}]) by (by vm_compute).
    rewrite Hd. apply list_elem_of_here.
Defined.

Lemma encoder_raises_iff_vocabulary_empty_witness :
  (to_dataframe elements_order Scenario.fresh).2
  = Raise (TypeError "Cannot infer number of levels from empty list").
Proof.
  apply (@encoder_raises_iff_vocabulary_empty ref_libm elements_order
           Scenario.fresh (TypeError "Cannot infer number of levels from empty list")
           (reachable_init Scenario.receptor)).
  by repeat split.
Defined.

Lemma table_is_well_formed_witness :
  NoDup (df_columns Scenario.run_table).*1
  ∧ Forall (λ c, c.1.1 ∈ ["hb"; "vdw"; "water"]
                 ∧ Forall (λ z, z = 0%Z ∨ z = 1%Z) c.2)
      (df_columns Scenario.run_table).
Proof.
  exact (@table_is_well_formed ref_libm elements_order Scenario.after_run
           Scenario.after_run Scenario.run_table
           (reachable_run elements_order Scenario.fresh
              (OneMolecule Scenario.molecule) (reachable_init Scenario.receptor))
           run_table_encoded).
Defined.

Lemma labels_identify_partner_witness :
  (∀ tag, residue_label tag (Scenario.mk_atom 0 "CA" "C" 0 0 0)
          = residue_label tag (Scenario.mk_atom 2 "O" "OA" 0 6 0)
          ↔ chain (Scenario.mk_atom 0 "CA" "C" 0 0 0)
            = chain (Scenario.mk_atom 2 "O" "OA" 0 6 0)
            ∧ resid (Scenario.mk_atom 0 "CA" "C" 0 0 0)
              = resid (Scenario.mk_atom 2 "O" "OA" 0 6 0))
  ∧ (hb_label (Scenario.mk_atom 0 "CA" "C" 0 0 0)
     = hb_label (Scenario.mk_atom 2 "O" "OA" 0 6 0)
     ↔ chain (Scenario.mk_atom 0 "CA" "C" 0 0 0)
       = chain (Scenario.mk_atom 2 "O" "OA" 0 6 0)
       ∧ resid (Scenario.mk_atom 0 "CA" "C" 0 0 0)
         = resid (Scenario.mk_atom 2 "O" "OA" 0 6 0)
       ∧ name (Scenario.mk_atom 0 "CA" "C" 0 0 0)
         = name (Scenario.mk_atom 2 "O" "OA" 0 6 0)).
Proof.
  apply (labels_identify_partner (Scenario.mk_atom 0 "CA" "C" 0 0 0)
           (Scenario.mk_atom 2 "O" "OA" 0 6 0)); reflexivity.
Defined.

(** The records of the two objects, for any enumeration of the sets; the
    two enumerations of the scenario differ on the vdw set. *)
Lemma two_labels_data (order : set_order) :
  _data (run order (__init__ Scenario.two_residue_receptor)
           (OneMolecule Scenario.contact_molecule)).1
  = [{| rec_name := "lig"; rec_pose_id := 3; rec_hb := order ∅;
        rec_vdw := order {["v_A:12"; "v_A:13"]}; rec_water := order ∅ |}].
Proof. by vm_compute. Qed.

Lemma two_labels_same_up_to_order :
  same_up_to_order Scenario.two_labels_run Scenario.two_labels_run_reversed.
Proof.
  split; [split; [by repeat split|by vm_compute]|].
  unfold Scenario.two_labels_run, Scenario.two_labels_run_reversed.
  rewrite !two_labels_data.
  apply Forall2_cons_2; [|apply Forall2_nil_2].
  split; [done|]. intros [];
    cbn [record_labels_of_kind rec_hb rec_vdw rec_water];
    by rewrite (iterate_perm elements_order), (iterate_perm reversed_order).
Qed.

Lemma run_order_irrelevant_witness :
  _data Scenario.two_labels_run ≠ _data Scenario.two_labels_run_reversed
  ∧ _data (run elements_order Scenario.two_labels_run
             (OneMolecule Scenario.contact_molecule)).1
    ≠ _data (run reversed_order Scenario.two_labels_run_reversed
               (OneMolecule Scenario.contact_molecule)).1
  ∧ (run elements_order Scenario.two_labels_run
       (OneMolecule Scenario.contact_molecule)).2
    = (run reversed_order Scenario.two_labels_run_reversed
         (OneMolecule Scenario.contact_molecule)).2
  ∧ same_up_to_order
      (run elements_order Scenario.two_labels_run
         (OneMolecule Scenario.contact_molecule)).1
      (run reversed_order Scenario.two_labels_run_reversed
         (OneMolecule Scenario.contact_molecule)).1.
Proof.
  split; [by vm_compute|]. split; [by vm_compute|].
  apply (@run_order_irrelevant ref_libm elements_order reversed_order
           Scenario.two_labels_run Scenario.two_labels_run_reversed
           (OneMolecule Scenario.contact_molecule)).
  exact two_labels_same_up_to_order.
Defined.

Lemma table_order_irrelevant_witness :
  (to_dataframe elements_order Scenario.two_labels_run).2
  ≠ (to_dataframe reversed_order Scenario.two_labels_run_reversed).2
  ∧ same_table (to_dataframe elements_order Scenario.two_labels_run).2
      (to_dataframe reversed_order Scenario.two_labels_run_reversed).2.
Proof.
  split; [by vm_compute|].
  apply (@table_order_irrelevant ref_libm elements_order reversed_order
           Scenario.two_labels_run Scenario.two_labels_run_reversed).
  - apply reachable_run, reachable_init.
  - exact two_labels_same_up_to_order.
Defined.
